(** * Ultimate Zombie Shooter (game.js): a shallow embedding of the simulation

    The JavaScript globals of game.js become one [State] record that every
    handler takes and returns.  Numbers that the script only ever uses as
    integers (ammo, hit points, damage, coins, score, level, millisecond
    clock readings) are [Z].  Numbers that are genuinely floating point
    (coordinates, velocities, radii, delta time, random draws) live in an
    abstract type [F] with the operations the script applies to them, so
    that every statement proved below holds whatever the rounding of
    IEEE doubles does.  [Math.random()] is an oracle [random : nat -> F]
    read through a counter kept in the state; the animation frames asked
    for and the reload timeouts that are pending are kept there too.  A read of an array slot that
    does not exist followed by a property access is a [TypeError]; handlers
    that can reach one return an [outcome].  [Date.now()] is one reading
    [now] per handler call.  The canvas size [W], [H] comes from the page
    and is a parameter.  Drawing and the text of the HUD read the state and
    are left out. *)

From Stdlib Require Import ZArith QArith Qround Lia.
From stdpp Require Import base option list gmap strings fin_maps.

Local Open Scope Z_scope.

(** ** Floating point interface *)

Class Float (F : Type) := {
  num    : Q -> F;              (* a numeric literal *)
  fadd   : F -> F -> F;
  fsub   : F -> F -> F;
  fmul   : F -> F -> F;
  fdiv   : F -> F -> F;
  flt    : F -> F -> bool;      (* a < b *)
  fmin   : F -> F -> F;         (* Math.min *)
  fmax   : F -> F -> F;         (* Math.max *)
  hypot  : F -> F -> F;         (* Math.hypot *)
  fcos   : F -> F;              (* Math.cos *)
  fsin   : F -> F;              (* Math.sin *)
  atan2  : F -> F -> F;         (* Math.atan2 *)
  fneg   : F -> F;              (* unary minus *)
  ffloor : F -> Z;              (* Math.floor, read as an integer *)
  falsy  : F -> bool            (* !x : zero or NaN *)
}.

Arguments num {F _} _%_Q.

Declare Scope float_scope.
Delimit Scope float_scope with F.
Infix "+" := fadd : float_scope.
Infix "-" := fsub : float_scope.
Infix "*" := fmul : float_scope.
Infix "/" := fdiv : float_scope.
Infix "<?" := flt : float_scope.

Definition ofZ `{Float F} (z : Z) : F := num (inject_Z z).
Definition fgt `{Float F} (a b : F) : bool := flt b a.        (* a > b *)
Infix ">?" := fgt : float_scope.
(* x || d on numbers *)
Definition orElse `{Float F} (x d : F) : F := if falsy x then d else x.

(** ** Entities *)

Inductive EnemyType := normal | fast | tank | spitter | bomber | boss.
Inductive Owner := fromPlayer | fromEnemy.
Inductive PickupType := coin | ammoBox.
Inductive WeaponType := bullet | shot | rocket.

#[global] Instance EnemyType_eq_dec : EqDecision EnemyType.
Proof. solve_decision. Defined.
#[global] Instance Owner_eq_dec : EqDecision Owner.
Proof. solve_decision. Defined.
#[global] Instance PickupType_eq_dec : EqDecision PickupType.
Proof. solve_decision. Defined.
#[global] Instance WeaponType_eq_dec : EqDecision WeaponType.
Proof. solve_decision. Defined.

Record Player (F : Type) := mkPlayer {
  p_x : F; p_y : F; p_r : F; p_speed : F; p_maxHp : Z; p_hp : Z }.

Record Weapon (F : Type) := mkWeapon {
  w_name : string; ammo : Z; maxAmmo : Z; damage : Z; fireRate : Z;
  reload : Z; wtype : WeaponType; pellets : option Z; spread : option F;
  owned : bool; price : Z }.

Record Bullet (F : Type) := mkBullet {
  b_x : F; b_y : F; b_vx : F; b_vy : F; b_r : F; b_dmg : Z;
  b_from : Owner; b_rocket : bool }.

Record Enemy (F : Type) := mkEnemy {
  e_x : F; e_y : F; e_r : F; e_speed : F; e_hp : Z; e_type : EnemyType;
  e_color : string; e_lastSpit : Z }.

Record Particle (F : Type) := mkParticle {
  pt_x : F; pt_y : F; pt_dx : F; pt_dy : F; pt_life : F; pt_age : F;
  pt_color : string; pt_r : F }.

Record Pickup (F : Type) := mkPickup {
  pk_x : F; pk_y : F; pk_type : PickupType; pk_val : Z; pk_age : F }.

Record Wall (F : Type) := mkWall { wl_x : F; wl_y : F; wl_w : F; wl_h : F }.

Arguments mkPlayer {F}. Arguments p_x {F}. Arguments p_y {F}. Arguments p_r {F}.
Arguments p_speed {F}. Arguments p_maxHp {F}. Arguments p_hp {F}.
Arguments mkWeapon {F}. Arguments w_name {F}. Arguments ammo {F}.
Arguments maxAmmo {F}. Arguments damage {F}. Arguments fireRate {F}.
Arguments reload {F}. Arguments wtype {F}. Arguments pellets {F}.
Arguments spread {F}. Arguments owned {F}. Arguments price {F}.
Arguments mkBullet {F}. Arguments b_x {F}. Arguments b_y {F}. Arguments b_vx {F}.
Arguments b_vy {F}. Arguments b_r {F}. Arguments b_dmg {F}. Arguments b_from {F}.
Arguments b_rocket {F}.
Arguments mkEnemy {F}. Arguments e_x {F}. Arguments e_y {F}. Arguments e_r {F}.
Arguments e_speed {F}. Arguments e_hp {F}. Arguments e_type {F}.
Arguments e_color {F}. Arguments e_lastSpit {F}.
Arguments mkParticle {F}. Arguments pt_x {F}. Arguments pt_y {F}.
Arguments pt_dx {F}. Arguments pt_dy {F}. Arguments pt_life {F}.
Arguments pt_age {F}. Arguments pt_color {F}. Arguments pt_r {F}.
Arguments mkPickup {F}. Arguments pk_x {F}. Arguments pk_y {F}.
Arguments pk_type {F}. Arguments pk_val {F}. Arguments pk_age {F}.
Arguments mkWall {F}. Arguments wl_x {F}. Arguments wl_y {F}.
Arguments wl_w {F}. Arguments wl_h {F}.

(** ** The globals *)

Record State (F : Type) := mkState {
  gameStarted : bool;
  gameOver : bool;
  score : Z;
  coins : Z;
  level : Z;
  enemiesToSpawn : Z;
  player : Player F;
  bullets : list (Bullet F);
  enemies : list (Enemy F);
  particles : list (Particle F);
  pickups : list (Pickup F);
  weapons : gmap string (Weapon F);
  currentWeaponKey : string;
  lastShotAt : Z;
  reloading : bool;
  keys : gmap string bool;
  mouse : F * F;
  mouseDown : bool;
  lastT : F;
  pickupSpawnTimer : F;
  (* the environment, as far as the script leaves traces in it *)
  randomCalls : nat;               (* Math.random() calls made so far *)
  sfxLog : list string;            (* playSfx calls, latest first *)
  timers : list (string * Z);      (* pending reload timeouts: weapon, delay *)
  alerts : list string;            (* alert() calls, latest first *)
  frames : nat                     (* pending requestAnimationFrame(update) *)
}.

Arguments mkState {F}.
Arguments gameStarted {F}.
Arguments gameOver {F}.
Arguments score {F}.
Arguments coins {F}.
Arguments level {F}.
Arguments enemiesToSpawn {F}.
Arguments player {F}.
Arguments bullets {F}.
Arguments enemies {F}.
Arguments particles {F}.
Arguments pickups {F}.
Arguments weapons {F}.
Arguments currentWeaponKey {F}.
Arguments lastShotAt {F}.
Arguments reloading {F}.
Arguments keys {F}.
Arguments mouse {F}.
Arguments mouseDown {F}.
Arguments lastT {F}.
Arguments pickupSpawnTimer {F}.
Arguments randomCalls {F}.
Arguments sfxLog {F}.
Arguments timers {F}.
Arguments alerts {F}.
Arguments frames {F}.

(** Assignments to one global. *)

Section Setters.
Context {F : Type}.

Definition set_gameStarted (v : bool) (s : State F) : State F :=
  mkState v (gameOver s) (score s) (coins s) (level s) (enemiesToSpawn s)
    (player s) (bullets s) (enemies s) (particles s) (pickups s) (weapons s)
    (currentWeaponKey s) (lastShotAt s) (reloading s) (keys s) (mouse s)
    (mouseDown s) (lastT s) (pickupSpawnTimer s) (randomCalls s) (sfxLog s)
    (timers s) (alerts s) (frames s).
Definition set_gameOver (v : bool) (s : State F) : State F :=
  mkState (gameStarted s) v (score s) (coins s) (level s) (enemiesToSpawn s)
    (player s) (bullets s) (enemies s) (particles s) (pickups s) (weapons s)
    (currentWeaponKey s) (lastShotAt s) (reloading s) (keys s) (mouse s)
    (mouseDown s) (lastT s) (pickupSpawnTimer s) (randomCalls s) (sfxLog s)
    (timers s) (alerts s) (frames s).
Definition set_score (v : Z) (s : State F) : State F :=
  mkState (gameStarted s) (gameOver s) v (coins s) (level s) (enemiesToSpawn
    s) (player s) (bullets s) (enemies s) (particles s) (pickups s) (weapons
    s) (currentWeaponKey s) (lastShotAt s) (reloading s) (keys s) (mouse s)
    (mouseDown s) (lastT s) (pickupSpawnTimer s) (randomCalls s) (sfxLog s)
    (timers s) (alerts s) (frames s).
Definition set_coins (v : Z) (s : State F) : State F :=
  mkState (gameStarted s) (gameOver s) (score s) v (level s) (enemiesToSpawn
    s) (player s) (bullets s) (enemies s) (particles s) (pickups s) (weapons
    s) (currentWeaponKey s) (lastShotAt s) (reloading s) (keys s) (mouse s)
    (mouseDown s) (lastT s) (pickupSpawnTimer s) (randomCalls s) (sfxLog s)
    (timers s) (alerts s) (frames s).
Definition set_level (v : Z) (s : State F) : State F :=
  mkState (gameStarted s) (gameOver s) (score s) (coins s) v (enemiesToSpawn
    s) (player s) (bullets s) (enemies s) (particles s) (pickups s) (weapons
    s) (currentWeaponKey s) (lastShotAt s) (reloading s) (keys s) (mouse s)
    (mouseDown s) (lastT s) (pickupSpawnTimer s) (randomCalls s) (sfxLog s)
    (timers s) (alerts s) (frames s).
Definition set_enemiesToSpawn (v : Z) (s : State F) : State F :=
  mkState (gameStarted s) (gameOver s) (score s) (coins s) (level s) v
    (player s) (bullets s) (enemies s) (particles s) (pickups s) (weapons s)
    (currentWeaponKey s) (lastShotAt s) (reloading s) (keys s) (mouse s)
    (mouseDown s) (lastT s) (pickupSpawnTimer s) (randomCalls s) (sfxLog s)
    (timers s) (alerts s) (frames s).
Definition set_player (v : Player F) (s : State F) : State F :=
  mkState (gameStarted s) (gameOver s) (score s) (coins s) (level s)
    (enemiesToSpawn s) v (bullets s) (enemies s) (particles s) (pickups s)
    (weapons s) (currentWeaponKey s) (lastShotAt s) (reloading s) (keys s)
    (mouse s) (mouseDown s) (lastT s) (pickupSpawnTimer s) (randomCalls s)
    (sfxLog s) (timers s) (alerts s) (frames s).
Definition set_bullets (v : list (Bullet F)) (s : State F) : State F :=
  mkState (gameStarted s) (gameOver s) (score s) (coins s) (level s)
    (enemiesToSpawn s) (player s) v (enemies s) (particles s) (pickups s)
    (weapons s) (currentWeaponKey s) (lastShotAt s) (reloading s) (keys s)
    (mouse s) (mouseDown s) (lastT s) (pickupSpawnTimer s) (randomCalls s)
    (sfxLog s) (timers s) (alerts s) (frames s).
Definition set_enemies (v : list (Enemy F)) (s : State F) : State F :=
  mkState (gameStarted s) (gameOver s) (score s) (coins s) (level s)
    (enemiesToSpawn s) (player s) (bullets s) v (particles s) (pickups s)
    (weapons s) (currentWeaponKey s) (lastShotAt s) (reloading s) (keys s)
    (mouse s) (mouseDown s) (lastT s) (pickupSpawnTimer s) (randomCalls s)
    (sfxLog s) (timers s) (alerts s) (frames s).
Definition set_particles (v : list (Particle F)) (s : State F) : State F :=
  mkState (gameStarted s) (gameOver s) (score s) (coins s) (level s)
    (enemiesToSpawn s) (player s) (bullets s) (enemies s) v (pickups s)
    (weapons s) (currentWeaponKey s) (lastShotAt s) (reloading s) (keys s)
    (mouse s) (mouseDown s) (lastT s) (pickupSpawnTimer s) (randomCalls s)
    (sfxLog s) (timers s) (alerts s) (frames s).
Definition set_pickups (v : list (Pickup F)) (s : State F) : State F :=
  mkState (gameStarted s) (gameOver s) (score s) (coins s) (level s)
    (enemiesToSpawn s) (player s) (bullets s) (enemies s) (particles s) v
    (weapons s) (currentWeaponKey s) (lastShotAt s) (reloading s) (keys s)
    (mouse s) (mouseDown s) (lastT s) (pickupSpawnTimer s) (randomCalls s)
    (sfxLog s) (timers s) (alerts s) (frames s).
Definition set_weapons (v : gmap string (Weapon F)) (s : State F) : State F :=
  mkState (gameStarted s) (gameOver s) (score s) (coins s) (level s)
    (enemiesToSpawn s) (player s) (bullets s) (enemies s) (particles s)
    (pickups s) v (currentWeaponKey s) (lastShotAt s) (reloading s) (keys s)
    (mouse s) (mouseDown s) (lastT s) (pickupSpawnTimer s) (randomCalls s)
    (sfxLog s) (timers s) (alerts s) (frames s).
Definition set_currentWeaponKey (v : string) (s : State F) : State F :=
  mkState (gameStarted s) (gameOver s) (score s) (coins s) (level s)
    (enemiesToSpawn s) (player s) (bullets s) (enemies s) (particles s)
    (pickups s) (weapons s) v (lastShotAt s) (reloading s) (keys s) (mouse
    s) (mouseDown s) (lastT s) (pickupSpawnTimer s) (randomCalls s) (sfxLog
    s) (timers s) (alerts s) (frames s).
Definition set_lastShotAt (v : Z) (s : State F) : State F :=
  mkState (gameStarted s) (gameOver s) (score s) (coins s) (level s)
    (enemiesToSpawn s) (player s) (bullets s) (enemies s) (particles s)
    (pickups s) (weapons s) (currentWeaponKey s) v (reloading s) (keys s)
    (mouse s) (mouseDown s) (lastT s) (pickupSpawnTimer s) (randomCalls s)
    (sfxLog s) (timers s) (alerts s) (frames s).
Definition set_reloading (v : bool) (s : State F) : State F :=
  mkState (gameStarted s) (gameOver s) (score s) (coins s) (level s)
    (enemiesToSpawn s) (player s) (bullets s) (enemies s) (particles s)
    (pickups s) (weapons s) (currentWeaponKey s) (lastShotAt s) v (keys s)
    (mouse s) (mouseDown s) (lastT s) (pickupSpawnTimer s) (randomCalls s)
    (sfxLog s) (timers s) (alerts s) (frames s).
Definition set_keys (v : gmap string bool) (s : State F) : State F :=
  mkState (gameStarted s) (gameOver s) (score s) (coins s) (level s)
    (enemiesToSpawn s) (player s) (bullets s) (enemies s) (particles s)
    (pickups s) (weapons s) (currentWeaponKey s) (lastShotAt s) (reloading
    s) v (mouse s) (mouseDown s) (lastT s) (pickupSpawnTimer s) (randomCalls
    s) (sfxLog s) (timers s) (alerts s) (frames s).
Definition set_mouse (v : F * F) (s : State F) : State F :=
  mkState (gameStarted s) (gameOver s) (score s) (coins s) (level s)
    (enemiesToSpawn s) (player s) (bullets s) (enemies s) (particles s)
    (pickups s) (weapons s) (currentWeaponKey s) (lastShotAt s) (reloading
    s) (keys s) v (mouseDown s) (lastT s) (pickupSpawnTimer s) (randomCalls
    s) (sfxLog s) (timers s) (alerts s) (frames s).
Definition set_mouseDown (v : bool) (s : State F) : State F :=
  mkState (gameStarted s) (gameOver s) (score s) (coins s) (level s)
    (enemiesToSpawn s) (player s) (bullets s) (enemies s) (particles s)
    (pickups s) (weapons s) (currentWeaponKey s) (lastShotAt s) (reloading
    s) (keys s) (mouse s) v (lastT s) (pickupSpawnTimer s) (randomCalls s)
    (sfxLog s) (timers s) (alerts s) (frames s).
Definition set_lastT (v : F) (s : State F) : State F :=
  mkState (gameStarted s) (gameOver s) (score s) (coins s) (level s)
    (enemiesToSpawn s) (player s) (bullets s) (enemies s) (particles s)
    (pickups s) (weapons s) (currentWeaponKey s) (lastShotAt s) (reloading
    s) (keys s) (mouse s) (mouseDown s) v (pickupSpawnTimer s) (randomCalls
    s) (sfxLog s) (timers s) (alerts s) (frames s).
Definition set_pickupSpawnTimer (v : F) (s : State F) : State F :=
  mkState (gameStarted s) (gameOver s) (score s) (coins s) (level s)
    (enemiesToSpawn s) (player s) (bullets s) (enemies s) (particles s)
    (pickups s) (weapons s) (currentWeaponKey s) (lastShotAt s) (reloading
    s) (keys s) (mouse s) (mouseDown s) (lastT s) v (randomCalls s) (sfxLog
    s) (timers s) (alerts s) (frames s).
Definition set_randomCalls (v : nat) (s : State F) : State F :=
  mkState (gameStarted s) (gameOver s) (score s) (coins s) (level s)
    (enemiesToSpawn s) (player s) (bullets s) (enemies s) (particles s)
    (pickups s) (weapons s) (currentWeaponKey s) (lastShotAt s) (reloading
    s) (keys s) (mouse s) (mouseDown s) (lastT s) (pickupSpawnTimer s) v
    (sfxLog s) (timers s) (alerts s) (frames s).
Definition set_sfxLog (v : list string) (s : State F) : State F :=
  mkState (gameStarted s) (gameOver s) (score s) (coins s) (level s)
    (enemiesToSpawn s) (player s) (bullets s) (enemies s) (particles s)
    (pickups s) (weapons s) (currentWeaponKey s) (lastShotAt s) (reloading
    s) (keys s) (mouse s) (mouseDown s) (lastT s) (pickupSpawnTimer s)
    (randomCalls s) v (timers s) (alerts s) (frames s).
Definition set_timers (v : list (string * Z)) (s : State F) : State F :=
  mkState (gameStarted s) (gameOver s) (score s) (coins s) (level s)
    (enemiesToSpawn s) (player s) (bullets s) (enemies s) (particles s)
    (pickups s) (weapons s) (currentWeaponKey s) (lastShotAt s) (reloading
    s) (keys s) (mouse s) (mouseDown s) (lastT s) (pickupSpawnTimer s)
    (randomCalls s) (sfxLog s) v (alerts s) (frames s).
Definition set_alerts (v : list string) (s : State F) : State F :=
  mkState (gameStarted s) (gameOver s) (score s) (coins s) (level s)
    (enemiesToSpawn s) (player s) (bullets s) (enemies s) (particles s)
    (pickups s) (weapons s) (currentWeaponKey s) (lastShotAt s) (reloading
    s) (keys s) (mouse s) (mouseDown s) (lastT s) (pickupSpawnTimer s)
    (randomCalls s) (sfxLog s) (timers s) v (frames s).
Definition set_frames (v : nat) (s : State F) : State F :=
  mkState (gameStarted s) (gameOver s) (score s) (coins s) (level s)
    (enemiesToSpawn s) (player s) (bullets s) (enemies s) (particles s)
    (pickups s) (weapons s) (currentWeaponKey s) (lastShotAt s) (reloading
    s) (keys s) (mouse s) (mouseDown s) (lastT s) (pickupSpawnTimer s)
    (randomCalls s) (sfxLog s) (timers s) (alerts s) v.

End Setters.

Section WeaponSetters.
Context {F : Type}.

Definition set_ammo (v : Z) (w : Weapon F) : Weapon F :=
  mkWeapon (w_name w) v (maxAmmo w) (damage w) (fireRate w) (reload w)
    (wtype w) (pellets w) (spread w) (owned w) (price w).
Definition set_owned (v : bool) (w : Weapon F) : Weapon F :=
  mkWeapon (w_name w) (ammo w) (maxAmmo w) (damage w) (fireRate w) (reload w)
    (wtype w) (pellets w) (spread w) v (price w).
Definition set_p_hp (v : Z) (p : Player F) : Player F :=
  mkPlayer (p_x p) (p_y p) (p_r p) (p_speed p) (p_maxHp p) v.
Definition set_p_pos (x y : F) (p : Player F) : Player F :=
  mkPlayer x y (p_r p) (p_speed p) (p_maxHp p) (p_hp p).
Definition set_e_hp (v : Z) (e : Enemy F) : Enemy F :=
  mkEnemy (e_x e) (e_y e) (e_r e) (e_speed e) v (e_type e) (e_color e)
    (e_lastSpit e).
Definition set_e_pos (x y : F) (e : Enemy F) : Enemy F :=
  mkEnemy x y (e_r e) (e_speed e) (e_hp e) (e_type e) (e_color e)
    (e_lastSpit e).
Definition set_e_lastSpit (v : Z) (e : Enemy F) : Enemy F :=
  mkEnemy (e_x e) (e_y e) (e_r e) (e_speed e) (e_hp e) (e_type e) (e_color e)
    v.
Definition set_b_pos (x y : F) (b : Bullet F) : Bullet F :=
  mkBullet x y (b_vx b) (b_vy b) (b_r b) (b_dmg b) (b_from b) (b_rocket b).
Definition set_pt_motion (x y age : F) (p : Particle F) : Particle F :=
  mkParticle x y (pt_dx p) (pt_dy p) (pt_life p) age (pt_color p) (pt_r p).
Definition set_pk_age (v : F) (pk : Pickup F) : Pickup F :=
  mkPickup (pk_x pk) (pk_y pk) (pk_type pk) (pk_val pk) v.

End WeaponSetters.

(** ** Control flow

    A handler either returns or dies on a [TypeError]; in both cases the
    globals keep what was written to them. *)

Inductive outcome (St : Type) := Done (s : St) | Thrown (s : St).
Arguments Done {St}. Arguments Thrown {St}.

Definition andThen {St} (o : outcome St) (k : St -> outcome St) : outcome St :=
  match o with Done s => k s | Thrown s => Thrown s end.
Notation "s <- o ;; k" := (andThen o (fun s => k))
  (at level 100, o at next level, right associativity).

Definition final {St} (o : outcome St) : St :=
  match o with Done s => s | Thrown s => s end.

(** What one turn of a loop body asks for. *)
Inductive flow (St : Type) := Continue (s : St) | Break (s : St) | Raise (s : St).
Arguments Continue {St}. Arguments Break {St}. Arguments Raise {St}.

Definition lift {St} (o : outcome St) : flow St :=
  match o with Done s => Continue s | Thrown s => Raise s end.

(** [for (let i = n-1; i >= 0; i--) body] *)
Fixpoint forDown {St} (body : nat -> St -> flow St) (n : nat) (s : St) : outcome St :=
  match n with
  | O => Done s
  | S i =>
      match body i s with
      | Continue s' => forDown body i s'
      | Break s' => Done s'
      | Raise s' => Thrown s'
      end
  end.

(** [for (let i = 0; i < n; i++) body], for bodies that cannot fail; [i]
    is the first index still to run. *)
Fixpoint forUp {St} (body : nat -> St -> St) (i n : nat) (s : St) : St :=
  match n with
  | O => s
  | S n' => forUp body (S i) n' (body i s)
  end.

(** ** The script *)

(** What the page and the browser supply. *)
Class Page (F : Type) := {
  W : F;                          (* canvas.width *)
  H : F;                          (* canvas.height *)
  random : nat -> F               (* the successive values of Math.random() *)
}.

Section Game.
Context {F : Type} {Fl : Float F} {Pg : Page F}.

Abbreviation St := (State F).

(** *** Utilities *)

Definition Math_random (s : St) : F * St :=
  (random (randomCalls s), set_randomCalls (S (randomCalls s)) s).

Definition rand (a b : F) (s : St) : F * St :=
  let '(r, s) := Math_random s in ((r * (b - a) + a)%F, s).

Definition clamp (v a b : F) : F := fmax a (fmin b v).

Definition requestFrame (s : St) : St := set_frames (S (frames s)) s.

(** *** Map / walls *)

Definition walls : list (Wall F) :=
  [ mkWall (num 200) (num 140) (num 160) (num 14);
    mkWall (num 520) (num 300) (num 16) (num 180);
    mkWall (num 360) (num 420) (num 220) (num 14) ].

(** *** Player *)

Definition createPlayer (s : St) : St :=
  set_player (mkPlayer (W / num 2)%F (H / num 2)%F (num 16) (num 200) 100 100) s.

(** *** Weapons *)

Definition weapons0 : gmap string (Weapon F) :=
  <["pistol"  := mkWeapon "Pistol"  12 12 1 220  800  bullet None None true 0]>
 (<["smg"     := mkWeapon "SMG"     30 30 1 80   1000 bullet None None true 50]>
 (<["machine" := mkWeapon "Machine" 60 60 1 45   1400 bullet None None true 120]>
 (<["shotgun" := mkWeapon "Shotgun" 8  8  1 600  1600 shot (Some 7) (Some (num 0.6)) true 100]>
 (<["sniper"  := mkWeapon "Sniper"  5  5  8 900  1800 bullet None None true 150]>
 (<["rocket"  := mkWeapon "Rocket"  2  2  6 1000 2200 rocket None None true 250]>
  ∅))))).

Record ShopItem := mkShopItem { it_key : string; it_label : string; it_price : Z }.

Definition shopItems : list ShopItem :=
  [ mkShopItem "smg" "SMG" 50;
    mkShopItem "machine" "Machine Gun" 120;
    mkShopItem "shotgun" "Shotgun" 100;
    mkShopItem "sniper" "Sniper" 150;
    mkShopItem "rocket" "Rocket Launcher" 250 ].

(** *** Particles, pickups, sound *)

Definition playSfx (name : string) (s : St) : St :=
  set_sfxLog (name :: sfxLog s) s.

Definition spawnParticle (x y dx dy life : F) (color : string) (r : F) (s : St) : St :=
  set_particles (particles s ++ [mkParticle x y dx dy life (num 0) color r]) s.

Definition spawnBlood (x y : F) (n : nat) (s : St) : St :=
  forUp (fun _ s =>
    let '(dx, s) := rand (num (-120)) (num 120) s in
    let '(dy, s) := rand (num (-120)) (num 120) s in
    let '(life, s) := rand (num 500) (num 900) s in
    let '(r, s) := rand (num 1.5) (num 3.5) s in
    spawnParticle x y dx dy life "#b91c1c" r s) 0 n s.

Definition spawnMuzzle (x y angle : F) (s : St) : St :=
  forUp (fun _ s =>
    let '(sp, s) := rand (num 120) (num 260) s in
    let '(a1, s) := rand (num (-0.6)) (num 0.6) s in
    let '(a2, s) := rand (num (-0.6)) (num 0.6) s in
    let '(life, s) := rand (num 120) (num 260) s in
    let '(r, s) := rand (num 2) (num 4) s in
    spawnParticle x y (fcos (angle + a1) * sp)%F (fsin (angle + a2) * sp)%F
      life "#f59e0b" r s) 0 4 s.

Definition spawnPickup (x y : F) (type : PickupType) (val : Z) (s : St) : St :=
  set_pickups (pickups s ++ [mkPickup x y type val (num 0)]) s.

(** *** Shooting and reload *)

(* setTimeout(() => { w.ammo = w.maxAmmo; reloading = false; }, w.reload) *)
Definition setReloadTimeout (key : string) (w : Weapon F) (s : St) : St :=
  set_timers (timers s ++ [(key, reload w)]) s.

Definition autoReload (s : St) : St :=
  if reloading s then s else
  let s := set_reloading true s in
  match weapons s !! currentWeaponKey s with
  | None => set_reloading false s
  | Some w => setReloadTimeout (currentWeaponKey s) w s
  end.

Definition startReload (s : St) : St :=
  if reloading s then s else
  match weapons s !! currentWeaponKey s with
  | None => s
  | Some w =>
      if maxAmmo w <=? ammo w then s else
      let s := set_reloading true s in
      let s := playSfx "reload" s in
      setReloadTimeout (currentWeaponKey s) w s
  end.

(* the body of the timeout, for the weapon object it closed over *)
Definition reloadDone (key : string) (s : St) : St :=
  let s :=
    match weapons s !! key with
    | Some w => set_weapons (<[key := set_ammo (maxAmmo w) w]> (weapons s)) s
    | None => s
    end in
  set_reloading false s.

(* the i-th pending timeout comes due *)
Definition timerFires (i : nat) (s : St) : St :=
  match timers s !! i with
  | None => s
  | Some (key, _) => reloadDone key (set_timers (delete i (timers s)) s)
  end.

Definition pelletCount (w : Weapon F) : Z :=        (* w.pellets || 6 *)
  match pellets w with
  | Some n => if n =? 0 then 6 else n
  | None => 6
  end.

Definition spreadOf (w : Weapon F) : F :=           (* w.spread || 0.6 *)
  match spread w with
  | Some x => orElse x (num 0.6)
  | None => num 0.6
  end.

(* the projectiles of one shot, by weapon type *)
Definition emitProjectiles (w : Weapon F) (angle : F) (s : St) : St :=
  let px := p_x (player s) in
  let py := p_y (player s) in
  match wtype w with
  | bullet =>
      set_bullets (bullets s ++
        [mkBullet (px + fcos angle * num 18)%F (py + fsin angle * num 18)%F
           (fcos angle * num 700)%F (fsin angle * num 700)%F (num 4)
           (damage w) fromPlayer false]) s
  | shot =>
      let sp := spreadOf w in
      forUp (fun _ s =>
        let '(r, s) := rand (fneg sp) sp s in
        let a := (angle + r)%F in
        set_bullets (bullets s ++
          [mkBullet (px + fcos a * num 18)%F (py + fsin a * num 18)%F
             (fcos a * num 650)%F (fsin a * num 650)%F (num 3)
             (damage w) fromPlayer false]) s)
        0 (Z.to_nat (pelletCount w)) s
  | rocket =>
      set_bullets (bullets s ++
        [mkBullet (px + fcos angle * num 18)%F (py + fsin angle * num 18)%F
           (fcos angle * num 320)%F (fsin angle * num 320)%F (num 6)
           (damage w * 2) fromPlayer true]) s
  end.

Definition shootAtMouse (now : Z) (s : St) : St :=
  if negb (gameStarted s) || gameOver s then s else
  match weapons s !! currentWeaponKey s with
  | None => s
  | Some w =>
    if negb (owned w) then s else
    if reloading s then s else
    if ammo w <=? 0 then autoReload s else
    if now - lastShotAt s <? fireRate w then s else
    let s := set_lastShotAt now s in
    let w := set_ammo (ammo w - 1) w in
    let s := set_weapons (<[currentWeaponKey s := w]> (weapons s)) s in
    let px := p_x (player s) in
    let py := p_y (player s) in
    let angle := atan2 (snd (mouse s) - py)%F (fst (mouse s) - px)%F in
    let s := emitProjectiles w angle s in
    let s := spawnMuzzle (px + fcos angle * num 18)%F (py + fsin angle * num 18)%F angle s in
    let s := playSfx "shoot" s in
    if ammo w <=? 0 then autoReload s else s
  end.

(** *** Enemies *)

Definition spawnEnemy (type : EnemyType) (s : St) : St :=
  let '(r0, s) := rand (num 0) (num 4) s in
  let side := ffloor r0 in
  let '(x, y, s) :=
    if side =? 0 then let '(r, s) := rand (num 0) H s in (num (-30), r, s)
    else if side =? 1 then let '(r, s) := rand (num 0) H s in ((W + num 30)%F, r, s)
    else if side =? 2 then let '(r, s) := rand (num 0) W s in (r, num (-30), s)
    else if side =? 3 then let '(r, s) := rand (num 0) W s in (r, (H + num 30)%F, s)
    else (num 0, num 0, s) in
  let e :=
    match type with
    | fast => mkEnemy x y (num 14) (num 120) 1 fast "#f97316" 0
    | tank => mkEnemy x y (num 26) (num 36) (4 + level s / 2) tank "#14532d" 0
    | spitter => mkEnemy x y (num 18) (num 45) 2 spitter "#7c3aed" 0
    | bomber => mkEnemy x y (num 16) (num 40) 1 bomber "#dc2626" 0
    | boss => mkEnemy x y (num 48) (num 25) (20 + level s * 4) boss "#7f1d1d" 0
    | normal => mkEnemy x y (num 18) (ofZ (50 + (level s - 1) * 3))
                  (1 + level s / 4) normal "#16a34a" 0
    end in
  set_enemies (enemies s ++ [e]) s.

(* Math.floor(level * 1.2): the product by the decimal constant is taken
   exactly, which is what the double product floors to for every level a
   game can reach *)
Definition waveCount (s : St) : Z := enemiesToSpawn s + (level s * 12) / 10.

Definition spawnWaveBody (i : nat) (s : St) : St :=
  if (Z.rem (level s) 5 =? 0) && (Nat.eqb i 0) then spawnEnemy boss s
  else
    let '(r, s) := Math_random s in
    if (r <? num 0.55)%F then spawnEnemy normal s
    else if (r <? num 0.75)%F then spawnEnemy fast s
    else if (r <? num 0.88)%F then spawnEnemy spitter s
    else spawnEnemy tank s.

Definition spawnWave (s : St) : St :=
  let s := set_enemies [] s in
  forUp spawnWaveBody 0 (Z.to_nat (waveCount s)) s.

(** *** Collisions *)

Definition circleRectCollision (cx cy cr rx ry rw rh : F) : bool :=
  let closestX := clamp cx rx (rx + rw)%F in
  let closestY := clamp cy ry (ry + rh)%F in
  let dx := (cx - closestX)%F in
  let dy := (cy - closestY)%F in
  (dx * dx + dy * dy <? cr * cr)%F.

(** *** Explosion *)

Definition explodeBody (x y radius : F) (i : nat) (s : St) : flow St :=
  match enemies s !! i with
  | None => Raise s
  | Some e =>
      if (hypot (e_x e - x) (e_y e - y) <? radius + e_r e)%F then
        let e := set_e_hp (e_hp e - (3 + level s)) e in
        let s := set_enemies (<[i := e]> (enemies s)) s in
        if e_hp e <=? 0 then
          let '(r, s) := Math_random s in
          let s := spawnPickup (e_x e) (e_y e) coin (3 + ffloor (r * num 5)%F) s in
          Continue (set_enemies (delete i (enemies s)) s)
        else Continue s
      else Continue s
  end.

Definition explosionBurst (x y : F) (s : St) : St :=
  forUp (fun _ s =>
    let '(dx, s) := rand (num (-300)) (num 300) s in
    let '(dy, s) := rand (num (-300)) (num 300) s in
    let '(life, s) := rand (num 400) (num 900) s in
    let '(r, s) := rand (num 2) (num 5) s in
    spawnParticle x y dx dy life "#fb923c" r s) 0 40 s.

Definition explode (x y scale : F) (s : St) : outcome St :=
  let s := explosionBurst x y s in
  let radius := (num 60 * scale)%F in
  s <- forDown (explodeBody x y radius) (length (enemies s)) s ;;
  Done (playSfx "explosion" s).

(** *** Update loop *)

Definition held (k : string) (s : St) : bool := default false (keys s !! k).

Definition movePlayer (dt : F) (s : St) : St :=
  let vx := num 0 in
  let vy := num 0 in
  let vy := if held "w" s || held "arrowup" s then (vy - num 1)%F else vy in
  let vy := if held "s" s || held "arrowdown" s then (vy + num 1)%F else vy in
  let vx := if held "a" s || held "arrowleft" s then (vx - num 1)%F else vx in
  let vx := if held "d" s || held "arrowright" s then (vx + num 1)%F else vx in
  let mag := orElse (hypot vx vy) (num 1) in
  let p := player s in
  let x := (p_x p + vx / mag * p_speed p * dt)%F in
  let y := (p_y p + vy / mag * p_speed p * dt)%F in
  (* clamp inside canvas *)
  let x := clamp x (p_r p) (W - p_r p)%F in
  let y := clamp y (p_r p) (H - p_r p)%F in
  set_player (set_p_pos x y p) s.

(* avoid walls (simple push-back) *)
Definition avoidWall (p : Player F) (w : Wall F) : Player F :=
  if circleRectCollision (p_x p) (p_y p) (p_r p) (wl_x w) (wl_y w) (wl_w w) (wl_h w)
  then
    let x :=
      if (p_x p <? wl_x w)%F then (wl_x w - p_r p - num 1)%F
      else if (p_x p >? wl_x w + wl_w w)%F then (wl_x w + wl_w w + p_r p + num 1)%F
      else p_x p in
    let y :=
      if (p_y p <? wl_y w)%F then (wl_y w - p_r p - num 1)%F
      else if (p_y p >? wl_y w + wl_h w)%F then (wl_y w + wl_h w + p_r p + num 1)%F
      else p_y p in
    set_p_pos x y p
  else p.

Definition avoidWalls (s : St) : St :=
  set_player (foldl avoidWall (player s) walls) s.

(* update bullets *)
Definition updateBulletsBody (dt : F) (i : nat) (s : St) : flow St :=
  match bullets s !! i with
  | None => Raise s
  | Some b =>
      let b := set_b_pos (b_x b + b_vx b * dt)%F (b_y b + b_vy b * dt)%F b in
      let s := set_bullets (<[i := b]> (bullets s)) s in
      let hitWall :=
        existsb (fun w => circleRectCollision (b_x b) (b_y b) (b_r b)
                            (wl_x w) (wl_y w) (wl_w w) (wl_h w)) walls in
      if hitWall then
        match (if b_rocket b then explode (b_x b) (b_y b) (num 1.2) s else Done s) with
        | Thrown s => Raise s
        | Done s => Continue (set_bullets (delete i (bullets s)) s)
        end
      else if (b_x b <? num (-40))%F || (b_x b >? W + num 40)%F
              || (b_y b <? num (-40))%F || (b_y b >? H + num 40)%F
      then Continue (set_bullets (delete i (bullets s)) s)
      else Continue s
  end.

Definition updateBullets (dt : F) (s : St) : outcome St :=
  forDown (updateBulletsBody dt) (length (bullets s)) s.

(* update enemies *)
Definition spits (now : Z) (e : Enemy F) : bool :=
  bool_decide (e_type e = spitter) && (1400 <? now - e_lastSpit e).

(* movement toward player *)
Definition chase (dt : F) (p : Player F) (e : Enemy F) : Enemy F :=
  let dx := (p_x p - e_x e)%F in
  let dy := (p_y p - e_y e)%F in
  let len := orElse (hypot dx dy) (num 1) in
  set_e_pos (e_x e + dx / len * e_speed e * dt)%F
            (e_y e + dy / len * e_speed e * dt)%F e.

(* collision with player *)
Definition touches (p : Player F) (e : Enemy F) : bool :=
  (hypot (e_x e - p_x p) (e_y e - p_y p) <? e_r e + p_r p)%F.

Definition contactDamage (e : Enemy F) : Z :=
  if bool_decide (e_type e = tank) then 12 else 6.

Definition updateEnemiesBody (dt : F) (now : Z) (i : nat) (s : St) : flow St :=
  match enemies s !! i with
  | None => Raise s
  | Some e =>
      let p := player s in
      (* spitter attack *)
      let '(e, s) :=
        if spits now e then
          let a := atan2 (p_y p - e_y e)%F (p_x p - e_x e)%F in
          let s := set_bullets (bullets s ++
                     [mkBullet (e_x e) (e_y e) (fcos a * num 220)%F (fsin a * num 220)%F
                        (num 5) 1 fromEnemy false]) s in
          (set_e_lastSpit now e, s)
        else (e, s) in
      let e := chase dt p e in
      let s := set_enemies (<[i := e]> (enemies s)) s in
      if touches p e then
        let s := set_player (set_p_hp (p_hp p - contactDamage e) p) s in
        let '(bx, s) := rand (num (-6)) (num 6) s in
        let '(by_, s) := rand (num (-6)) (num 6) s in
        let s := spawnBlood (p_x p + bx)%F (p_y p + by_)%F 8 s in
        match (if bool_decide (e_type e = bomber)
               then explode (e_x e) (e_y e) (num 1.0) s else Done s) with
        | Thrown s => Raise s
        | Done s =>
            let s := set_enemies (delete i (enemies s)) s in
            let s := playSfx "zombieDeath" s in
            let '(r, s) := Math_random s in
            if (r <? num 0.5)%F then
              let '(r2, s) := Math_random s in
              Continue (spawnPickup (p_x p) (p_y p) coin (1 + ffloor (r2 * num 3)%F) s)
            else Continue s
        end
      else Continue s
  end.

Definition updateEnemies (dt : F) (now : Z) (s : St) : outcome St :=
  forDown (updateEnemiesBody dt now) (length (enemies s)) s.

(* bullets hitting enemies *)
Definition overlaps (e : Enemy F) (b : Bullet F) : bool :=
  (hypot (e_x e - b_x b) (e_y e - b_y b) <? e_r e + b_r b)%F.

(* the scan of the bullets for the enemy [e] read from slot [i] *)
Definition hitScanBody (i : nat) (e : Enemy F) (j : nat) (s : St) : flow St :=
  match bullets s !! j with
  | None => Raise s
  | Some b =>
      if negb (bool_decide (b_from b = fromPlayer)) then Continue s else
      if overlaps e b then
        let e := set_e_hp (e_hp e - b_dmg b) e in
        let s := set_enemies (<[i := e]> (enemies s)) s in
        let s := spawnBlood (b_x b) (b_y b) 4 s in
        let s := set_bullets (delete j (bullets s)) s in
        if e_hp e <=? 0 then
          (* enemy died *)
          let '(coinGain, s) :=
            if bool_decide (e_type e = boss) then (50, s)
            else if bool_decide (e_type e = tank) then (8, s)
            else let '(r, s) := Math_random s in (3 + ffloor (r * num 3)%F, s) in
          let s := set_coins (coins s + coinGain) s in
          let s := set_score (score s + (if bool_decide (e_type e = boss) then 200 else 10)) s in
          let s := spawnPickup (e_x e) (e_y e) coin coinGain s in
          match (if bool_decide (e_type e = bomber)
                 then explode (e_x e) (e_y e) (num 1.0) s else Done s) with
          | Thrown s => Raise s
          | Done s =>
              let s := set_enemies (delete i (enemies s)) s in
              Break (playSfx "zombieDeath" s)
          end
        else Break s
      else Continue s
  end.

Definition bulletsHitEnemiesBody (i : nat) (s : St) : flow St :=
  match enemies s !! i with
  | None => Raise s
  | Some e => lift (forDown (hitScanBody i e) (length (bullets s)) s)
  end.

Definition bulletsHitEnemies (s : St) : outcome St :=
  forDown bulletsHitEnemiesBody (length (enemies s)) s.

(* bullets hitting player (enemy projectiles) *)
Definition bulletsHitPlayerBody (i : nat) (s : St) : flow St :=
  match bullets s !! i with
  | None => Raise s
  | Some b =>
      let p := player s in
      if bool_decide (b_from b = fromEnemy)
         && (hypot (b_x b - p_x p) (b_y b - p_y p) <? b_r b + p_r p)%F
      then
        let s := set_player (set_p_hp (p_hp p - 8) p) s in
        let s := spawnBlood (p_x p) (p_y p) 6 s in
        Continue (set_bullets (delete i (bullets s)) s)
      else Continue s
  end.

Definition bulletsHitPlayer (s : St) : outcome St :=
  forDown bulletsHitPlayerBody (length (bullets s)) s.

(* update particles *)
Definition updateParticlesBody (dt : F) (i : nat) (s : St) : flow St :=
  match particles s !! i with
  | None => Raise s
  | Some p =>
      let p := set_pt_motion (pt_x p + pt_dx p * dt)%F (pt_y p + pt_dy p * dt)%F
                 (pt_age p + dt * num 1000)%F p in
      let s := set_particles (<[i := p]> (particles s)) s in
      if (pt_age p >? pt_life p)%F
      then Continue (set_particles (delete i (particles s)) s)
      else Continue s
  end.

Definition updateParticles (dt : F) (s : St) : outcome St :=
  forDown (updateParticlesBody dt) (length (particles s)) s.

(* pickups *)
Definition collectPickupsBody (dt : F) (i : nat) (s : St) : flow St :=
  match pickups s !! i with
  | None => Raise s
  | Some pk =>
      let pk := set_pk_age (orElse (pk_age pk) (num 0) + dt * num 1000)%F pk in
      let s := set_pickups (<[i := pk]> (pickups s)) s in
      let p := player s in
      if (hypot (pk_x pk - p_x p) (pk_y pk - p_y p) <? num 20)%F then
        let s := if bool_decide (pk_type pk = coin)
                 then set_coins (coins s + pk_val pk) s else s in
        let s :=
          if bool_decide (pk_type pk = ammoBox) then
            match weapons s !! currentWeaponKey s with
            | Some w =>
                set_weapons (<[currentWeaponKey s :=
                               set_ammo (Z.min (maxAmmo w) (ammo w + 8)) w]> (weapons s)) s
            | None => s
            end
          else s in
        Continue (set_pickups (delete i (pickups s)) s)
      else Continue s
  end.

Definition collectPickups (dt : F) (s : St) : outcome St :=
  forDown (collectPickupsBody dt) (length (pickups s)) s.

(* spawn periodic pickups *)
Definition spawnPeriodicPickups (dt : F) (s : St) : St :=
  let s := set_pickupSpawnTimer (pickupSpawnTimer s + dt)%F s in
  if (pickupSpawnTimer s >? num 6)%F then
    let '(r, s) := Math_random s in
    let s :=
      if (r <? num 0.6)%F then
        let '(x, s) := rand (num 60) (W - num 60)%F s in
        let '(y, s) := rand (num 60) (H - num 60)%F s in
        let '(r2, s) := Math_random s in
        spawnPickup x y coin (1 + ffloor (r2 * num 3)%F) s
      else s in
    set_pickupSpawnTimer (num 0) s
  else s.

(* Math.floor(cw.maxAmmo * 0.2), the product taken exactly *)
Definition refillAmount (w : Weapon F) : Z := (maxAmmo w * 2) / 10.

(* level progression: if all enemies dead -> next level *)
Definition levelProgression (s : St) : St :=
  if Nat.eqb (length (enemies s)) 0 && gameStarted s && negb (gameOver s) then
    let s := set_level (level s + 1) s in
    let s := set_enemiesToSpawn (enemiesToSpawn s + 2) s in
    let s := spawnWave s in
    let s := set_coins (coins s + 5) s in
    (* refill some ammo for current weapon *)
    match weapons s !! currentWeaponKey s with
    | Some cw =>
        set_weapons (<[currentWeaponKey s :=
                       set_ammo (Z.min (maxAmmo cw) (ammo cw + refillAmount cw)) cw]>
                       (weapons s)) s
    | None => s
    end
  else s.

(* game over check *)
Definition gameOverCheck (s : St) : St :=
  if (p_hp (player s) <=? 0) && negb (gameOver s) then
    let s := set_gameOver true s in
    playSfx "zombieDeath" s
  else s.

Definition frameDt (ts : F) (s : St) : F :=
  let lastT := if falsy (lastT s) then ts else lastT s in
  fmin (num 0.05) ((ts - lastT) / num 1000)%F.

Definition update (ts : F) (now : Z) (s : St) : outcome St :=
  let dt := frameDt ts s in
  let s := set_lastT ts s in
  if negb (gameStarted s) then Done (requestFrame s) else
  let s := movePlayer dt s in
  let s := avoidWalls s in
  (* auto-fire while holding (desktop) *)
  let s := if mouseDown s then shootAtMouse now s else s in
  s <- updateBullets dt s ;;
  s <- updateEnemies dt now s ;;
  s <- bulletsHitEnemies s ;;
  s <- bulletsHitPlayer s ;;
  s <- updateParticles dt s ;;
  s <- collectPickups dt s ;;
  let s := spawnPeriodicPickups dt s in
  let s := levelProgression s in
  let s := gameOverCheck s in
  Done (requestFrame s).

(** *** Shop *)

Definition alert (msg : string) (s : St) : St := set_alerts (msg :: alerts s) s.

(* the click handler of an item's button; renderShop and the HUD refresh
   that follow a purchase only touch the page *)
Definition buy (it : ShopItem) (s : St) : outcome St :=
  if it_price it <=? coins s then
    let s := set_coins (coins s - it_price it) s in
    match weapons s !! it_key it with
    | None => Thrown s
    | Some w =>
        let s := set_weapons (<[it_key it := set_owned true w]> (weapons s)) s in
        Done (alert (w_name w ++ " purchased! Press its hotkey to equip.") s)
    end
  else Done (alert "Not enough coins" s).

(** *** Start / restart *)

Definition resetSession (s : St) : St :=
  let s := set_score 0 s in
  let s := set_coins 0 s in
  let s := set_level 1 s in
  set_enemiesToSpawn 6 s.

Definition startGame (s : St) : outcome St :=
  let s := set_gameStarted true s in
  let s := set_gameOver false s in
  let s := resetSession s in
  let s := createPlayer s in
  (* give basic weapon *)
  match weapons s !! "pistol" with
  | None => Thrown s
  | Some w =>
      let s := set_weapons (<["pistol" := set_owned true w]> (weapons s)) s in
      let s := spawnWave s in
      Done (requestFrame s)
  end.

Definition restartGame (s : St) : St :=
  let s := set_gameOver false s in
  let s := set_player (set_p_hp (p_maxHp (player s)) (player s)) s in
  let s := resetSession s in
  let s := set_bullets [] s in
  let s := set_enemies [] s in
  let s := set_particles [] s in
  let s := set_pickups [] s in
  let s := spawnWave s in
  requestFrame s.

(** *** Input *)

Definition lowerAscii (c : Ascii.ascii) : Ascii.ascii :=
  let n := Ascii.nat_of_ascii c in
  if (Nat.leb 65 n && Nat.leb n 90)%bool then Ascii.ascii_of_nat (n + 32) else c.

Fixpoint toLowerCase (k : string) : string :=
  match k with
  | EmptyString => EmptyString
  | String c k' => String (lowerAscii c) (toLowerCase k')
  end.

Definition keydown (key : string) (s : St) : outcome St :=
  let s := set_keys (<[toLowerCase key := true]> (keys s)) s in
  (* weapon switching 1..6 *)
  let s := if bool_decide (key = "1") then set_currentWeaponKey "pistol" s else s in
  let s := if bool_decide (key = "2") then set_currentWeaponKey "smg" s else s in
  let s := if bool_decide (key = "3") then set_currentWeaponKey "machine" s else s in
  let s := if bool_decide (key = "4") then set_currentWeaponKey "shotgun" s else s in
  let s := if bool_decide (key = "5") then set_currentWeaponKey "sniper" s else s in
  let s := if bool_decide (key = "6") then set_currentWeaponKey "rocket" s else s in
  (* reload *)
  let s := if bool_decide (key = "r") then startReload s else s in
  (* start / restart *)
  if bool_decide (key = "Enter") then
    if negb (gameStarted s) then startGame s
    else if gameOver s then Done (restartGame s)
    else Done s
  else Done s.

Definition keyup (key : string) (s : St) : St :=
  set_keys (<[toLowerCase key := false]> (keys s)) s.

(** Everything the browser can call into the script. *)
Inductive Event :=
  | KeyDown (key : string)
  | KeyUp (key : string)
  | MouseMove (x y : F)            (* in canvas coordinates *)
  | MouseDown (now : Z)
  | MouseUp
  | FireTouch (now : Z)            (* touchstart on the fire button *)
  | ReloadTouch
  | ReloadTimeout (i : nat)        (* a pending reload timeout comes due *)
  | ShopClick (i : nat)            (* the button of the i-th shop item *)
  | StartClick
  | Frame (ts : F) (now : Z).      (* an animation frame runs update *)

Definition handle (ev : Event) (s : St) : outcome St :=
  match ev with
  | KeyDown key => keydown key s
  | KeyUp key => Done (keyup key s)
  | MouseMove x y => Done (set_mouse (x, y) s)
  | MouseDown now => Done (shootAtMouse now (set_mouseDown true s))
  | MouseUp => Done (set_mouseDown false s)
  | FireTouch now => Done (shootAtMouse now s)
  | ReloadTouch => Done (startReload s)
  | ReloadTimeout i => Done (timerFires i s)
  | ShopClick i =>
      match shopItems !! i with
      | None => Done s
      | Some it =>
          match weapons s !! it_key it with
          | None => Thrown s
          | Some w => if owned w then Done s (* the button is disabled *) else buy it s
          end
      end
  | StartClick => startGame s
  | Frame ts now =>
      match frames s with
      | O => Done s                (* no callback is pending *)
      | S n => update ts now (set_frames n s)
      end
  end.

(** The state once the script has loaded. *)
Definition initial : St :=
  let s :=
    mkState false false 0 0 1 6
      (mkPlayer (num 0) (num 0) (num 0) (num 0) 0 0)
      [] [] [] [] weapons0 "pistol" 0 false ∅ ((W / num 2)%F, (H / num 2)%F) false
      (num 0) (num 0) 0%nat [] [] [] 0%nat in
  spawnWave (createPlayer s).

(** A run: the states reached by handling events one after the other.  A
    handler that throws leaves the globals as they are at that point. *)
Definition run (evs : list Event) (s : St) : St :=
  foldl (fun s ev => final (handle ev s)) s evs.

Inductive reachable : St -> Prop :=
  | reach_initial : reachable initial
  | reach_step ev s : reachable s -> reachable (final (handle ev s)).


(** ** Footprints

    [fx s s'] : [s'] is [s] but for the particles, the sound log and the
    number of random draws; [blast s s'] lets the enemies and the pickups
    differ too. *)

Definition fx (s s' : St) : Prop :=
  s' = set_particles (particles s')
         (set_randomCalls (randomCalls s') (set_sfxLog (sfxLog s') s)).

Definition blast (s s' : St) : Prop :=
  s' = set_enemies (enemies s') (set_pickups (pickups s')
         (set_particles (particles s')
            (set_randomCalls (randomCalls s') (set_sfxLog (sfxLog s') s)))).

(** ** What an explosion does to one enemy *)

Definition inBlast (x y scale : F) (e : Enemy F) : bool :=
  (hypot (e_x e - x) (e_y e - y) <? num 60 * scale + e_r e)%F.

(* the enemy after the call, if it is still in the list *)
Definition afterBlast (x y scale : F) (lvl : Z) (e : Enemy F) : option (Enemy F) :=
  if inBlast x y scale e then
    if e_hp e - (3 + lvl) <=? 0 then None
    else Some (set_e_hp (e_hp e - (3 + lvl)) e)
  else Some e.

(* the enemy, if the call kills it *)
Definition killedByBlast (x y scale : F) (lvl : Z) (e : Enemy F) : option (Enemy F) :=
  if inBlast x y scale e && (e_hp e - (3 + lvl) <=? 0) then Some e else None.

Definition isCoinAt (e : Enemy F) (pk : Pickup F) : Prop :=
  pk_x pk = e_x e /\ pk_y pk = e_y e /\ pk_type pk = coin.

(* worth 3 + Math.floor(Math.random() * 5) *)
Definition blastCoin (pk : Pickup F) : Prop :=
  exists n, pk_val pk = 3 + ffloor (random n * num 5)%F.

(* a shot: the bullets and the random draws *)
Definition volley (s s' : St) : Prop :=
  s' = set_bullets (bullets s') (set_randomCalls (randomCalls s') s).

(* starting a reload: the flag, the pending timeouts and the sound log *)
Definition reloadStart (s s' : St) : Prop :=
  s' = set_reloading (reloading s') (set_timers (timers s')
         (set_sfxLog (sfxLog s') s)).

(* random draws only *)
Definition drew (s s' : St) : Prop := s' = set_randomCalls (randomCalls s') s.

(* a wave: the enemies and the random draws *)
Definition waveFx (s s' : St) : Prop :=
  s' = set_enemies (enemies s') (set_randomCalls (randomCalls s') s).

(** ** Ammo *)

Definition ammoOk (w : Weapon F) : Prop := 0 <= ammo w <= maxAmmo w.

Definition ammoInv (s : St) : Prop :=
  map_Forall (fun _ w => ammoOk w) (weapons s).

(** ** Waves *)

Definition bossFirst (lvl : Z) (es : list (Enemy F)) : Prop :=
  exists e rest, es = e :: rest /\ e_type e = boss /\ e_hp e = 20 + lvl * 4.

Definition noBomber (s : St) : Prop :=
  Forall (fun e => e_type e <> bomber) (enemies s).

(** ** Loop invariants *)

Definition explodeInv (x y scale : F) (s0 : St) (i : nat) (s : St) : Prop :=
  (i <= length (enemies s0))%nat /\ blast s0 s /\
  enemies s = take i (enemies s0)
                ++ omap (afterBlast x y scale (level s0)) (drop i (enemies s0)) /\
  exists new, pickups s = pickups s0 ++ new /\ Forall blastCoin new /\
    Forall2 isCoinAt (rev (omap (killedByBlast x y scale (level s0)) (drop i (enemies s0)))) new.

Definition waveInv (s0 : St) (j : nat) (s : St) : Prop :=
  waveFx s0 s /\ length (enemies s) = j /\ noBomber s /\
  (Z.rem (level s0) 5 = 0 -> (1 <= j)%nat -> bossFirst (level s0) (enemies s)).


(* a call of shootAtMouse *)
Definition shotFx (s s' : St) : Prop :=
  s' = set_lastShotAt (lastShotAt s') (set_weapons (weapons s')
         (set_bullets (bullets s') (set_particles (particles s')
            (set_randomCalls (randomCalls s') (set_sfxLog (sfxLog s')
               (set_reloading (reloading s') (set_timers (timers s') s))))))).

(** ** What a frame keeps

    [pickupsOk]: no pickup is worth a negative amount.  [randomOk]: the
    floor of a random draw scaled by a positive integer is not negative
    (the draws are in [0, 1)).  [steady s s']: from [s] to [s'] the flags,
    the level and the quota are kept, the player's health does not grow,
    and the weapons, the enemies, the pickups and the coins stay in
    order. *)

Definition pickupsOk (s : St) : Prop :=
  Forall (fun pk => 0 <= pk_val pk) (pickups s).

Definition randomOk : Prop :=
  forall n k, 0 < k -> 0 <= ffloor (random n * num (inject_Z k))%F.

Record steady (s s' : St) : Prop := mkSteady {
  st_gameStarted : gameStarted s' = gameStarted s;
  st_gameOver : gameOver s' = gameOver s;
  st_level : level s' = level s;
  st_quota : enemiesToSpawn s' = enemiesToSpawn s;
  st_maxHp : p_maxHp (player s') = p_maxHp (player s);
  st_hp : p_hp (player s') <= p_hp (player s);
  st_ammo : ammoInv s -> ammoInv s';
  st_noBomber : noBomber s -> noBomber s';
  st_coins : randomOk -> pickupsOk s -> pickupsOk s' /\ coins s <= coins s'
}.

Definition flowState {St} (f : flow St) : St :=
  match f with Continue s | Break s | Raise s => s end.

(** ** The enemy pass, one enemy at a time *)

(* the enemy after the spitter check and its move *)
Definition advance (dt : F) (now : Z) (p : Player F) (e : Enemy F) : Enemy F :=
  chase dt p (if spits now e then set_e_lastSpit now e else e).

(* the enemy after the pass, if it is still in the list *)
Definition afterContact (dt : F) (now : Z) (p : Player F) (e : Enemy F) : option (Enemy F) :=
  if touches p (advance dt now p e) then None else Some (advance dt now p e).

(* what the enemy costs the player in the pass *)
Definition contactCost (dt : F) (now : Z) (p : Player F) (e : Enemy F) : Z :=
  if touches p (advance dt now p e) then contactDamage e else 0.

Definition samePlace (p p' : Player F) : Prop :=
  p_x p' = p_x p /\ p_y p' = p_y p /\ p_r p' = p_r p /\ p_maxHp p' = p_maxHp p.

Definition enemiesInv (dt : F) (now : Z) (s0 : St) (i : nat) (s : St) : Prop :=
  (i <= length (enemies s0))%nat /\
  samePlace (player s0) (player s) /\
  enemies s = take i (enemies s0)
                ++ omap (afterContact dt now (player s0)) (drop i (enemies s0)) /\
  p_hp (player s) = p_hp (player s0)
                      - foldr Z.add 0 (map (contactCost dt now (player s0)) (drop i (enemies s0))).

(** ** The bullet pass, one enemy at a time *)

(* [h] is the bullet, if any, that hit [e] in the pass *)
Definition hitBy (e : Enemy F) (h : option (Bullet F)) : Prop :=
  match h with
  | None => True
  | Some b => b_from b = fromPlayer /\ overlaps e b = true
  end.

(* the enemy after the pass, if it is still in the list *)
Definition afterHit (eh : Enemy F * option (Bullet F)) : option (Enemy F) :=
  match eh with
  | (e, None) => Some e
  | (e, Some b) =>
      if e_hp e - b_dmg b <=? 0 then None
      else Some (set_e_hp (e_hp e - b_dmg b) e)
  end.

Definition hitsInv (s0 : St) (i : nat) (s : St) : Prop :=
  (i <= length (enemies s0))%nat /\
  exists hits : list (option (Bullet F)),
    Forall2 hitBy (drop i (enemies s0)) hits /\
    enemies s = take i (enemies s0) ++ omap afterHit (zip (drop i (enemies s0)) hits) /\
    bullets s0 ≡ₚ bullets s ++ omap id hits.

(** ** Whole frames and whole games *)

(* what one call of update does to the session *)
Record frameStep (s s' : St) : Prop := mkFrameStep {
  fs_gameStarted : gameStarted s' = gameStarted s;
  fs_maxHp : p_maxHp (player s') = p_maxHp (player s);
  fs_hp : p_hp (player s') <= p_hp (player s);
  fs_gameOver :
    gameOver s' = if gameStarted s then gameOver s || (p_hp (player s') <=? 0)
                  else gameOver s;
  fs_idle : gameStarted s = false -> player s' = player s;
  fs_level : level s <= level s';
  fs_quota : enemiesToSpawn s <= enemiesToSpawn s';
  fs_ammo : ammoInv s -> ammoInv s';
  fs_noBomber : noBomber s';
  fs_coins : randomOk -> pickupsOk s -> pickupsOk s' /\ coins s <= coins s'
}.

(* what holds of the globals between two handler calls of a game *)
Record sound (s : St) : Prop := mkSound {
  so_noBomber : noBomber s;
  so_ammo : ammoInv s;
  so_level : 1 <= level s;
  so_quota : 6 <= enemiesToSpawn s;
  so_maxHp : 0 < p_maxHp (player s);
  so_hp : p_hp (player s) <= p_maxHp (player s);
  so_gameOver : gameOver s = true <-> p_hp (player s) <= 0
}.

(* input, shooting and reloading: the keys, the mouse, the weapon in hand,
   the weapons, the bullets, the reload state, and the cosmetic state *)
Definition inputFx (s s' : St) : Prop :=
  s' = set_keys (keys s') (set_mouse (mouse s') (set_mouseDown (mouseDown s')
         (set_currentWeaponKey (currentWeaponKey s') (set_reloading (reloading s')
            (set_timers (timers s') (set_sfxLog (sfxLog s')
               (set_lastShotAt (lastShotAt s') (set_weapons (weapons s')
                  (set_bullets (bullets s') (set_particles (particles s')
                     (set_randomCalls (randomCalls s') s))))))))))).

(* the session once reset, with [hp] hit points *)
Definition freshSession (hp : Z) (s s' : St) : Prop :=
  gameOver s' = false /\ coins s' = 0 /\ level s' = 1 /\ enemiesToSpawn s' = 6 /\
  p_maxHp (player s') = hp /\ p_hp (player s') = hp /\ weapons s' = weapons s.



(** ** Firing, in full *)

(* everything shootAtMouse checks before it fires the weapon [w] *)
Definition canFire (now : Z) (s : St) (w : Weapon F) : Prop :=
  gameStarted s = true /\ gameOver s = false /\
  weapons s !! currentWeaponKey s = Some w /\ owned w = true /\
  reloading s = false /\ 0 < ammo w /\ fireRate w <= now - lastShotAt s.

(* the number of projectiles of one shot *)
Definition shotSize (w : Weapon F) : nat :=
  match wtype w with shot => Z.to_nat (pelletCount w) | _ => 1%nat end.

(* a projectile of the weapon [w] *)
Definition firedFrom (w : Weapon F) (b : Bullet F) : Prop :=
  b_from b = fromPlayer /\
  match wtype w with
  | bullet => b_dmg b = damage w /\ b_rocket b = false /\ b_r b = num 4
  | shot => b_dmg b = damage w /\ b_rocket b = false /\ b_r b = num 3
  | rocket => b_dmg b = damage w * 2 /\ b_rocket b = true /\ b_r b = num 6
  end.

(** ** Waves, enemy by enemy *)

(* the enemy spawnEnemy makes of its type at level [lvl], wherever it
   stands; a wave holds no bomber *)
Definition bredAt (lvl : Z) (e : Enemy F) : Prop :=
  e_lastSpit e = 0 /\
  match e_type e with
  | normal => e_r e = num 18 /\ e_speed e = ofZ (50 + (lvl - 1) * 3) /\ e_hp e = 1 + lvl / 4
  | fast => e_r e = num 14 /\ e_speed e = num 120 /\ e_hp e = 1
  | tank => e_r e = num 26 /\ e_speed e = num 36 /\ e_hp e = 4 + lvl / 2
  | spitter => e_r e = num 18 /\ e_speed e = num 45 /\ e_hp e = 2
  | bomber => False
  | boss => e_r e = num 48 /\ e_speed e = num 25 /\ e_hp e = 20 + lvl * 4
  end.

(* on one of the four lines 30 outside the canvas *)
Definition offCanvas (e : Enemy F) : Prop :=
  e_x e = num (-30) \/ e_x e = (W + num 30)%F \/
  e_y e = num (-30) \/ e_y e = (H + num 30)%F.

(* Math.floor(rand(0,4)) is one of 0, 1, 2, 3 (the draws are in [0, 1)) *)
Definition sidesOk : Prop :=
  forall n, 0 <= ffloor (random n * (num 4 - num 0) + num 0)%F < 4.

Definition waveInv2 (s0 : St) (j : nat) (s : St) : Prop :=
  waveFx s0 s /\ length (enemies s) = j /\
  forall i e, enemies s !! i = Some e ->
    bredAt (level s0) e /\ (sidesOk -> offCanvas e) /\
    (e_type e = boss <-> Z.rem (level s0) 5 = 0 /\ i = 0%nat).

(** ** The other passes of a frame, one element at a time *)

(* an enemy projectile that reaches the player *)
Definition strikes (p : Player F) (b : Bullet F) : bool :=
  bool_decide (b_from b = fromEnemy) &&
  (hypot (b_x b - p_x p) (b_y b - p_y p) <? b_r b + p_r p)%F.

Definition afterStrike (p : Player F) (b : Bullet F) : option (Bullet F) :=
  if strikes p b then None else Some b.

Definition strikeCost (p : Player F) (b : Bullet F) : Z :=
  if strikes p b then 8 else 0.

(* a particle [dt] seconds later, if it has not outlived its life *)
Definition aged (dt : F) (p : Particle F) : Particle F :=
  set_pt_motion (pt_x p + pt_dx p * dt)%F (pt_y p + pt_dy p * dt)%F
    (pt_age p + dt * num 1000)%F p.

Definition afterAging (dt : F) (p : Particle F) : option (Particle F) :=
  if (pt_age (aged dt p) >? pt_life (aged dt p))%F then None else Some (aged dt p).

(* a bullet [dt] seconds later, if it is neither in a wall nor more than 40
   beyond the canvas *)
Definition flown (dt : F) (b : Bullet F) : Bullet F :=
  set_b_pos (b_x b + b_vx b * dt)%F (b_y b + b_vy b * dt)%F b.

Definition inWall (b : Bullet F) : bool :=
  existsb (fun w => circleRectCollision (b_x b) (b_y b) (b_r b)
                      (wl_x w) (wl_y w) (wl_w w) (wl_h w)) walls.

Definition outOfPlay (b : Bullet F) : bool :=
  (b_x b <? num (-40))%F || (b_x b >? W + num 40)%F
  || (b_y b <? num (-40))%F || (b_y b >? H + num 40)%F.

Definition afterFlight (dt : F) (b : Bullet F) : option (Bullet F) :=
  if inWall (flown dt b) then None
  else if outOfPlay (flown dt b) then None
  else Some (flown dt b).

(* a pickup [dt] seconds later, if the player is not within 20 of it *)
Definition older (dt : F) (pk : Pickup F) : Pickup F :=
  set_pk_age (orElse (pk_age pk) (num 0) + dt * num 1000)%F pk.

Definition inReach (p : Player F) (pk : Pickup F) : bool :=
  (hypot (pk_x pk - p_x p) (pk_y pk - p_y p) <? num 20)%F.

Definition afterCollect (dt : F) (p : Player F) (pk : Pickup F) : option (Pickup F) :=
  if inReach p pk then None else Some (older dt pk).

Definition collected (p : Player F) (pk : Pickup F) : Z :=
  if inReach p pk && bool_decide (pk_type pk = coin) then pk_val pk else 0.

Definition coinsOnly (s : St) : Prop :=
  Forall (fun pk => pk_type pk = coin) (pickups s).

(** ** What a frame keeps of the weapons, the reload and the input

    [refilled w w']: [w'] is [w] but for its ammo, which has not gone below
    what [w] held of a full magazine.  [orderly s s']: from [s] to [s'] the
    pending frames, the weapon in hand, the reload state, the time of the
    last shot, the input and the alerts are kept, the score has not gone
    down, every weapon is refilled at most and coins stay the only
    pickups. *)

Definition refilled (w w' : Weapon F) : Prop :=
  w' = set_ammo (ammo w') w /\
  (0 <= maxAmmo w -> Z.min (ammo w) (maxAmmo w) <= ammo w').

Definition rearmed (m m' : gmap string (Weapon F)) : Prop :=
  forall k, option_Forall2 refilled (m !! k) (m' !! k).

Record orderly (s s' : St) : Prop := mkOrderly {
  or_frames : frames s' = frames s;
  or_current : currentWeaponKey s' = currentWeaponKey s;
  or_reloading : reloading s' = reloading s;
  or_timers : timers s' = timers s;
  or_lastShotAt : lastShotAt s' = lastShotAt s;
  or_keys : keys s' = keys s;
  or_mouse : mouse s' = mouse s;
  or_mouseDown : mouseDown s' = mouseDown s;
  or_alerts : alerts s' = alerts s;
  or_score : score s <= score s';
  or_weapons : rearmed (weapons s) (weapons s');
  or_pickups : coinsOnly s -> coinsOnly s'
}.

(** ** What every game keeps

    [stocked]: the weapon table is the one the script starts with, but for
    the ammo.  [reloadInv]: at most one reload timeout is pending, the
    reloading flag is set exactly while one is, and every weapon but the
    one being reloaded holds a round.  [tidy]: these, the weapon in hand
    being one of the table, and coins being the only pickups. *)

Definition stocked (s : St) : Prop :=
  forall k, option_Forall2 (fun w0 w => w = set_ammo (ammo w) w0)
              (weapons0 !! k) (weapons s !! k).

Definition loaded (s : St) (k : string) : Prop :=
  forall w, weapons s !! k = Some w -> 0 < ammo w.

Definition reloadInv (s : St) : Prop :=
  match timers s with
  | [] => reloading s = false /\ forall k, loaded s k
  | [(k0, _)] => reloading s = true /\ forall k, k <> k0 -> loaded s k
  | _ => False
  end.

Record tidy (s : St) : Prop := mkTidy {
  ti_stocked : stocked s;
  ti_current : is_Some (weapons0 !! currentWeaponKey s);
  ti_reload : reloadInv s;
  ti_pickups : coinsOnly s
}.

(* an update callback is pending exactly once a game has been started *)
Definition framesInv (s : St) : Prop :=
  if gameStarted s then (1 <= frames s)%nat else frames s = 0%nat.

Record shipshape (s : St) : Prop := mkShipshape {
  sh_sound : sound s;
  sh_tidy : tidy s;
  sh_frames : framesInv s;
  sh_enemies : gameOver s = false -> enemies s <> [];
  sh_score : 0 <= score s
}.

(* the keys 1..6 select these *)
Definition hotkeyWeapons : list string :=
  ["pistol"; "smg"; "machine"; "shotgun"; "sniper"; "rocket"].

(* a stretch of a frame: steady, with the pending frames kept, the score
   not lowered and tidiness kept *)
Definition calm (s s' : St) : Prop :=
  steady s s' /\ frames s' = frames s /\ score s <= score s' /\ (tidy s -> tidy s').

(** ** What a kill by a bullet pays *)



(** ** Spitters *)

(* the projectile a spitter sends at the player at time [now], if its last
   one is more than 1400 ms old *)
Definition spitOf (now : Z) (p : Player F) (e : Enemy F) : list (Bullet F) :=
  if spits now e then
    let a := atan2 (p_y p - e_y e)%F (p_x p - e_x e)%F in
    [mkBullet (e_x e) (e_y e) (fcos a * num 220)%F (fsin a * num 220)%F
       (num 5) 1 fromEnemy false]
  else [].
End Game.

(** ** A reference interpretation

    Exact rational arithmetic, kept in lowest terms.  It agrees with IEEE
    doubles wherever every intermediate value is a small integer or dyadic
    rational; the square root is exact on squares of rationals and the
    trigonometric functions are those of the angle 0. *)

Module Exact.

Definition qsqrt (q : Q) : Q :=
  let q := Qred q in
  match Qnum q with
  | Zpos n => Zpos (Pos.sqrt n) # Pos.sqrt (Qden q)
  | _ => 0%Q
  end.

#[global] Instance QFloat : Float Q := {|
  num q := Qred q;
  fadd a b := Qred (a + b)%Q;
  fsub a b := Qred (a - b)%Q;
  fmul a b := Qred (a * b)%Q;
  fdiv a b := Qred (a / b)%Q;
  flt a b := negb (Qle_bool b a);
  fmin a b := if Qle_bool a b then a else b;
  fmax a b := if Qle_bool a b then b else a;
  hypot a b := qsqrt (a * a + b * b)%Q;
  fcos _ := 1%Q;
  fsin _ := 0%Q;
  atan2 _ _ := 0%Q;
  fneg a := Qred (- a)%Q;
  ffloor a := Qfloor a;
  falsy a := Qeq_bool a 0
|}.

(* an 800 x 600 canvas; Math.random() returns 0, 1/4, 1/2, 3/4, 0, ... *)
#[global] Instance page : Page Q := {|
  W := 800%Q;
  H := 600%Q;
  random n := (Z.of_nat (n mod 4) # 4)%Q
|}.

(* a game just started *)
Definition started : State Q := final (handle StartClick initial).

(* the same at level 5 *)
Definition level5 : State Q := set_level 5 started.


(* the player at the upper left corner of the first wall *)
Definition atCorner : Player Q := mkPlayer 190%Q 130%Q 16%Q 200%Q 100 100.
Definition wall1 : Wall Q := mkWall 200%Q 140%Q 160%Q 14%Q.




(* the same canvas with Math.random() stuck at 1/2: every zombie is of the
   normal kind and enters at the middle of the upper edge *)
Definition halves : Page Q := {|
  W := 800%Q;
  H := 600%Q;
  random _ := (1 # 2)%Q
|}.

(* the k-th animation frame, 50 ms after the one before *)
Definition tick (k : nat) : @Event Q :=
  Frame (inject_Z (1000 + 50 * Z.of_nat k)) (1000 + 50 * Z.of_nat k).

(* start, hold w and let n frames pass: the player walks up into the wave *)
Definition march (n : nat) : State Q :=
  @run Q QFloat halves ([StartClick; KeyDown "w"] ++ map tick (seq 0 n))
    (@initial Q QFloat halves).

(* after 30 frames two waves have reached the player, who is dead *)
Definition lost : State Q := march 30.

End Exact.

(** ** More games and situations for the reference interpretation *)

Module Scenes.
Import Exact.

(* the same canvas with the draws 1/4, 1/4, 1/2, 1/4, 1/4, 1/2, ...: every
   zombie is of the normal kind and enters at the middle of the right
   edge, level with the player *)
Definition lineup : Page Q := {|
  W := 800%Q;
  H := 600%Q;
  random n := if (n mod 3 =? 2)%nat then (1 # 2)%Q else (1 # 4)%Q
|}.

(* start, take the shotgun, fire once to the right and let n frames pass *)
Definition salvo (n : nat) : State Q :=
  @run Q QFloat lineup
    ([StartClick; KeyDown "4"; MouseDown 1000; MouseUp] ++ map tick (seq 0 n))
    (@initial Q QFloat lineup).

(* after 13 frames the seven pellets have killed the seven zombies *)
Definition harvest : State Q := salvo 13.

(* start, take the rocket launcher and fire its two rockets *)
Definition emptied : State Q :=
  @run Q QFloat page
    [StartClick; KeyDown "6"; MouseDown 1000; MouseUp; MouseDown 3000; MouseUp]
    (@initial Q QFloat page).

Definition pistol12 : Weapon Q :=
  mkWeapon "Pistol" 12 12 1 220 800 bullet None None true 0.
Definition pistol11 : Weapon Q :=
  mkWeapon "Pistol" 11 12 1 220 800 bullet None None true 0.
Definition pistol1 : Weapon Q :=
  mkWeapon "Pistol" 1 12 1 220 800 bullet None None true 0.

(* a game just started, after one shot of the pistol *)
Definition fired : State Q := shootAtMouse 1000 started.

(* a game just started, one round left in the pistol *)
Definition lastRound : State Q :=
  set_weapons (<["pistol" := pistol1]> (weapons started)) started.

(* a game just started, the wave gone *)
Definition cleared : State Q := set_enemies [] started.

(* the boss of level 5 *)
Definition bigBoss : Enemy Q :=
  mkEnemy 600%Q (-30)%Q 48%Q 25%Q 40 boss "#7f1d1d" 0.

End Scenes.

Section Properties.
Context {F : Type} {Fl : Float F} {Pg : Page F}.
Implicit Types s : State F.

#[local] Arguments spawnBlood : simpl never.
#[local] Arguments spawnMuzzle : simpl never.
#[local] Arguments explosionBurst : simpl never.
#[local] Arguments explode : simpl never.
#[local] Arguments spawnWave : simpl never.
#[local] Arguments spawnEnemy : simpl never.

(** ** Loops *)

Lemma forDown_rule {St} (I : nat -> St -> Prop) (Q : outcome St -> Prop)
    (body : nat -> St -> flow St) n (s : St) :
  I n s ->
  (forall i (s : St), I (S i) s ->
     match body i s with
     | Continue s' => I i s'
     | Break s' => Q (Done s')
     | Raise s' => Q (Thrown s')
     end) ->
  (forall s : St, I 0%nat s -> Q (Done s)) ->
  Q (forDown body n s).
Proof.
  intros Hn Hbody Hend. revert s Hn.
  induction n as [|i IH]; intros s Hn; simpl.
  - auto.
  - specialize (Hbody i s Hn). destruct (body i s); auto.
Qed.

Lemma forUp_rule {St} (I : St -> Prop) (body : nat -> St -> St) i n (s : St) :
  I s -> (forall j (s : St), I s -> I (body j s)) -> I (forUp body i n s).
Proof.
  intros Hs Hbody. revert i s Hs.
  induction n as [|n IH]; intros i s Hs; simpl; auto.
Qed.

(** ** Footprints *)

Lemma fx_refl s : fx s s.
Proof. destruct s; reflexivity. Qed.

Lemma fx_trans s1 s2 s3 : fx s1 s2 -> fx s2 s3 -> fx s1 s3.
Proof.
  unfold fx. intros H12 H23. rewrite H23, H12. destruct s1; reflexivity.
Qed.

Lemma fx_blast s s' : fx s s' -> blast s s'.
Proof. unfold fx, blast. intros Hs. rewrite Hs. destruct s; reflexivity. Qed.

Lemma blast_refl s : blast s s.
Proof. apply fx_blast, fx_refl. Qed.

Lemma blast_trans s1 s2 s3 : blast s1 s2 -> blast s2 s3 -> blast s1 s3.
Proof.
  unfold blast. intros H12 H23. rewrite H23, H12. destruct s1; reflexivity.
Qed.

(* reduce the reads and writes of globals and fields, and nothing else *)
Ltac ssimpl :=
  cbn [
    gameStarted gameOver score coins level enemiesToSpawn player bullets
    enemies particles pickups weapons currentWeaponKey lastShotAt
    reloading keys mouse mouseDown lastT pickupSpawnTimer randomCalls
    sfxLog timers alerts frames set_gameStarted set_gameOver set_score
    set_coins set_level set_enemiesToSpawn set_player set_bullets
    set_enemies set_particles set_pickups set_weapons set_currentWeaponKey
    set_lastShotAt set_reloading set_keys set_mouse set_mouseDown
    set_lastT set_pickupSpawnTimer set_randomCalls set_sfxLog set_timers
    set_alerts set_frames p_x p_y p_r p_speed p_maxHp p_hp w_name ammo
    maxAmmo damage fireRate reload wtype pellets spread owned price b_x
    b_y b_vx b_vy b_r b_dmg b_from b_rocket e_x e_y e_r e_speed e_hp
    e_type e_color e_lastSpit pt_x pt_y pt_dx pt_dy pt_life pt_age
    pt_color pt_r pk_x pk_y pk_type pk_val pk_age wl_x wl_y wl_w wl_h
    set_ammo set_owned set_p_hp set_p_pos set_e_hp set_e_pos
    set_e_lastSpit set_b_pos set_pt_motion set_pk_age fst snd andThen
    final lift playSfx spawnParticle spawnPickup Math_random rand
    requestFrame alert setReloadTimeout chase ].
Tactic Notation "ssimpl" "in" hyp(H) :=
  cbn [
    gameStarted gameOver score coins level enemiesToSpawn player bullets
    enemies particles pickups weapons currentWeaponKey lastShotAt
    reloading keys mouse mouseDown lastT pickupSpawnTimer randomCalls
    sfxLog timers alerts frames set_gameStarted set_gameOver set_score
    set_coins set_level set_enemiesToSpawn set_player set_bullets
    set_enemies set_particles set_pickups set_weapons set_currentWeaponKey
    set_lastShotAt set_reloading set_keys set_mouse set_mouseDown
    set_lastT set_pickupSpawnTimer set_randomCalls set_sfxLog set_timers
    set_alerts set_frames p_x p_y p_r p_speed p_maxHp p_hp w_name ammo
    maxAmmo damage fireRate reload wtype pellets spread owned price b_x
    b_y b_vx b_vy b_r b_dmg b_from b_rocket e_x e_y e_r e_speed e_hp
    e_type e_color e_lastSpit pt_x pt_y pt_dx pt_dy pt_life pt_age
    pt_color pt_r pk_x pk_y pk_type pk_val pk_age wl_x wl_y wl_w wl_h
    set_ammo set_owned set_p_hp set_p_pos set_e_hp set_e_pos
    set_e_lastSpit set_b_pos set_pt_motion set_pk_age fst snd andThen
    final lift playSfx spawnParticle spawnPickup Math_random rand
    requestFrame alert setReloadTimeout chase ] in H.
Tactic Notation "ssimpl" "in" "*" :=
  cbn [
    gameStarted gameOver score coins level enemiesToSpawn player bullets
    enemies particles pickups weapons currentWeaponKey lastShotAt
    reloading keys mouse mouseDown lastT pickupSpawnTimer randomCalls
    sfxLog timers alerts frames set_gameStarted set_gameOver set_score
    set_coins set_level set_enemiesToSpawn set_player set_bullets
    set_enemies set_particles set_pickups set_weapons set_currentWeaponKey
    set_lastShotAt set_reloading set_keys set_mouse set_mouseDown
    set_lastT set_pickupSpawnTimer set_randomCalls set_sfxLog set_timers
    set_alerts set_frames p_x p_y p_r p_speed p_maxHp p_hp w_name ammo
    maxAmmo damage fireRate reload wtype pellets spread owned price b_x
    b_y b_vx b_vy b_r b_dmg b_from b_rocket e_x e_y e_r e_speed e_hp
    e_type e_color e_lastSpit pt_x pt_y pt_dx pt_dy pt_life pt_age
    pt_color pt_r pk_x pk_y pk_type pk_val pk_age wl_x wl_y wl_w wl_h
    set_ammo set_owned set_p_hp set_p_pos set_e_hp set_e_pos
    set_e_lastSpit set_b_pos set_pt_motion set_pk_age fst snd andThen
    final lift playSfx spawnParticle spawnPickup Math_random rand
    requestFrame alert setReloadTimeout chase ] in *.

(* every field of [H : s' = set_... s] that is the same on both sides *)
Ltac project H :=
  let go f :=
    (let E := fresh "E" in
     pose proof (f_equal f H) as E; ssimpl in E;
     match type of E with ?a = ?b => first [constr_eq a b; clear E | idtac] end) in
  go (@gameStarted F); go (@gameOver F); go (@score F); go (@coins F);
  go (@level F); go (@enemiesToSpawn F); go (@player F); go (@bullets F);
  go (@enemies F); go (@particles F); go (@pickups F); go (@weapons F);
  go (@currentWeaponKey F); go (@lastShotAt F); go (@reloading F);
  go (@keys F); go (@mouse F); go (@mouseDown F); go (@lastT F);
  go (@pickupSpawnTimer F); go (@randomCalls F); go (@sfxLog F);
  go (@timers F); go (@alerts F); go (@frames F).

Lemma fx_set_particles v s : fx s (set_particles v s).
Proof. destruct s; reflexivity. Qed.

Lemma fx_set_randomCalls v s : fx s (set_randomCalls v s).
Proof. destruct s; reflexivity. Qed.

Lemma fx_playSfx name s : fx s (playSfx name s).
Proof. destruct s; reflexivity. Qed.

Lemma fx_rand a b s : fx s (snd (rand a b s)).
Proof. destruct s; reflexivity. Qed.

Lemma fx_spawnParticle x y dx dy life color r s :
  fx s (spawnParticle x y dx dy life color r s).
Proof. destruct s; reflexivity. Qed.

Lemma fx_spawnBlood x y n s : fx s (spawnBlood x y n s).
Proof.
  unfold spawnBlood. apply forUp_rule; [apply fx_refl|].
  intros _ s1 Hs1. eapply fx_trans; [exact Hs1|]. destruct s1; reflexivity.
Qed.

Lemma fx_spawnMuzzle x y a s : fx s (spawnMuzzle x y a s).
Proof.
  unfold spawnMuzzle. apply forUp_rule; [apply fx_refl|].
  intros _ s1 Hs1. eapply fx_trans; [exact Hs1|]. destruct s1; reflexivity.
Qed.

Lemma fx_explosionBurst x y s : fx s (explosionBurst x y s).
Proof.
  unfold explosionBurst. apply forUp_rule; [apply fx_refl|].
  intros _ s1 Hs1. eapply fx_trans; [exact Hs1|]. destruct s1; reflexivity.
Qed.

(** ** Lists: the slot after a prefix *)

Lemma slot_lookup {A} (l k : list A) (x : A) i :
  i = length l -> (l ++ x :: k) !! i = Some x.
Proof. intros ->. apply list_lookup_middle. reflexivity. Qed.

Lemma slot_insert {A} (l k : list A) (x y : A) i :
  i = length l -> <[i := y]> (l ++ x :: k) = l ++ y :: k.
Proof.
  intros ->. rewrite insert_app_r_alt by lia.
  replace (length l - length l)%nat with 0%nat by lia. reflexivity.
Qed.

Lemma slot_delete {A} (l k : list A) (x : A) i :
  i = length l -> delete i (l ++ x :: k) = l ++ k.
Proof. intros ->. apply delete_middle. Qed.

Lemma split_at {A} (l : list A) i :
  (S i <= length l)%nat ->
  exists x, l !! i = Some x /\ take (S i) l = take i l ++ [x]
            /\ drop i l = x :: drop (S i) l /\ length (take i l) = i.
Proof.
  intros Hi. destruct (lookup_lt_is_Some_2 l i) as [x Hx]; [lia|].
  exists x. split; [exact Hx|]. split; [apply take_S_r, Hx|].
  split; [apply drop_S, Hx|]. rewrite length_take. lia.
Qed.

(** ** Explosion *)

Lemma explodeBody_inv x y scale s0 i s :
  explodeInv x y scale s0 (S i) s ->
  match explodeBody x y (num 60 * scale)%F i s with
  | Continue s' => explodeInv x y scale s0 i s'
  | _ => False
  end.
Proof.
  intros (Hi & Hb & Hes & new & Hpk & Hval & Hnew).
  destruct (split_at (enemies s0) i Hi) as (e & He & Htake & Hdrop & Hlen).
  rewrite Htake, <- app_assoc in Hes. simpl in Hes.
  assert (Hlvl : level s = level s0) by (project Hb; assumption).
  unfold explodeBody.
  rewrite Hes, (slot_lookup _ _ _ i) by (symmetry; exact Hlen).
  fold (inBlast x y scale e). rewrite Hlvl. unfold explodeInv.
  rewrite Hdrop.
  assert (Hcons : forall f : Enemy F -> option (Enemy F),
            omap f (e :: drop (S i) (enemies s0))
            = match f e with
              | Some e' => e' :: omap f (drop (S i) (enemies s0))
              | None => omap f (drop (S i) (enemies s0))
              end) by reflexivity.
  rewrite !Hcons. clear Hcons.
  destruct (inBlast x y scale e) eqn:Hin; simpl.
  - destruct (e_hp e - (3 + level s0) <=? 0) eqn:Hdead; simpl.
    + assert (Ha : afterBlast x y scale (level s0) e = None)
        by (unfold afterBlast; rewrite Hin, Hdead; reflexivity).
      assert (Hk : killedByBlast x y scale (level s0) e = Some e)
        by (unfold killedByBlast; rewrite Hin, Hdead; reflexivity).
      rewrite Ha, Hk.
      rewrite (slot_insert _ _ _ _ i), (slot_delete _ _ _ i) by (symmetry; exact Hlen).
      split; [lia|]. split.
      { eapply blast_trans; [exact Hb|]. destruct s; reflexivity. }
      split; [reflexivity|].
      exists (new ++ [mkPickup (e_x e) (e_y e) coin
                        (3 + ffloor (random (randomCalls s) * num 5)%F) (num 0)]).
      split; [rewrite Hpk, app_assoc; reflexivity|]. split.
      { apply Forall_app. split; [exact Hval|]. constructor; [|constructor].
        exists (randomCalls s). reflexivity. }
      simpl. apply Forall2_app; [exact Hnew|]. repeat constructor.
    + assert (Ha : afterBlast x y scale (level s0) e
                   = Some (set_e_hp (e_hp e - (3 + level s0)) e))
        by (unfold afterBlast; rewrite Hin, Hdead; reflexivity).
      assert (Hk : killedByBlast x y scale (level s0) e = None)
        by (unfold killedByBlast; rewrite Hin, Hdead; reflexivity).
      rewrite Ha, Hk.
      rewrite (slot_insert _ _ _ _ i) by (symmetry; exact Hlen).
      split; [lia|]. split.
      { eapply blast_trans; [exact Hb|]. destruct s; reflexivity. }
      split; [reflexivity|]. exists new. auto.
  - assert (Ha : afterBlast x y scale (level s0) e = Some e)
      by (unfold afterBlast; rewrite Hin; reflexivity).
    assert (Hk : killedByBlast x y scale (level s0) e = None)
      by (unfold killedByBlast; rewrite Hin; reflexivity).
    rewrite Ha, Hk.
    split; [lia|]. split; [exact Hb|]. split; [exact Hes|].
    exists new. auto.
Qed.

Lemma explode_spec x y scale s :
  exists s', explode x y scale s = Done s' /\ blast s s' /\
    enemies s' = omap (afterBlast x y scale (level s)) (enemies s) /\
    exists new, pickups s' = pickups s ++ new /\ Forall blastCoin new /\
      Forall2 isCoinAt (rev (omap (killedByBlast x y scale (level s)) (enemies s))) new.
Proof.
  unfold explode.
  pose proof (fx_explosionBurst x y s) as Hfx.
  remember (explosionBurst x y s) as s0 eqn:Es0. clear Es0.
  assert (Hes : enemies s0 = enemies s) by (project Hfx; assumption).
  assert (Hlv : level s0 = level s) by (project Hfx; assumption).
  assert (Hpk : pickups s0 = pickups s) by (project Hfx; assumption).
  apply (forDown_rule (explodeInv x y scale s0)
           (fun o => exists s', (s <- o ;; Done (playSfx "explosion" s)) = Done s' /\ _)).
  - split; [reflexivity|]. split; [apply blast_refl|].
    rewrite take_ge, drop_ge by lia. simpl. rewrite app_nil_r.
    split; [reflexivity|]. exists []. rewrite app_nil_r. split; [reflexivity|split; constructor].
  - intros i s1 Hinv. pose proof (explodeBody_inv _ _ _ _ _ _ Hinv) as Hb.
    destruct (explodeBody x y (num 60 * scale)%F i s1); [exact Hb|contradiction..].
  - intros s1 (_ & Hb & Hens & new & Hpks & Hval & Hnew). simpl in Hens, Hnew.
    rewrite drop_0 in Hens, Hnew.
    exists (playSfx "explosion" s1). split; [reflexivity|]. split.
    { eapply blast_trans; [apply fx_blast, Hfx|].
      eapply blast_trans; [exact Hb|]. apply fx_blast, fx_playSfx. }
    simpl. rewrite Hens, Hes, Hlv. split; [reflexivity|].
    exists new. rewrite Hpks, Hpk. rewrite Hes, Hlv in Hnew. auto.
Qed.

(** C4: a call of explode subtracts 3 + level from every enemy of the list
    that is nearer to the point than 60 * scale plus its radius and leaves
    the others as they are; every enemy brought to 0 or less by it is
    removed from the list within the call, and a coin pickup is pushed at
    its position (the kills are met from the end of the list) *)
Theorem explode_damages_and_removes x y scale s :
  exists s', explode x y scale s = Done s' /\
    enemies s' = omap (afterBlast x y scale (level s)) (enemies s) /\
    exists new, pickups s' = pickups s ++ new /\
      Forall2 isCoinAt
        (rev (omap (killedByBlast x y scale (level s)) (enemies s))) new.
Proof.
  destruct (explode_spec x y scale s) as (s' & Hrun & _ & Hes & new & Hpk & _ & Hat).
  exists s'. split; [exact Hrun|]. split; [exact Hes|]. exists new. auto.
Qed.

(** C10: a call of explode returns, and changes nothing but the enemy
    list, the pickups, the particles, the random draws made and the sound
    log: the player (its health with it), the score and the coins are what
    they were *)
Theorem explode_frame x y scale s :
  exists s', explode x y scale s = Done s' /\ blast s s' /\
    player s' = player s /\ p_hp (player s') = p_hp (player s) /\
    score s' = score s /\ coins s' = coins s.
Proof.
  destruct (explode_spec x y scale s) as (s' & Hrun & Hb & _).
  exists s'. split; [exact Hrun|]. split; [exact Hb|].
  assert (Hp : player s' = player s) by (project Hb; assumption).
  rewrite Hp. project Hb. auto.
Qed.

(** ** Shooting *)

Lemma reloadStart_autoReload s : reloadStart s (autoReload s).
Proof.
  unfold autoReload. destruct (reloading s) eqn:Hr.
  - destruct s; reflexivity.
  - ssimpl. destruct (weapons s !! currentWeaponKey s); destruct s; reflexivity.
Qed.

Lemma reloadStart_startReload s : reloadStart s (startReload s).
Proof.
  unfold startReload. destruct (reloading s) eqn:Hr.
  - destruct s; reflexivity.
  - destruct (weapons s !! currentWeaponKey s) as [w|]; [|destruct s; reflexivity].
    destruct (maxAmmo w <=? ammo w); destruct s; reflexivity.
Qed.

Lemma volley_refl s : volley s s.
Proof. destruct s; reflexivity. Qed.

Lemma volley_trans s1 s2 s3 : volley s1 s2 -> volley s2 s3 -> volley s1 s3.
Proof.
  unfold volley. intros H12 H23. rewrite H23, H12. destruct s1; reflexivity.
Qed.

Lemma volley_emitProjectiles w a s : volley s (emitProjectiles w a s).
Proof.
  unfold emitProjectiles. destruct (wtype w).
  - destruct s; reflexivity.
  - apply forUp_rule; [apply volley_refl|].
    intros _ s1 Hs1. eapply volley_trans; [exact Hs1|]. destruct s1; reflexivity.
  - destruct s; reflexivity.
Qed.

(* give a name to the result of every call in the goal that runs a loop,
   with its footprint as a premise; the calls are taken as they are found,
   the premises stay in the goal until all are named *)
Ltac name_call t lem := generalize lem; generalize t; intro.

Ltac name_calls :=
  repeat match goal with
  | |- context [spawnBlood ?x ?y ?n ?s] =>
      name_call (spawnBlood x y n s) (fx_spawnBlood x y n s)
  | |- context [spawnMuzzle ?x ?y ?a ?s] =>
      name_call (spawnMuzzle x y a s) (fx_spawnMuzzle x y a s)
  | |- context [explosionBurst ?x ?y ?s] =>
      name_call (explosionBurst x y s) (fx_explosionBurst x y s)
  | |- context [emitProjectiles ?w ?a ?s] =>
      name_call (emitProjectiles w a s) (volley_emitProjectiles w a s)
  | |- context [autoReload ?s] =>
      name_call (autoReload s) (reloadStart_autoReload s)
  | |- context [startReload ?s] =>
      name_call (startReload s) (reloadStart_startReload s)
  end; intros.

(* all that the footprints in the context say *)
Ltac project_all :=
  repeat match goal with
  | H : fx _ _ |- _ => project H; clear H
  | H : blast _ _ |- _ => project H; clear H
  | H : volley _ _ |- _ => project H; clear H
  | H : reloadStart _ _ |- _ => project H; clear H
  | H : drew _ _ |- _ => project H; clear H
  | H : waveFx _ _ |- _ => project H; clear H
  | H : shotFx _ _ |- _ => project H; clear H
  | H : inputFx _ _ |- _ => project H; clear H
  end.

(** C1: when a call of shootAtMouse spawns a bullet, the reloading flag was
    false and the current weapon's ammo was positive; after the call the
    weapon table is the old one with that weapon's ammo lowered by exactly
    1, which is not negative, every other weapon being as before; and when
    the reloading flag is true the call changes nothing at all *)
Theorem fire_decrements_ammo now s :
  (bullets (shootAtMouse now s) <> bullets s ->
     reloading s = false /\
     exists w, weapons s !! currentWeaponKey s = Some w /\
       weapons (shootAtMouse now s)
         = <[currentWeaponKey s := set_ammo (ammo w - 1) w]> (weapons s) /\
       0 <= ammo w - 1) /\
  (reloading s = true -> shootAtMouse now s = s).
Proof.
  unfold shootAtMouse.
  destruct (negb (gameStarted s) || gameOver s) eqn:Hgo.
  { split; [intros Hne; contradiction|reflexivity]. }
  destruct (weapons s !! currentWeaponKey s) as [w|] eqn:Hw.
  2:{ split; [intros Hne; contradiction|reflexivity]. }
  destruct (negb (owned w)).
  { split; [intros Hne; contradiction|reflexivity]. }
  destruct (reloading s) eqn:Hrel.
  { split; [intros Hne; contradiction|reflexivity]. }
  split; [|discriminate].
  destruct (ammo w <=? 0) eqn:Hammo.
  { name_calls. project_all. congruence. }
  destruct (now - lastShotAt s <? fireRate w).
  { intros Hne; contradiction. }
  intros _. split; [reflexivity|]. exists w. split; [reflexivity|].
  split; [|lia]. ssimpl. name_calls.
  destruct (ammo w - 1 <=? 0); project_all; ssimpl; congruence.
Qed.

(** ** Waves *)

Lemma waveFx_refl s : waveFx s s.
Proof. destruct s; reflexivity. Qed.

Lemma waveFx_trans s1 s2 s3 : waveFx s1 s2 -> waveFx s2 s3 -> waveFx s1 s3.
Proof.
  unfold waveFx. intros H12 H23. rewrite H23, H12. destruct s1; reflexivity.
Qed.

(* what spawnEnemy pushes *)
Lemma spawnEnemy_spec type s :
  waveFx s (spawnEnemy type s) /\
  exists e, enemies (spawnEnemy type s) = enemies s ++ [e] /\
    e_type e = type /\
    (type = boss -> e_hp e = 20 + level s * 4).
Proof.
  unfold spawnEnemy, rand, Math_random.
  destruct (ffloor _ =? 0); [|destruct (ffloor _ =? 1); [|destruct (ffloor _ =? 2);
    [|destruct (ffloor _ =? 3)]]];
  (split; [destruct s; reflexivity|]);
  eexists; (split; [reflexivity|]); destruct type; split; (reflexivity || discriminate || (intros _; reflexivity)).
Qed.

Lemma forUp_rule_idx {St} (I : nat -> St -> Prop) (body : nat -> St -> St) i n (s : St) :
  I i s -> (forall j (s : St), I j s -> I (S j) (body j s)) ->
  I (i + n)%nat (forUp body i n s).
Proof.
  intros Hs Hbody. revert i s Hs.
  induction n as [|n IH]; intros i s Hs; simpl.
  - replace (i + 0)%nat with i by lia. exact Hs.
  - replace (i + S n)%nat with (S i + n)%nat by lia. apply IH, Hbody, Hs.
Qed.

Lemma spawnWaveBody_spec j s :
  exists t s1, spawnWaveBody j s = spawnEnemy t s1 /\ drew s s1 /\
    t <> bomber /\ (Z.rem (level s) 5 = 0 -> j = 0%nat -> t = boss).
Proof.
  unfold spawnWaveBody, Math_random.
  destruct (Z.rem (level s) 5 =? 0) eqn:Hrem; [destruct j as [|j]|]; simpl.
  - exists boss, s. split; [reflexivity|]. split; [destruct s; reflexivity|].
    split; [discriminate|auto].
  - destruct (_ <? num 0.55)%F; [|destruct (_ <? num 0.75)%F; [|destruct (_ <? num 0.88)%F]];
      eexists _, _; (split; [reflexivity|]); (split; [destruct s; reflexivity|]);
      (split; [discriminate|intros _; discriminate]).
  - apply Z.eqb_neq in Hrem.
    destruct (_ <? num 0.55)%F; [|destruct (_ <? num 0.75)%F; [|destruct (_ <? num 0.88)%F]];
      eexists _, _; (split; [reflexivity|]); (split; [destruct s; reflexivity|]);
      (split; [discriminate|intros Hz; contradiction]).
Qed.

Lemma spawnWaveBody_inv s0 j s :
  waveInv s0 j s -> waveInv s0 (S j) (spawnWaveBody j s).
Proof.
  intros (Hfx & Hlen & Hnb & Hboss).
  destruct (spawnWaveBody_spec j s) as (t & s1 & -> & Hs1 & Ht & Hfirst).
  destruct (spawnEnemy_spec t s1) as (Hfx2 & e & Hes & Hty & Hhp).
  revert Hfx2 Hes. generalize (spawnEnemy t s1). intros s2 Hfx2 Hes.
  assert (Hes1 : enemies s1 = enemies s) by (project Hs1; assumption).
  assert (Hl1 : level s1 = level s) by (project Hs1; assumption).
  assert (Hl : level s = level s0) by (project Hfx; assumption).
  unfold waveInv, noBomber. rewrite Hes, Hes1. split; [|split; [|split]].
  - eapply waveFx_trans; [exact Hfx|]. eapply waveFx_trans; [|exact Hfx2].
    unfold waveFx, drew in *. rewrite Hs1. destruct s; reflexivity.
  - rewrite length_app, Hlen. simpl. lia.
  - apply Forall_app. split; [exact Hnb|]. constructor; [congruence|constructor].
  - intros Hrem _. destruct j as [|j].
    + destruct (enemies s); [|discriminate]. exists e, []. split; [reflexivity|].
      rewrite Hl in Hfirst. specialize (Hfirst Hrem eq_refl). subst t.
      split; [exact Hty|]. rewrite Hhp, Hl1, Hl; reflexivity.
    + destruct (Hboss Hrem ltac:(lia)) as (e0 & rest & Hr & Hb0 & Hh0).
      exists e0, (rest ++ [e]). rewrite Hr. auto.
Qed.

Lemma spawnWave_spec s :
  waveFx s (spawnWave s) /\
  length (enemies (spawnWave s)) = Z.to_nat (waveCount s) /\
  noBomber (spawnWave s) /\
  (Z.rem (level s) 5 = 0 -> (1 <= Z.to_nat (waveCount s))%nat ->
   bossFirst (level s) (enemies (spawnWave s))).
Proof.
  unfold spawnWave.
  assert (Hc : waveCount (set_enemies [] s) = waveCount s) by reflexivity.
  rewrite Hc.
  pose proof (forUp_rule_idx (waveInv (set_enemies [] s)) spawnWaveBody 0
                (Z.to_nat (waveCount s)) (set_enemies [] s)) as Hloop.
  destruct Hloop as (Hfx & Hlen & Hnb & Hboss).
  - split; [apply waveFx_refl|]. split; [reflexivity|]. split; [constructor|].
    intros _ Hj. lia.
  - intros j s1. apply spawnWaveBody_inv.
  - split; [|split; [exact Hlen|split; [exact Hnb|exact Hboss]]].
    eapply waveFx_trans; [|exact Hfx]. destruct s; reflexivity.
Qed.

(** C3: spawnWave replaces the enemy list by a list of exactly
    enemiesToSpawn + floor(level * 1.2) enemies (for a level of at least 1
    and a quota that is not negative, as in every game), and when the level
    is a multiple of 5 the first of them is a boss with 20 + 4 * level hit
    points *)
Theorem spawnWave_count_and_boss s :
  1 <= level s -> 0 <= enemiesToSpawn s ->
  Z.of_nat (length (enemies (spawnWave s)))
    = enemiesToSpawn s + (level s * 12) / 10 /\
  (level s mod 5 = 0 ->
   exists e rest, enemies (spawnWave s) = e :: rest /\
     e_type e = boss /\ e_hp e = 20 + 4 * level s).
Proof.
  intros Hl Hq. destruct (spawnWave_spec s) as (_ & Hlen & _ & Hboss).
  assert (Hc : 1 <= waveCount s).
  { unfold waveCount. assert (1 <= level s * 12 / 10); [|lia].
    apply Z.div_le_lower_bound; lia. }
  split.
  - rewrite Hlen, Z2Nat.id by lia. reflexivity.
  - intros Hmod. destruct Hboss as (e & rest & He & Hty & Hhp).
    + rewrite Z.rem_mod_nonneg by lia. exact Hmod.
    + lia.
    + exists e, rest. split; [exact He|]. split; [exact Hty|]. rewrite Hhp. lia.
Qed.

(* two states with the same globals are the same state *)
Lemma state_ext s s' :
  gameStarted s' = gameStarted s ->
  gameOver s' = gameOver s ->
  score s' = score s ->
  coins s' = coins s ->
  level s' = level s ->
  enemiesToSpawn s' = enemiesToSpawn s ->
  player s' = player s ->
  bullets s' = bullets s ->
  enemies s' = enemies s ->
  particles s' = particles s ->
  pickups s' = pickups s ->
  weapons s' = weapons s ->
  currentWeaponKey s' = currentWeaponKey s ->
  lastShotAt s' = lastShotAt s ->
  reloading s' = reloading s ->
  keys s' = keys s ->
  mouse s' = mouse s ->
  mouseDown s' = mouseDown s ->
  lastT s' = lastT s ->
  pickupSpawnTimer s' = pickupSpawnTimer s ->
  randomCalls s' = randomCalls s ->
  sfxLog s' = sfxLog s ->
  timers s' = timers s ->
  alerts s' = alerts s ->
  frames s' = frames s ->
  s' = s.
Proof. destruct s, s'; simpl; intros; subst; reflexivity. Qed.

(* close a footprint goal from the footprints in the context *)
Ltac footprint :=
  project_all;
  try unfold fx; try unfold blast; try unfold volley; try unfold reloadStart;
  try unfold drew; try unfold waveFx; try unfold shotFx; try unfold inputFx;
  apply state_ext; ssimpl; congruence.

Lemma shootAtMouse_spec now s :
  shotFx s (shootAtMouse now s) /\
  (weapons (shootAtMouse now s) = weapons s \/
   exists w, weapons s !! currentWeaponKey s = Some w /\ 0 < ammo w /\
     weapons (shootAtMouse now s)
       = <[currentWeaponKey s := set_ammo (ammo w - 1) w]> (weapons s)).
Proof.
  assert (Hid : shotFx s s) by (destruct s; reflexivity).
  unfold shootAtMouse.
  destruct (negb (gameStarted s) || gameOver s); [auto|].
  destruct (weapons s !! currentWeaponKey s) as [w|] eqn:Hw; [|auto].
  destruct (negb (owned w)); [auto|].
  destruct (reloading s) eqn:Hrel; [auto|].
  destruct (ammo w <=? 0) eqn:Hammo.
  { name_calls. split; [footprint|]. left. project_all. congruence. }
  destruct (now - lastShotAt s <? fireRate w); [auto|].
  ssimpl. name_calls. split.
  - destruct (ammo w - 1 <=? 0); footprint.
  - right. exists w. split; [reflexivity|]. split; [lia|].
    destruct (ammo w - 1 <=? 0); project_all; ssimpl; congruence.
Qed.

(** ** Ammo stays within bounds *)

Lemma ammoInv_insert s k w :
  ammoInv s -> ammoOk w -> map_Forall (fun _ w => ammoOk w) (<[k := w]> (weapons s)).
Proof. intros Hs Hw. apply map_Forall_insert_2; assumption. Qed.

Lemma ammoInv_shootAtMouse now s : ammoInv s -> ammoInv (shootAtMouse now s).
Proof.
  intros Hs. destruct (shootAtMouse_spec now s) as (_ & [Hw | (w & Hw & Hpos & Hw')]);
    unfold ammoInv; rewrite ?Hw, ?Hw'; [exact Hs|].
  apply ammoInv_insert; [exact Hs|].
  specialize (Hs _ _ Hw). unfold ammoOk in *; simpl in *. lia.
Qed.

Lemma ammoInv_reloadDone k s : ammoInv s -> ammoInv (reloadDone k s).
Proof.
  intros Hs. unfold reloadDone, ammoInv.
  destruct (weapons s !! k) as [w|] eqn:Hw; ssimpl; [|exact Hs].
  apply ammoInv_insert; [exact Hs|].
  specialize (Hs _ _ Hw). unfold ammoOk in *; simpl in *. lia.
Qed.

Lemma ammoInv_timerFires i s : ammoInv s -> ammoInv (timerFires i s).
Proof.
  intros Hs. unfold timerFires. destruct (timers s !! i) as [[k d]|]; [|exact Hs].
  apply ammoInv_reloadDone; exact Hs.
Qed.

Lemma forDown_final {St} (R : St -> Prop) (body : nat -> St -> flow St) n (s : St) :
  R s ->
  (forall i (s : St), R s ->
     match body i s with Continue s' | Break s' | Raise s' => R s' end) ->
  R (final (forDown body n s)).
Proof.
  intros Hs Hbody.
  apply (forDown_rule (fun _ => R) (fun o => R (final o))); [exact Hs| |auto].
  intros i s1 Hs1. specialize (Hbody i s1 Hs1). destruct (body i s1); exact Hbody.
Qed.

Lemma ammoInv_collectPickups dt s : ammoInv s -> ammoInv (final (collectPickups dt s)).
Proof.
  intros Hs. unfold collectPickups. apply forDown_final; [exact Hs|].
  clear s Hs. intros i s Hs. unfold collectPickupsBody.
  destruct (pickups s !! i) as [pk|]; [|exact Hs]. ssimpl.
  destruct (_ <? num 20)%F; [|exact Hs].
  destruct (bool_decide (pk_type pk = coin)), (bool_decide (pk_type pk = ammoBox)); ssimpl;
    try exact Hs;
    (destruct (weapons s !! currentWeaponKey s) as [w|] eqn:Hw; ssimpl; [|exact Hs];
     unfold ammoInv; ssimpl; apply ammoInv_insert; [exact Hs|];
     specialize (Hs _ _ Hw); unfold ammoOk in *; simpl in *; lia).
Qed.

Lemma waveFx_spawnWave s : waveFx s (spawnWave s).
Proof. apply spawnWave_spec. Qed.

Lemma ammoInv_levelProgression s : ammoInv s -> ammoInv (levelProgression s).
Proof.
  intros Hs. unfold levelProgression.
  destruct (_ && _); [|exact Hs].
  generalize (waveFx_spawnWave (set_enemiesToSpawn (enemiesToSpawn (set_level (level s + 1) s) + 2)
                                  (set_level (level s + 1) s))).
  generalize (spawnWave (set_enemiesToSpawn (enemiesToSpawn (set_level (level s + 1) s) + 2)
                           (set_level (level s + 1) s))).
  intros s1 Hfp. ssimpl.
  assert (Hw : weapons s1 = weapons s) by (project Hfp; assumption).
  destruct (weapons s1 !! currentWeaponKey s1) as [cw|] eqn:Hcw; unfold ammoInv; ssimpl;
    rewrite Hw; [|exact Hs].
  apply ammoInv_insert; [exact Hs|].
  rewrite Hw in Hcw. specialize (Hs _ _ Hcw). unfold ammoOk, refillAmount in *; simpl in *.
  assert (0 <= maxAmmo cw * 2 / 10) by (apply Z.div_pos; lia). lia.
Qed.

(** C6: if every weapon has 0 <= ammo <= maxAmmo, this is still so after a
    call of shootAtMouse, after a reload timeout has run, after the pickup
    pass of a frame (which collects ammo pickups) and after the level-up
    refill *)
Theorem ammo_stays_within_bounds now i dt s :
  ammoInv s ->
  ammoInv (shootAtMouse now s) /\
  ammoInv (timerFires i s) /\
  ammoInv (final (collectPickups dt s)) /\
  ammoInv (levelProgression s).
Proof.
  intros Hs. split; [apply ammoInv_shootAtMouse, Hs|].
  split; [apply ammoInv_timerFires, Hs|].
  split; [apply ammoInv_collectPickups, Hs|apply ammoInv_levelProgression, Hs].
Qed.

(** ** Walls *)

(** C8 (amended): when the player overlaps a wall, each axis is resolved on
    its own and no penetration depths are compared: on an axis where the
    centre lies strictly before the wall's low edge the player is put at
    that edge minus radius minus 1, where it lies strictly beyond the high
    edge at that edge plus radius plus 1, and where it lies within the
    wall's extent the coordinate is kept; nothing else of the player
    changes *)
Theorem wall_pushout_per_axis (p : Player F) (w : Wall F) :
  circleRectCollision (p_x p) (p_y p) (p_r p) (wl_x w) (wl_y w) (wl_w w) (wl_h w) = true ->
  let p' := avoidWall p w in
  ((p_x p <? wl_x w)%F = true -> p_x p' = (wl_x w - p_r p - num 1)%F) /\
  ((p_x p <? wl_x w)%F = false -> (p_x p >? wl_x w + wl_w w)%F = true ->
     p_x p' = (wl_x w + wl_w w + p_r p + num 1)%F) /\
  ((p_x p <? wl_x w)%F = false -> (p_x p >? wl_x w + wl_w w)%F = false ->
     p_x p' = p_x p) /\
  ((p_y p <? wl_y w)%F = true -> p_y p' = (wl_y w - p_r p - num 1)%F) /\
  ((p_y p <? wl_y w)%F = false -> (p_y p >? wl_y w + wl_h w)%F = true ->
     p_y p' = (wl_y w + wl_h w + p_r p + num 1)%F) /\
  ((p_y p <? wl_y w)%F = false -> (p_y p >? wl_y w + wl_h w)%F = false ->
     p_y p' = p_y p) /\
  p_r p' = p_r p /\ p_speed p' = p_speed p /\
  p_maxHp p' = p_maxHp p /\ p_hp p' = p_hp p.
Proof.
  intros Hhit p'. subst p'. unfold avoidWall. rewrite Hhit. simpl.
  repeat split; intros; repeat match goal with H : _ = _ |- _ => rewrite H end; reflexivity.
Qed.

(** ** What a frame keeps *)

Lemma forDown_preorder {St} (R : St -> St -> Prop) (body : nat -> St -> flow St) :
  (forall s : St, R s s) ->
  (forall s1 s2 s3 : St, R s1 s2 -> R s2 s3 -> R s1 s3) ->
  (forall i (s : St), R s (flowState (body i s))) ->
  forall n (s : St), R s (final (forDown body n s)).
Proof.
  intros Hrefl Htrans Hbody n s.
  apply (forDown_rule (fun _ (t : St) => R s t) (fun o => R s (final o))).
  - apply Hrefl.
  - intros i s1 Hs1. specialize (Hbody i s1).
    destruct (body i s1); simpl in *; eapply Htrans; eauto.
  - auto.
Qed.

Lemma steady_refl s : steady s s.
Proof. constructor; auto; try lia. intros _ Hp. split; [exact Hp|lia]. Qed.

Lemma steady_trans s1 s2 s3 : steady s1 s2 -> steady s2 s3 -> steady s1 s3.
Proof.
  intros [] []. constructor; try congruence; try lia; auto.
  intros Hr Hp. destruct (st_coins0 Hr Hp) as [Hp2 Hc]. destruct (st_coins1 Hr Hp2). split; [auto|lia].
Qed.

(* the enemies of [s'] are enemies of [s], up to position, health and
   spitting time; the weapons, the pickups and the coins are those of [s] *)
Lemma steady_intro s s' :
  gameStarted s' = gameStarted s -> gameOver s' = gameOver s ->
  level s' = level s -> enemiesToSpawn s' = enemiesToSpawn s ->
  p_maxHp (player s') = p_maxHp (player s) ->
  p_hp (player s') <= p_hp (player s) ->
  weapons s' = weapons s ->
  (noBomber s -> noBomber s') ->
  pickups s' = pickups s -> coins s' = coins s ->
  steady s s'.
Proof.
  intros Hgs Hgo Hl Hq Hm Hh Hw Hnb Hpk Hc. constructor; auto.
  - unfold ammoInv. rewrite Hw. auto.
  - unfold pickupsOk. rewrite Hpk. intros _ Hp. split; [exact Hp|lia].
Qed.

Lemma steady_fx s s' : fx s s' -> steady s s'.
Proof.
  intros Hfx. project Hfx. apply steady_intro; try congruence.
  - replace (player s') with (player s) by congruence. lia.
  - unfold noBomber. replace (enemies s') with (enemies s) by congruence. auto.
Qed.

Lemma floor3_ok n : randomOk -> 0 <= ffloor (random n * num 3)%F.
Proof. intros Hr. exact (Hr n 3 eq_refl). Qed.

Lemma floor5_ok n : randomOk -> 0 <= ffloor (random n * num 5)%F.
Proof. intros Hr. exact (Hr n 5 eq_refl). Qed.

Lemma Forall_omap {A B} (P : A -> Prop) (Q : B -> Prop) (f : A -> option B) (l : list A) :
  (forall a b, f a = Some b -> P a -> Q b) -> Forall P l -> Forall Q (omap f l).
Proof.
  intros Hf. induction 1 as [|a l Ha Hl IH]; [constructor|].
  change (omap f (a :: l)) with (match f a with Some b => b :: omap f l | None => omap f l end).
  destruct (f a) eqn:Hfa; [constructor; eauto|exact IH].
Qed.

Lemma afterBlast_type x y sc lvl e e' :
  afterBlast x y sc lvl e = Some e' -> e_type e' = e_type e.
Proof.
  unfold afterBlast. destruct (inBlast x y sc e); [destruct (_ <=? 0)|];
    intros [= <-]; reflexivity.
Qed.

Lemma explode_steady x y sc s :
  exists s', explode x y sc s = Done s' /\ blast s s' /\ steady s s' /\
    (length (enemies s') <= length (enemies s))%nat.
Proof.
  destruct (explode_spec x y sc s) as (s' & Hrun & Hb & Hes & new & Hpk & Hval & _).
  exists s'. split; [exact Hrun|]. split; [exact Hb|]. split.
  - project Hb. constructor; try congruence.
    + replace (player s') with (player s) by congruence. lia.
    + unfold ammoInv. replace (weapons s') with (weapons s) by congruence. auto.
    + unfold noBomber. rewrite Hes. apply Forall_omap.
      intros a b Hab Ha. rewrite (afterBlast_type _ _ _ _ _ _ Hab). exact Ha.
    + intros Hr Hp. split; [|lia]. unfold pickupsOk. rewrite Hpk.
      apply Forall_app. split; [exact Hp|].
      eapply Forall_impl; [exact Hval|]. intros pk [n Hn]. rewrite Hn.
      pose proof (floor5_ok n Hr). lia.
  - rewrite Hes. clear. induction (enemies s) as [|e l IH]; [reflexivity|].
    change (omap ?f (e :: l)) with (match f e with Some b => b :: omap f l | None => omap f l end).
    destruct (afterBlast x y sc (level s) e); simpl; lia.
Qed.

(* name the result of the explosions in the goal *)
Ltac name_explode :=
  repeat match goal with
  | |- context [explode ?x ?y ?sc ?s] =>
      let s' := fresh "s" in
      let Hrun := fresh "Hrun" in
      destruct (explode_steady x y sc s) as (s' & Hrun & ? & ? & ?);
      rewrite Hrun; clear Hrun
  end.

(* a footprint goal between a state and explicit writes to it *)
Ltac footprint_refl :=
  try unfold fx; try unfold blast; try unfold volley; try unfold reloadStart;
  try unfold drew; try unfold waveFx; try unfold shotFx; try unfold inputFx;
  apply state_ext; reflexivity.

(* expose the calls: unfold the lets and the draws, and nothing else *)
Ltac prep := cbv beta iota zeta delta [rand Math_random].

(* the enemy list: push the known lists through *)
Ltac enemy_lists :=
  repeat match goal with
  | E : enemies ?a = _ |- context [enemies ?a] => rewrite E
  end; ssimpl.

(* health: push the known players through *)
Ltac players :=
  repeat match goal with
  | E : player ?a = _ |- context [player ?a] => rewrite E
  end; ssimpl.

(* [steady] between a state and a later one that has the same weapons,
   pickups and coins *)
Ltac steady_frame :=
  unfold flowState; project_all;
  apply steady_intro; unfold noBomber; ssimpl; try congruence;
  try (players; (reflexivity || lia));
  try (intros Hnb; enemy_lists; auto using Forall_delete).

Lemma updateParticlesBody_steady dt i s :
  steady s (flowState (updateParticlesBody dt i s)).
Proof.
  unfold updateParticlesBody. destruct (particles s !! i); [|apply steady_refl].
  ssimpl. destruct (_ >? _)%F; steady_frame.
Qed.

Lemma bulletsHitPlayerBody_steady i s :
  steady s (flowState (bulletsHitPlayerBody i s)).
Proof.
  unfold bulletsHitPlayerBody. destruct (bullets s !! i) as [b|]; [|apply steady_refl].
  destruct (_ && _); [|apply steady_refl].
  prep. name_calls. steady_frame.
Qed.

Lemma updateBulletsBody_steady dt i s :
  steady s (flowState (updateBulletsBody dt i s)).
Proof.
  unfold updateBulletsBody. destruct (bullets s !! i) as [b|]; [|apply steady_refl].
  ssimpl. destruct (existsb _ _).
  - destruct (b_rocket b).
    + name_explode. unfold flowState.
      eapply steady_trans; [|eapply steady_trans; [eassumption|]]; steady_frame.
    + steady_frame.
  - destruct (_ || _); steady_frame.
Qed.

(* the easy fields of [steady]; what is left is about ammo, bombers or coins *)
Ltac steady_fields :=
  unfold flowState; project_all;
  constructor; unfold noBomber, ammoInv; ssimpl; try congruence;
  try (players; (reflexivity || lia));
  try (intros Hnb; enemy_lists; solve [auto using Forall_delete]);
  try (intros Ham;
       repeat match goal with
       | E : weapons ?a = _ |- context [weapons ?a] => rewrite E
       end; ssimpl; solve [auto]);
  try (intros _ Hp; unfold pickupsOk in *; ssimpl;
       repeat match goal with
       | E : pickups ?a = _ |- context [pickups ?a] => rewrite E
       | E : coins ?a = _ |- context [coins ?a] => rewrite E
       end; ssimpl; split; [exact Hp|lia]).

Lemma randomOk_floor n k :
  randomOk -> 0 < k -> 0 <= ffloor (random n * num (inject_Z k))%F.
Proof. intros Hr Hk. apply Hr, Hk. Qed.

Lemma collectPickupsBody_steady dt i s :
  steady s (flowState (collectPickupsBody dt i s)).
Proof.
  unfold collectPickupsBody.
  destruct (pickups s !! i) as [pk|] eqn:Hpk; [|apply steady_refl]. ssimpl.
  assert (Hval : pickupsOk s -> 0 <= pk_val pk)
    by (intros Hp; exact (Forall_lookup_1 _ _ _ _ Hp Hpk)).
  assert (Hrest : pickupsOk s ->
            Forall (fun pk => 0 <= pk_val pk)
              (delete i (<[i := set_pk_age (orElse (pk_age pk) (num 0) + dt * num 1000)%F pk]>
                           (pickups s)))).
  { intros Hp. apply Forall_delete, Forall_insert; [exact Hp|]. exact (Hval Hp). }
  assert (Hage : pickupsOk s ->
            Forall (fun pk => 0 <= pk_val pk)
              (<[i := set_pk_age (orElse (pk_age pk) (num 0) + dt * num 1000)%F pk]>
                 (pickups s))).
  { intros Hp. apply Forall_insert; [exact Hp|]. exact (Hval Hp). }
  assert (Hmin : forall w, weapons s !! currentWeaponKey s = Some w ->
            ammoInv s -> ammoOk (set_ammo (Z.min (maxAmmo w) (ammo w + 8)) w)).
  { intros w Hw Ham. specialize (Ham _ _ Hw). unfold ammoOk in *; simpl in *. lia. }
  destruct (_ <? num 20)%F;
    [destruct (bool_decide (pk_type pk = coin)), (bool_decide (pk_type pk = ammoBox)); ssimpl;
     try (destruct (weapons s !! currentWeaponKey s) as [w|] eqn:Hw; ssimpl)|];
    steady_fields;
    first [ intros Ham; apply map_Forall_insert_2; [eapply Hmin; [reflexivity|exact Ham]|exact Ham]
          | intros _ Hp; unfold pickupsOk; ssimpl; pose proof (Hval Hp); split; [auto|lia] ].
Qed.

Lemma noBomber_insert (es : list (Enemy F)) i e e' :
  es !! i = Some e -> e_type e' = e_type e ->
  Forall (fun e => e_type e <> bomber) es ->
  Forall (fun e => e_type e <> bomber) (<[i := e']> es).
Proof.
  intros He Hty Hes. apply Forall_insert; [exact Hes|].
  rewrite Hty. exact (Forall_lookup_1 _ _ _ _ Hes He).
Qed.

(* the draws met in the goal are not negative *)
Ltac floors Hr :=
  repeat match goal with
  | |- context [ffloor (random ?n * num 3)%F] =>
      lazymatch goal with
      | _ : 0 <= ffloor (random n * num 3)%F |- _ => fail
      | _ => pose proof (floor3_ok n Hr)
      end
  end.

Lemma spawnPeriodicPickups_steady dt s : steady s (spawnPeriodicPickups dt s).
Proof.
  unfold spawnPeriodicPickups. ssimpl.
  destruct (_ >? num 6)%F; [destruct (_ <? num 0.6)%F|]; ssimpl;
    steady_fields.
  intros Hr Hp. unfold pickupsOk. ssimpl. split; [|lia].
  apply Forall_app. split; [exact Hp|]. constructor; [|constructor]. ssimpl.
  floors Hr. lia.
Qed.

Lemma avoidWall_hp p w :
  p_hp (avoidWall p w) = p_hp p /\ p_maxHp (avoidWall p w) = p_maxHp p.
Proof. unfold avoidWall. destruct (circleRectCollision _ _ _ _ _ _ _); auto. Qed.

Lemma movePlayer_steady dt s : steady s (movePlayer dt s).
Proof. unfold movePlayer. steady_fields. Qed.

Lemma avoidWalls_steady s : steady s (avoidWalls s).
Proof.
  unfold avoidWalls.
  assert (Hp : p_hp (foldl avoidWall (player s) walls) = p_hp (player s) /\
               p_maxHp (foldl avoidWall (player s) walls) = p_maxHp (player s)).
  { generalize (player s). induction walls as [|w ws IH]; intros p; [auto|].
    simpl. destruct (IH (avoidWall p w)) as [-> ->]. apply avoidWall_hp. }
  destruct Hp as [Hh Hm]. revert Hh Hm. generalize (foldl avoidWall (player s) walls).
  intros p Hh Hm. steady_fields.
Qed.

Lemma shootAtMouse_steady now s : steady s (shootAtMouse now s).
Proof.
  destruct (shootAtMouse_spec now s) as [Hfp _].
  pose proof (ammoInv_shootAtMouse now s) as Ham.
  revert Hfp Ham. generalize (shootAtMouse now s). intros s' Hfp Ham.
  steady_fields. exact Ham.
Qed.

(* the coin left by a zombie that reached the player, or by one shot dead *)
Ltac coin_goal :=
  intros Hr Hp; unfold pickupsOk in *; ssimpl;
  repeat match goal with
  | E : pickups ?a = _ |- context [pickups ?a] => rewrite E
  | E : coins ?a = _ |- context [coins ?a] => rewrite E
  end; ssimpl; floors Hr;
  (split;
   [ apply Forall_app; (split; [exact Hp|]); (constructor; [|constructor]); ssimpl; lia
   | lia ]).

Lemma updateEnemiesBody_steady dt now i s :
  steady s (flowState (updateEnemiesBody dt now i s)).
Proof.
  unfold updateEnemiesBody.
  destruct (enemies s !! i) as [e|] eqn:He; [|apply steady_refl].
  assert (Hins : forall e', e_type e' = e_type e -> noBomber s ->
            Forall (fun e => e_type e <> bomber) (<[i := e']> (enemies s))).
  { intros e' Hty Hnb. eapply noBomber_insert; eauto. }
  destruct (spits now e); prep.
  all: destruct (touches _ _); [|steady_fields; intros Hnb; apply Hins; auto].
  all: name_calls; ssimpl.
  all: destruct (bool_decide (e_type e = bomber)) eqn:Hb.
  all: name_explode; ssimpl.
  all: try (eapply steady_trans;
            [|eapply steady_trans; [eassumption|]]).
  all: try destruct (_ <? num 0.5)%F; ssimpl.
  all: steady_fields.
  all: first [ coin_goal
             | intros Hnb; enemy_lists; try apply Forall_delete; apply Hins; auto
             | idtac ].
  all: players; unfold contactDamage;
    repeat match goal with |- context [if ?c then _ else _] => destruct c end; lia.
Qed.

Lemma hitScanBody_steady i e j s :
  enemies s !! i = Some e ->
  steady s (flowState (hitScanBody i e j s)).
Proof.
  intros He. unfold hitScanBody.
  destruct (bullets s !! j) as [b|]; [|apply steady_refl].
  assert (Hins : forall e', e_type e' = e_type e -> noBomber s ->
            Forall (fun e => e_type e <> bomber) (<[i := e']> (enemies s))).
  { intros e' Hty Hnb. eapply noBomber_insert; eauto. }
  destruct (negb _); [apply steady_refl|].
  destruct (overlaps e b); [|apply steady_refl].
  prep. name_calls. ssimpl.
  destruct (_ <=? 0); ssimpl; [|steady_fields].
  destruct (bool_decide (e_type e = boss)); [|destruct (bool_decide (e_type e = tank))]; ssimpl.
  all: destruct (bool_decide (e_type e = bomber)) eqn:Hb; ssimpl.
  all: name_explode; ssimpl.
  all: try (eapply steady_trans;
            [|eapply steady_trans; [eassumption|]]).
  all: steady_fields.
  all: first [ coin_goal
             | intros Hnb; enemy_lists; try apply Forall_delete; apply Hins; auto ].
Qed.

Lemma hitScanBody_continue i e j s :
  match hitScanBody i e j s with Continue s' => s' = s | _ => True end.
Proof.
  unfold hitScanBody. destruct (bullets s !! j) as [b|]; [|exact I].
  destruct (negb _); [reflexivity|].
  destruct (overlaps e b); [|reflexivity].
  prep. name_calls. ssimpl. destruct (_ <=? 0); [|exact I].
  destruct (bool_decide (e_type e = boss)); [|destruct (bool_decide (e_type e = tank))]; ssimpl;
    destruct (bool_decide (e_type e = bomber)); name_explode; exact I.
Qed.

Lemma hitScan_steady i e n s :
  enemies s !! i = Some e ->
  steady s (final (forDown (hitScanBody i e) n s)).
Proof.
  intros He.
  apply (forDown_rule (fun _ s' => s' = s) (fun o => steady s (final o))).
  - reflexivity.
  - intros j s1 ->. pose proof (hitScanBody_steady i e j s He) as Hst.
    pose proof (hitScanBody_continue i e j s) as Hc.
    destruct (hitScanBody i e j s); simpl in *; try exact Hst. exact Hc.
  - intros s1 ->. apply steady_refl.
Qed.

Lemma final_lift {St} (o : outcome St) : flowState (lift o) = final o.
Proof. destruct o; reflexivity. Qed.

Lemma bulletsHitEnemiesBody_steady i s :
  steady s (flowState (bulletsHitEnemiesBody i s)).
Proof.
  unfold bulletsHitEnemiesBody.
  destruct (enemies s !! i) as [e|] eqn:He; [|apply steady_refl].
  rewrite final_lift. apply hitScan_steady, He.
Qed.

(** Every pass of a frame keeps the session steady. *)
Lemma updateBullets_steady dt s : steady s (final (updateBullets dt s)).
Proof.
  unfold updateBullets. apply forDown_preorder;
    [apply steady_refl|apply steady_trans|apply updateBulletsBody_steady].
Qed.

Lemma updateEnemies_steady dt now s : steady s (final (updateEnemies dt now s)).
Proof.
  unfold updateEnemies. apply forDown_preorder;
    [apply steady_refl|apply steady_trans|apply updateEnemiesBody_steady].
Qed.

Lemma bulletsHitEnemies_steady s : steady s (final (bulletsHitEnemies s)).
Proof.
  unfold bulletsHitEnemies. apply forDown_preorder;
    [apply steady_refl|apply steady_trans|apply bulletsHitEnemiesBody_steady].
Qed.

Lemma bulletsHitPlayer_steady s : steady s (final (bulletsHitPlayer s)).
Proof.
  unfold bulletsHitPlayer. apply forDown_preorder;
    [apply steady_refl|apply steady_trans|apply bulletsHitPlayerBody_steady].
Qed.

Lemma updateParticles_steady dt s : steady s (final (updateParticles dt s)).
Proof.
  unfold updateParticles. apply forDown_preorder;
    [apply steady_refl|apply steady_trans|apply updateParticlesBody_steady].
Qed.

Lemma collectPickups_steady dt s : steady s (final (collectPickups dt s)).
Proof.
  unfold collectPickups. apply forDown_preorder;
    [apply steady_refl|apply steady_trans|apply collectPickupsBody_steady].
Qed.

(** ** The passes return *)

Lemma forDown_total {St} (P : St -> Prop) (len : St -> nat)
    (body : nat -> St -> flow St) n (s : St) :
  P s -> (n <= len s)%nat ->
  (forall i (s : St), P s -> (S i <= len s)%nat ->
     match body i s with
     | Continue t => P t /\ (i <= len t)%nat
     | Break _ => True
     | Raise _ => False
     end) ->
  exists t : St, forDown body n s = Done t.
Proof.
  intros Hs Hn Hbody.
  apply (forDown_rule (fun i (t : St) => P t /\ (i <= len t)%nat)
           (fun o => exists t : St, o = Done t)).
  - auto.
  - intros i s1 [Hs1 Hi]. specialize (Hbody i s1 Hs1 Hi).
    destruct (body i s1); [exact Hbody|eauto|contradiction].
  - eauto.
Qed.

Lemma updateBullets_total dt s : exists s', updateBullets dt s = Done s'.
Proof.
  unfold updateBullets.
  apply (forDown_total (fun _ => True) (fun s => length (bullets s))); [exact I|lia|].
  clear s. intros i s _ Hi. unfold updateBulletsBody.
  destruct (lookup_lt_is_Some_2 (bullets s) i) as [b ->]; [lia|].
  prep.
  assert (Hlen : (i <= length (delete i (<[i := set_b_pos (b_x b + b_vx b * dt)%F
                                     (b_y b + b_vy b * dt)%F b]> (bullets s))))%nat).
  { rewrite length_delete, length_insert; [lia|].
    apply lookup_lt_is_Some_2. rewrite length_insert. lia. }
  destruct (existsb _ _); [destruct (b_rocket _); [name_explode|]|destruct (_ || _)];
    ssimpl; (split; [exact I|]); project_all; ssimpl in *;
    try replace (bullets s0) with (<[i := set_b_pos (b_x b + b_vx b * dt)%F
                                     (b_y b + b_vy b * dt)%F b]> (bullets s)) by congruence;
    try exact Hlen.
  rewrite length_insert. lia.
Qed.

Lemma length_delete_insert {A} (l : list A) i x :
  (S i <= length l)%nat -> (i <= length (delete i (<[i := x]> l)))%nat.
Proof.
  intros Hi. rewrite length_delete, length_insert; [lia|].
  apply lookup_lt_is_Some_2. rewrite length_insert. lia.
Qed.

Lemma bulletsHitPlayer_total s : exists s', bulletsHitPlayer s = Done s'.
Proof.
  unfold bulletsHitPlayer.
  apply (forDown_total (fun _ => True) (fun s => length (bullets s))); [exact I|lia|].
  clear s. intros i s _ Hi. unfold bulletsHitPlayerBody.
  destruct (lookup_lt_is_Some_2 (bullets s) i) as [b ->]; [lia|].
  destruct (_ && _); [|split; [exact I|lia]].
  prep. name_calls. ssimpl. split; [exact I|]. project_all. ssimpl in *.
  replace (bullets s0) with (bullets s) by congruence.
  rewrite length_delete; [lia|]. apply lookup_lt_is_Some_2. lia.
Qed.

Lemma updateParticles_total dt s : exists s', updateParticles dt s = Done s'.
Proof.
  unfold updateParticles.
  apply (forDown_total (fun _ => True) (fun s => length (particles s))); [exact I|lia|].
  clear s. intros i s _ Hi. unfold updateParticlesBody.
  destruct (lookup_lt_is_Some_2 (particles s) i) as [p ->]; [lia|].
  ssimpl. destruct (_ >? _)%F; ssimpl; (split; [exact I|]).
  - apply length_delete_insert, Hi.
  - rewrite length_insert. lia.
Qed.

Lemma collectPickups_total dt s : exists s', collectPickups dt s = Done s'.
Proof.
  unfold collectPickups.
  apply (forDown_total (fun _ => True) (fun s => length (pickups s))); [exact I|lia|].
  clear s. intros i s _ Hi. unfold collectPickupsBody.
  destruct (lookup_lt_is_Some_2 (pickups s) i) as [pk ->]; [lia|].
  ssimpl. destruct (_ <? num 20)%F.
  - destruct (bool_decide (pk_type pk = coin)), (bool_decide (pk_type pk = ammoBox)); ssimpl;
      try destruct (weapons s !! currentWeaponKey s); ssimpl;
      (split; [exact I|apply length_delete_insert, Hi]).
  - ssimpl. split; [exact I|]. rewrite length_insert. lia.
Qed.

(** ** The enemy pass *)

Lemma touches_samePlace p p' e : samePlace p p' -> touches p' e = touches p e.
Proof. intros (Hx & Hy & Hr & _). unfold touches. rewrite Hx, Hy, Hr. reflexivity. Qed.

Lemma chase_samePlace dt p p' e : samePlace p p' -> chase dt p' e = chase dt p e.
Proof. intros (Hx & Hy & _). unfold chase. rewrite Hx, Hy. reflexivity. Qed.

Lemma advance_type dt now p e : e_type (advance dt now p e) = e_type e.
Proof. unfold advance. destruct (spits now e); reflexivity. Qed.

Lemma afterContact_at dt now p0 p e :
  samePlace p0 p ->
  afterContact dt now p0 e
    = (if touches p (chase dt p (if spits now e then set_e_lastSpit now e else e))
       then None
       else Some (chase dt p (if spits now e then set_e_lastSpit now e else e))) /\
  contactCost dt now p0 e
    = (if touches p (chase dt p (if spits now e then set_e_lastSpit now e else e))
       then contactDamage e else 0).
Proof.
  intros Hpl. unfold afterContact, contactCost, advance.
  rewrite <- (chase_samePlace dt _ _ _ Hpl), <- (touches_samePlace _ _ _ Hpl). auto.
Qed.

Lemma updateEnemiesBody_inv dt now s0 i s :
  noBomber s0 ->
  enemiesInv dt now s0 (S i) s ->
  match updateEnemiesBody dt now i s with
  | Continue s' => enemiesInv dt now s0 i s'
  | _ => False
  end.
Proof.
  intros Hnb (Hi & Hpl & Hes & Hhp).
  destruct (split_at (enemies s0) i Hi) as (e & He & Htake & Hdrop & Hlen).
  rewrite Htake, <- app_assoc in Hes. simpl in Hes.
  assert (Hty : e_type e <> bomber) by exact (Forall_lookup_1 _ _ _ _ Hnb He).
  unfold updateEnemiesBody.
  rewrite Hes, (slot_lookup _ _ _ i) by (symmetry; exact Hlen).
  unfold enemiesInv. rewrite Hdrop.
  assert (Hcons : forall f : Enemy F -> option (Enemy F),
            omap f (e :: drop (S i) (enemies s0))
            = match f e with
              | Some e' => e' :: omap f (drop (S i) (enemies s0))
              | None => omap f (drop (S i) (enemies s0))
              end) by reflexivity.
  rewrite Hcons. clear Hcons. simpl map. simpl foldr.
  destruct (afterContact_at dt now _ _ e Hpl) as [-> ->].
  assert (Hb : forall e1, e_type e1 = e_type e ->
            bool_decide (e_type (chase dt (player s) e1) = bomber) = false).
  { intros e1 H1. apply bool_decide_eq_false. simpl. congruence. }
  destruct (spits now e); prep.
  all: rewrite Hb by reflexivity.
  all: destruct (touches (player s) _) eqn:Ht.
  all: name_calls; ssimpl.
  all: try destruct (_ <? num 0.5)%F; ssimpl.
  all: project_all; ssimpl in *.
  all: (split; [lia|split; [|split]]).
  all: try (players; destruct Hpl as (? & ? & ? & ?); repeat split; ssimpl; assumption).
  all: try (enemy_lists; rewrite ?Hes;
            rewrite ?(slot_insert _ _ _ _ i), ?(slot_delete _ _ _ i) by (symmetry; exact Hlen);
            reflexivity).
  all: players; rewrite Hhp; unfold contactDamage; ssimpl; lia.
Qed.

(** The enemy pass of a frame, on a list without bombers: the pass returns;
    the enemies left are, in order, those that do not overlap the player
    once moved, each as moved; the player has lost the contact damage of
    the others and has not moved. *)
Lemma updateEnemies_spec dt now s :
  noBomber s ->
  exists s', updateEnemies dt now s = Done s' /\
    enemies s' = omap (afterContact dt now (player s)) (enemies s) /\
    p_hp (player s') = p_hp (player s)
                       - foldr Z.add 0 (map (contactCost dt now (player s)) (enemies s)) /\
    samePlace (player s) (player s').
Proof.
  intros Hnb. unfold updateEnemies.
  apply (forDown_rule (enemiesInv dt now s)
           (fun o => exists s', o = Done s' /\ _)).
  - split; [reflexivity|]. split; [repeat split|].
    rewrite take_ge, drop_ge by lia. simpl. rewrite app_nil_r. split; [reflexivity|lia].
  - intros i s1 Hinv. pose proof (updateEnemiesBody_inv dt now s i s1 Hnb Hinv) as Hb.
    destruct (updateEnemiesBody dt now i s1); [exact Hb|contradiction..].
  - intros s1 (_ & Hpl & Hes & Hhp). rewrite drop_0 in Hes, Hhp. simpl in Hes.
    exists s1. split; [reflexivity|]. auto.
Qed.


(** ** The bullet pass *)

Lemma delete_insert_same {A} (l : list A) i x : delete i (<[i := x]> l) = delete i l.
Proof.
  revert i. induction l as [|a l IH]; intros [|i]; simpl; try reflexivity.
  f_equal. apply IH.
Qed.

Lemma hitScan_spec i e n s :
  enemies s !! i = Some e -> e_type e <> bomber ->
  (n <= length (bullets s))%nat ->
  forDown (hitScanBody i e) n s = Done s \/
  exists j b s',
    bullets s !! j = Some b /\ b_from b = fromPlayer /\ overlaps e b = true /\
    forDown (hitScanBody i e) n s = Done s' /\
    bullets s' = delete j (bullets s) /\
    enemies s' = (if e_hp e - b_dmg b <=? 0 then delete i (enemies s)
                  else <[i := set_e_hp (e_hp e - b_dmg b) e]> (enemies s)).
Proof.
  intros He Hty Hn.
  apply (forDown_rule (fun j (t : State F) => t = s /\ (j <= length (bullets s))%nat)
           (fun o => o = Done s \/ exists j b s',
              bullets s !! j = Some b /\ b_from b = fromPlayer /\ overlaps e b = true /\
              o = Done s' /\
              bullets s' = delete j (bullets s) /\
              enemies s' = (if e_hp e - b_dmg b <=? 0 then delete i (enemies s)
                            else <[i := set_e_hp (e_hp e - b_dmg b) e]> (enemies s)))).
  - auto.
  - intros j t [-> Hj]. unfold hitScanBody.
    destruct (lookup_lt_is_Some_2 (bullets s) j) as [b Hb]; [lia|]. rewrite Hb.
    destruct (bool_decide (b_from b = fromPlayer)) eqn:Hfrom; simpl negb; cbv iota;
      [|split; [reflexivity|lia]].
    apply bool_decide_eq_true in Hfrom.
    destruct (overlaps e b) eqn:Hov; [|split; [reflexivity|lia]].
    assert (Hb' : bool_decide (e_type e = bomber) = false)
      by (apply bool_decide_eq_false; exact Hty).
    prep. name_calls. ssimpl. rewrite Hb'.
    destruct (e_hp e - b_dmg b <=? 0) eqn:Hd;
      [destruct (bool_decide (e_type e = boss)); [|destruct (bool_decide (e_type e = tank))]|];
      ssimpl; right; exists j, b; eexists; (split; [exact Hb|]); (split; [exact Hfrom|]);
      (split; [exact Hov|]); (split; [reflexivity|]);
      project_all; ssimpl; enemy_lists;
      (split; [congruence|]);
      rewrite ?delete_insert_same, ?Hd; reflexivity.
  - intros t [-> _]. left. reflexivity.
Qed.

Lemma bulletsHitEnemiesBody_inv s0 i s :
  noBomber s0 ->
  hitsInv s0 (S i) s ->
  match bulletsHitEnemiesBody i s with
  | Continue s' => hitsInv s0 i s'
  | _ => False
  end.
Proof.
  intros Hnb (Hi & hits & Hhits & Hes & Hperm).
  destruct (split_at (enemies s0) i Hi) as (e & He & Htake & Hdrop & Hlen).
  rewrite Htake, <- app_assoc in Hes. simpl in Hes.
  assert (Hty : e_type e <> bomber) by exact (Forall_lookup_1 _ _ _ _ Hnb He).
  assert (Hsi : enemies s !! i = Some e)
    by (rewrite Hes; apply slot_lookup; symmetry; exact Hlen).
  unfold bulletsHitEnemiesBody. rewrite Hsi.
  destruct (hitScan_spec i e (length (bullets s)) s Hsi Hty ltac:(lia))
    as [Hrun | (j & b & s' & Hb & Hfrom & Hov & Hrun & Hbs & Hens)];
    rewrite Hrun; simpl; (split; [lia|]).
  - exists (None :: hits). rewrite Hdrop. split; [constructor; [exact I|exact Hhits]|].
    split; [exact Hes|exact Hperm].
  - exists (Some b :: hits). rewrite Hdrop. split; [constructor; [split; assumption|exact Hhits]|].
    split.
    + rewrite Hens, Hes. simpl.
      destruct (e_hp e - b_dmg b <=? 0).
      * apply slot_delete. symmetry; exact Hlen.
      * apply slot_insert. symmetry; exact Hlen.
    + rewrite Hbs. simpl. rewrite Hperm.
      rewrite (delete_Permutation _ _ _ Hb) at 1. simpl.
      rewrite Permutation_middle. reflexivity.
Qed.

Lemma bulletsHitEnemies_spec s :
  noBomber s ->
  exists s' hits, bulletsHitEnemies s = Done s' /\
    Forall2 hitBy (enemies s) hits /\
    enemies s' = omap afterHit (zip (enemies s) hits) /\
    bullets s ≡ₚ bullets s' ++ omap id hits.
Proof.
  intros Hnb. unfold bulletsHitEnemies.
  apply (forDown_rule (hitsInv s)
           (fun o => exists s' hits, o = Done s' /\
              Forall2 hitBy (enemies s) hits /\
              enemies s' = omap afterHit (zip (enemies s) hits) /\
              bullets s ≡ₚ bullets s' ++ omap id hits)).
  - split; [reflexivity|]. exists []. rewrite take_ge, drop_ge by lia.
    simpl. rewrite !app_nil_r. split; [constructor|]. split; reflexivity.
  - intros i s1 Hinv. pose proof (bulletsHitEnemiesBody_inv s i s1 Hnb Hinv) as Hb.
    destruct (bulletsHitEnemiesBody i s1); [exact Hb|contradiction..].
  - intros s1 (_ & hits & Hhits & Hes & Hperm). rewrite drop_0 in Hhits, Hes.
    simpl in Hes. exists s1, hits. auto.
Qed.


(** ** A whole frame *)

Lemma levelProgression_spec s :
  noBomber s ->
  let s' := levelProgression s in
  gameStarted s' = gameStarted s /\ gameOver s' = gameOver s /\
  player s' = player s /\ pickups s' = pickups s /\
  level s <= level s' /\ enemiesToSpawn s <= enemiesToSpawn s' /\
  coins s <= coins s' /\ noBomber s'.
Proof.
  intros Hnb. unfold levelProgression.
  destruct (_ && _); [|repeat split; (reflexivity || lia || assumption)].
  prep.
  destruct (spawnWave_spec (set_enemiesToSpawn (enemiesToSpawn (set_level (level s + 1) s) + 2)
                              (set_level (level s + 1) s))) as (Hfp & _ & Hnb' & _).
  revert Hfp Hnb'.
  generalize (spawnWave (set_enemiesToSpawn (enemiesToSpawn (set_level (level s + 1) s) + 2)
                           (set_level (level s + 1) s))).
  intros s1 Hfp Hnb'. unfold noBomber in *. project_all. ssimpl in *.
  destruct (weapons s1 !! currentWeaponKey s1); ssimpl;
    repeat split; try congruence; try lia; assumption.
Qed.

Lemma gameOverCheck_spec s :
  let s' := gameOverCheck s in
  gameStarted s' = gameStarted s /\ player s' = player s /\
  gameOver s' = gameOver s || (p_hp (player s) <=? 0) /\
  level s' = level s /\ enemiesToSpawn s' = enemiesToSpawn s /\
  weapons s' = weapons s /\ enemies s' = enemies s /\
  pickups s' = pickups s /\ coins s' = coins s.
Proof.
  unfold gameOverCheck.
  destruct (p_hp (player s) <=? 0), (gameOver s) eqn:Hgo; simpl;
    repeat split; try reflexivity; exact Hgo.
Qed.

(* name a sub-state of the goal, with what is known of it *)
Ltac name_state t lem := generalize lem; generalize t; intros ? ?.

Lemma update_passes ts now s :
  noBomber s -> gameStarted s = true ->
  exists sp, steady s sp /\
    update ts now s = Done (requestFrame (gameOverCheck (levelProgression sp))).
Proof.
  intros Hnb Hgs. unfold update. cbv zeta.
  assert (H1 : steady s (set_lastT ts s)) by steady_frame.
  revert H1. generalize (set_lastT ts s). intros s1 H1.
  rewrite (st_gameStarted _ _ H1), Hgs. simpl negb. cbv iota.
  pose proof (movePlayer_steady (frameDt ts s) s1) as H2.
  revert H2. generalize (movePlayer (frameDt ts s) s1). intros s2 H2.
  pose proof (avoidWalls_steady s2) as H3.
  revert H3. generalize (avoidWalls s2). intros s3 H3.
  assert (H4 : steady s3 (if mouseDown s3 then shootAtMouse now s3 else s3))
    by (destruct (mouseDown s3); [apply shootAtMouse_steady|apply steady_refl]).
  revert H4. generalize (if mouseDown s3 then shootAtMouse now s3 else s3). intros s4 H4.
  assert (Hs4 : steady s s4) by (repeat (eapply steady_trans; [eassumption|]); apply steady_refl).
  clear H1 H2 H3 H4 s1 s2 s3.
  destruct (updateBullets_total (frameDt ts s) s4) as [s5 Hr].
  pose proof (updateBullets_steady (frameDt ts s) s4) as H5. rewrite Hr in H5 |- *.
  simpl in H5. cbn [andThen]. clear Hr.
  assert (Hs5 : steady s s5) by (eapply steady_trans; eassumption). clear Hs4 H5 s4.
  destruct (updateEnemies_spec (frameDt ts s) now s5 (st_noBomber _ _ Hs5 Hnb))
    as (s6 & Hr & _).
  pose proof (updateEnemies_steady (frameDt ts s) now s5) as H6. rewrite Hr in H6 |- *.
  simpl in H6. cbn [andThen]. clear Hr.
  assert (Hs6 : steady s s6) by (eapply steady_trans; eassumption). clear Hs5 H6 s5.
  destruct (bulletsHitEnemies_spec s6 (st_noBomber _ _ Hs6 Hnb)) as (s7 & hits & Hr & _).
  pose proof (bulletsHitEnemies_steady s6) as H7. rewrite Hr in H7 |- *.
  simpl in H7. cbn [andThen]. clear Hr hits.
  assert (Hs7 : steady s s7) by (eapply steady_trans; eassumption). clear Hs6 H7 s6.
  destruct (bulletsHitPlayer_total s7) as [s8 Hr].
  pose proof (bulletsHitPlayer_steady s7) as H8. rewrite Hr in H8 |- *.
  simpl in H8. cbn [andThen]. clear Hr.
  assert (Hs8 : steady s s8) by (eapply steady_trans; eassumption). clear Hs7 H8 s7.
  destruct (updateParticles_total (frameDt ts s) s8) as [s9 Hr].
  pose proof (updateParticles_steady (frameDt ts s) s8) as H9. rewrite Hr in H9 |- *.
  simpl in H9. cbn [andThen]. clear Hr.
  assert (Hs9 : steady s s9) by (eapply steady_trans; eassumption). clear Hs8 H9 s8.
  destruct (collectPickups_total (frameDt ts s) s9) as [s10 Hr].
  pose proof (collectPickups_steady (frameDt ts s) s9) as H10. rewrite Hr in H10 |- *.
  simpl in H10. cbn [andThen]. clear Hr.
  assert (Hs10 : steady s s10) by (eapply steady_trans; eassumption). clear Hs9 H10 s9.
  exists (spawnPeriodicPickups (frameDt ts s) s10). split; [|reflexivity].
  eapply steady_trans; [exact Hs10|apply spawnPeriodicPickups_steady].
Qed.

Lemma update_frame ts now s :
  noBomber s -> exists s', update ts now s = Done s' /\ frameStep s s'.
Proof.
  intros Hnb. destruct (gameStarted s) eqn:Hgs.
  - destruct (update_passes ts now s Hnb Hgs) as (sp & Hsp & ->).
    eexists. split; [reflexivity|].
    pose proof (levelProgression_spec sp (st_noBomber _ _ Hsp Hnb)) as Hlp.
    pose proof (ammoInv_levelProgression sp) as Ham.
    revert Hlp Ham. cbv zeta. generalize (levelProgression sp). intros sl Hlp Ham.
    destruct Hlp as (Hl1 & Hl2 & Hl3 & Hl4 & Hl5 & Hl6 & Hl7 & Hl8).
    pose proof (gameOverCheck_spec sl) as Hgc.
    revert Hgc. cbv zeta. generalize (gameOverCheck sl). intros sg Hgc.
    destruct Hgc as (Hg1 & Hg2 & Hg3 & Hg4 & Hg5 & Hg6 & Hg7 & Hg8 & Hg9).
    destruct Hsp. constructor; unfold noBomber, ammoInv, pickupsOk in *; ssimpl; rewrite ?Hgs.
    + congruence.
    + congruence.
    + rewrite Hg2, Hl3. exact st_hp0.
    + rewrite Hg3, Hg2, Hl2, Hl3, st_gameOver0. reflexivity.
    + discriminate.
    + lia.
    + lia.
    + intros Ha. rewrite Hg6. auto.
    + rewrite Hg7. exact Hl8.
    + intros Hr Hp. destruct (st_coins0 Hr Hp) as [Hp' Hc].
      rewrite Hg8, Hl4, Hg9. split; [exact Hp'|lia].
  - unfold update. cbv zeta. ssimpl. rewrite Hgs. simpl.
    eexists. split; [reflexivity|].
    constructor; unfold ammoInv, pickupsOk; ssimpl; rewrite ?Hgs; auto; try lia.
    intros _ Hp. split; [exact Hp|lia].
Qed.

(** ** Handlers *)

(* replace the globals of named states by what is known of them *)
Ltac push_fields :=
  ssimpl;
  repeat match goal with
  | E : ?f ?a = _ |- context [?f ?a] => is_var a; rewrite E
  end; ssimpl.


Lemma inputFx_refl s : inputFx s s.
Proof. destruct s; reflexivity. Qed.

Lemma inputFx_trans s1 s2 s3 : inputFx s1 s2 -> inputFx s2 s3 -> inputFx s1 s3.
Proof. intros H12 H23. footprint. Qed.

Lemma sound_inputFx s s' : sound s -> inputFx s s' -> ammoInv s' -> sound s'.
Proof.
  intros [] Hfx Ham. project_all. constructor; unfold noBomber in *; try congruence;
    replace (player s') with (player s) by congruence;
    try replace (gameOver s') with (gameOver s) by congruence; assumption.
Qed.

Lemma startReload_input s : inputFx s (startReload s) /\ weapons (startReload s) = weapons s.
Proof.
  pose proof (reloadStart_startReload s) as Hfp. revert Hfp.
  generalize (startReload s). intros s' Hfp. split; [footprint|].
  project_all. congruence.
Qed.

Lemma shootAtMouse_input now s : inputFx s (shootAtMouse now s).
Proof.
  destruct (shootAtMouse_spec now s) as [Hfp _]. revert Hfp.
  generalize (shootAtMouse now s). intros s' Hfp. footprint.
Qed.

Lemma timerFires_input i s : inputFx s (timerFires i s).
Proof.
  unfold timerFires. destruct (timers s !! i) as [[k d]|]; [|apply inputFx_refl].
  unfold reloadDone. ssimpl. destruct (weapons s !! k); footprint_refl.
Qed.

(* keydown up to the start / restart branch *)
Lemma keydown_input key s :
  exists sk, inputFx s sk /\ weapons sk = weapons s /\
    keydown key s =
      if bool_decide (key = "Enter") then
        if negb (gameStarted sk) then startGame sk
        else if gameOver sk then Done (restartGame sk)
        else Done sk
      else Done sk.
Proof.
  unfold keydown. cbv zeta.
  assert (H0 : inputFx s (set_keys (<[toLowerCase key := true]> (keys s)) s)
               /\ weapons (set_keys (<[toLowerCase key := true]> (keys s)) s) = weapons s)
    by (split; [footprint_refl|reflexivity]).
  revert H0. generalize (set_keys (<[toLowerCase key := true]> (keys s)) s). intros s0 H0.
  assert (Hsw : forall c k t, inputFx s t /\ weapons t = weapons s ->
            inputFx s (if c : bool then set_currentWeaponKey k t else t)
            /\ weapons (if c then set_currentWeaponKey k t else t) = weapons s).
  { intros c k t [Ht Hw]. destruct c; [|auto]. split; [|exact Hw].
    eapply inputFx_trans; [exact Ht|]. footprint_refl. }
  repeat match goal with
  | |- context [if bool_decide (key = ?n) then set_currentWeaponKey ?k ?t else ?t] =>
      generalize (Hsw (bool_decide (key = n)) k t ltac:(assumption));
      generalize (if bool_decide (key = n) then set_currentWeaponKey k t else t);
      intros ? ?
  end.
  match goal with
  | |- context [if bool_decide (key = "r") then startReload ?t else ?t] =>
      assert (Hr : inputFx s (if bool_decide (key = "r") then startReload t else t)
                   /\ weapons (if bool_decide (key = "r") then startReload t else t) = weapons s);
      [ destruct (bool_decide (key = "r")); [|assumption];
        destruct (startReload_input t) as [? ?];
        match goal with H : inputFx s t /\ _ |- _ => destruct H end;
        split; [eapply inputFx_trans; eassumption|congruence]
      | revert Hr; generalize (if bool_decide (key = "r") then startReload t else t);
        intros sk [Hsk Hwk] ]
  end.
  exists sk. auto.
Qed.

Lemma ammoInv_set_owned s k w v :
  ammoInv s -> weapons s !! k = Some w ->
  map_Forall (fun _ w => ammoOk w) (<[k := set_owned v w]> (weapons s)).
Proof. intros Hs Hw. apply ammoInv_insert; [exact Hs|]. exact (Hs _ _ Hw). Qed.

Lemma sound_fresh hp s s1 s2 :
  0 < hp -> ammoInv s -> freshSession hp s s1 ->
  waveFx s1 s2 -> noBomber s2 -> sound (requestFrame s2).
Proof.
  intros Hhp Ham (Hgo & _ & Hl & Hq & Hm & Hh & Hw) Hfp Hnb.
  unfold noBomber in *. project_all.
  constructor; unfold noBomber, ammoInv; push_fields;
    try congruence; try lia; try assumption;
    try (split; [discriminate|lia]).
Qed.

Lemma startGame_spec s :
  ammoInv s -> noBomber s ->
  sound (final (startGame s)) /\ coins (final (startGame s)) = 0 /\
  pickups (final (startGame s)) = pickups s.
Proof.
  intros Ham Hnb. unfold startGame. cbv zeta.
  assert (H4 : freshSession 100 s (createPlayer (resetSession (set_gameOver false
                                     (set_gameStarted true s))))
               /\ enemies (createPlayer (resetSession (set_gameOver false
                                     (set_gameStarted true s)))) = enemies s
               /\ pickups (createPlayer (resetSession (set_gameOver false
                                     (set_gameStarted true s)))) = pickups s)
    by (repeat split; reflexivity).
  revert H4. generalize (createPlayer (resetSession (set_gameOver false (set_gameStarted true s)))).
  intros s4 (H4 & He4 & Hp4).
  destruct (weapons s4 !! "pistol") as [w|] eqn:Hw.
  - destruct (spawnWave_spec (set_weapons (<["pistol" := set_owned true w]> (weapons s4)) s4))
      as (Hfp & _ & Hnb' & _).
    revert Hfp Hnb'.
    generalize (spawnWave (set_weapons (<["pistol" := set_owned true w]> (weapons s4)) s4)).
    intros s5 Hfp Hnb'. cbn [final].
    destruct H4 as (Hgo & Hc & Hl & Hq & Hm & Hh & Hw4).
    assert (Ham4 : ammoInv (set_weapons (<["pistol" := set_owned true w]> (weapons s4)) s4)).
    { unfold ammoInv. ssimpl. rewrite Hw4 in *. apply ammoInv_set_owned; assumption. }
    split.
    + eapply (sound_fresh 100 _ _ s5); [lia|exact Ham4| |exact Hfp|exact Hnb'].
      repeat split; assumption.
    + project_all. ssimpl. split; congruence.
  - cbn [final]. destruct H4 as (Hgo & Hc & Hl & Hq & Hm & Hh & Hw4).
    split; [|split; assumption].
    constructor; unfold noBomber, ammoInv; rewrite ?He4, ?Hw4; try lia; try assumption.
    rewrite Hgo. split; [discriminate|lia].
Qed.

Lemma restartGame_spec s :
  ammoInv s -> 0 < p_maxHp (player s) ->
  sound (restartGame s) /\ coins (restartGame s) = 0 /\ pickups (restartGame s) = [].
Proof.
  intros Ham Hmax. unfold restartGame. cbv zeta.
  match goal with
  | |- context [spawnWave ?t] =>
      assert (H4 : freshSession (p_maxHp (player s)) s t /\ pickups t = [])
        by (repeat split; reflexivity);
      destruct (spawnWave_spec t) as (Hfp & _ & Hnb' & _);
      revert H4 Hfp Hnb'; generalize (spawnWave t); generalize t
  end.
  intros s4 s5 (H4 & Hp4) Hfp Hnb'. split.
  - eapply (sound_fresh _ s s4 s5); eassumption.
  - destruct H4 as (Hgo & Hc & _). project_all. ssimpl. split; congruence.
Qed.

Lemma buy_spec it s :
  let s' := final (buy it s) in
  (coins s < it_price it -> s' = alert "Not enough coins" s) /\
  (it_price it <= coins s -> coins s' = coins s - it_price it) /\
  (forall w, it_price it <= coins s -> weapons s !! it_key it = Some w ->
     exists s1, buy it s = Done s1 /\
       weapons s1 = <[it_key it := set_owned true w]> (weapons s)) /\
  (ammoInv s -> ammoInv s') /\
  gameStarted s' = gameStarted s /\ gameOver s' = gameOver s /\
  level s' = level s /\ enemiesToSpawn s' = enemiesToSpawn s /\
  player s' = player s /\ enemies s' = enemies s /\ pickups s' = pickups s.
Proof.
  unfold buy. destruct (it_price it <=? coins s) eqn:Hp.
  - apply Z.leb_le in Hp. ssimpl.
    destruct (weapons s !! it_key it) as [w|] eqn:Hw; ssimpl.
    + split; [lia|]. split; [reflexivity|]. split.
      { intros w' _ [= <-]. eexists. split; reflexivity. }
      split; [|repeat split; reflexivity].
      intros Ham. apply ammoInv_set_owned; assumption.
    + split; [lia|]. split; [reflexivity|]. split; [discriminate|].
      split; [auto|repeat split; reflexivity].
  - apply Z.leb_gt in Hp. ssimpl.
    split; [reflexivity|]. split; [lia|]. split; [lia|].
    split; [auto|repeat split; reflexivity].
Qed.

Lemma sound_frameStep s s' : sound s -> frameStep s s' -> sound s'.
Proof.
  intros [] []. constructor; auto; try lia.
  rewrite fs_gameOver0. destruct (gameStarted s).
  - destruct (p_hp (player s') <=? 0) eqn:Hhp.
    + apply Z.leb_le in Hhp. rewrite orb_true_r. tauto.
    + apply Z.leb_gt in Hhp. rewrite orb_false_r. split; [|lia].
      intros Hgo. apply so_gameOver0 in Hgo. lia.
  - rewrite fs_idle0 by reflexivity. assumption.
Qed.

Lemma sound_step ev s : sound s -> sound (final (handle ev s)).
Proof.
  intros Hs. destruct ev as [key|key|x y|now| |now| |i|i| |ts now]; unfold handle.
  - destruct (keydown_input key s) as (sk & Hsk & Hw & ->).
    assert (Hk : sound sk).
    { eapply sound_inputFx; [exact Hs|exact Hsk|]. unfold ammoInv. rewrite Hw. apply Hs. }
    destruct (bool_decide (key = "Enter")); [|exact Hk].
    destruct (negb (gameStarted sk)); [apply startGame_spec; apply Hk|].
    destruct (gameOver sk); [apply restartGame_spec; apply Hk|exact Hk].
  - eapply sound_inputFx; [exact Hs|footprint_refl|apply Hs].
  - eapply sound_inputFx; [exact Hs|footprint_refl|apply Hs].
  - cbn [final]. eapply sound_inputFx; [exact Hs| |].
    + eapply inputFx_trans; [|apply shootAtMouse_input]. footprint_refl.
    + apply ammoInv_shootAtMouse. apply Hs.
  - eapply sound_inputFx; [exact Hs|footprint_refl|apply Hs].
  - cbn [final]. eapply sound_inputFx; [exact Hs|apply shootAtMouse_input|].
    apply ammoInv_shootAtMouse. apply Hs.
  - cbn [final]. destruct (startReload_input s) as [Hfx Hw].
    eapply sound_inputFx; [exact Hs|exact Hfx|]. unfold ammoInv. rewrite Hw. apply Hs.
  - cbn [final]. eapply sound_inputFx; [exact Hs|apply timerFires_input|].
    apply ammoInv_timerFires. apply Hs.
  - destruct (shopItems !! i) as [it|]; [|exact Hs].
    destruct (weapons s !! it_key it) as [w|]; [|exact Hs].
    destruct (owned w); [exact Hs|].
    pose proof (buy_spec it s) as Hb. revert Hb. cbv zeta. generalize (final (buy it s)).
    intros s' (_ & _ & _ & Ham & Hgs & Hgo & Hl & Hq & Hp & He & _).
    destruct Hs. constructor; unfold noBomber; try congruence; auto;
      rewrite ?Hp, ?Hgo, ?He; assumption.
  - apply startGame_spec; apply Hs.
  - destruct (frames s) as [|n]; [exact Hs|].
    assert (Hs' : sound (set_frames n s)) by (destruct Hs; constructor; assumption).
    destruct (update_frame ts now (set_frames n s) (so_noBomber _ Hs')) as (s' & -> & Hfs).
    cbn [final]. eapply sound_frameStep; eassumption.
Qed.



Lemma ammoInv_initial : ammoInv (@initial F Fl Pg).
Proof.
  unfold initial. cbv zeta.
  match goal with
  | |- ammoInv (spawnWave ?t) =>
      pose proof (waveFx_spawnWave t) as Hfp;
      assert (Hw : weapons t = weapons0) by reflexivity;
      revert Hfp Hw; generalize (spawnWave t); generalize t
  end.
  intros s0 s1 Hfp Hw. unfold ammoInv. project_all.
  replace (weapons s1) with (@weapons0 F Fl) by congruence.
  unfold weapons0.
  repeat (apply map_Forall_insert_2; [unfold ammoOk; simpl; lia|]).
  apply map_Forall_empty.
Qed.

Lemma sound_initial : sound (@initial F Fl Pg).
Proof.
  pose proof ammoInv_initial as Ham. revert Ham. unfold initial. cbv zeta.
  match goal with
  | |- ammoInv (spawnWave ?t) -> sound (spawnWave ?t) =>
      destruct (spawnWave_spec t) as (Hfp & _ & Hnb & _);
      revert Hfp Hnb; generalize (spawnWave t)
  end.
  intros s1 Hfp Hnb Ham. unfold noBomber in *. project_all. unfold createPlayer in *.
  ssimpl in *.
  constructor; unfold noBomber; push_fields; try lia; try assumption;
    try (split; [discriminate|lia]).
Qed.


(** Every state of a game is sound, and its pickups are worth something. *)
Lemma reachable_sound s : reachable s -> sound s.
Proof. induction 1; [apply sound_initial|apply sound_step; assumption]. Qed.

Lemma reachable_run evs s : reachable s -> reachable (run evs s).
Proof.
  revert s. induction evs as [|ev evs IH]; intros s Hs; [exact Hs|].
  apply (IH (final (handle ev s))). apply reach_step, Hs.
Qed.


(** ** Game over *)

Lemma gameOverCheck_over s : gameOver s = true -> gameOverCheck s = s.
Proof. intros Hgo. unfold gameOverCheck. rewrite Hgo, andb_false_r. reflexivity. Qed.

Lemma gameOverCheck_idem s : gameOverCheck (gameOverCheck s) = gameOverCheck s.
Proof.
  destruct (gameOver (gameOverCheck s)) eqn:Hgo; [apply gameOverCheck_over, Hgo|].
  assert (Hs : gameOverCheck s = s).
  { revert Hgo. unfold gameOverCheck.
    destruct ((p_hp (player s) <=? 0) && negb (gameOver s)); [discriminate|reflexivity]. }
  rewrite Hs. exact Hs.
Qed.

(** C5: in every state of a game the player's health is at most maxHp, and
    the game-over flag is set exactly when the health is 0 or less: a frame
    that brings the health to 0 or less sets it, every later frame returns
    with the flag still set and the health still 0 or less, and with the
    flag set the game-over check changes nothing (it is idempotent in any
    state) *)
Theorem game_over_once s :
  reachable s ->
  p_hp (player s) <= p_maxHp (player s) /\
  (gameOver s = true <-> p_hp (player s) <= 0) /\
  (forall ts now, exists s', handle (Frame ts now) s = Done s' /\
     (gameOver s = true -> gameOver s' = true /\ p_hp (player s') <= 0)) /\
  (gameOver s = true -> gameOverCheck s = s) /\
  gameOverCheck (gameOverCheck s) = gameOverCheck s.
Proof.
  intros Hreach. pose proof (reachable_sound s Hreach) as Hs.
  split; [apply Hs|]. split; [apply Hs|].
  split; [|split; [apply gameOverCheck_over|apply gameOverCheck_idem]].
  intros ts now. cbn [handle]. destruct (frames s) as [|n] eqn:Hfr.
  - exists s. split; [reflexivity|]. intros Hgo. split; [exact Hgo|]. apply Hs, Hgo.
  - assert (Hs' : sound (set_frames n s)) by (destruct Hs; constructor; assumption).
    destruct (update_frame ts now (set_frames n s) (so_noBomber _ Hs')) as (s' & -> & Hfs).
    exists s'. split; [reflexivity|]. intros Hgo.
    pose proof (fs_gameOver _ _ Hfs) as Hgo'. pose proof (fs_hp _ _ Hfs) as Hhp.
    pose proof (fs_idle _ _ Hfs) as Hidle. ssimpl in *.
    apply (so_gameOver _ Hs) in Hgo as Hle. split; [|lia].
    rewrite Hgo', Hgo. destruct (gameStarted s); reflexivity.
Qed.

(** ** Currency *)


(** ** Contact *)


(** * More of the script *)

(** ** Firing, in full *)

Lemma emitProjectiles_spec w a s :
  exists new, bullets (emitProjectiles w a s) = bullets s ++ new /\
    length new = shotSize w /\ Forall (firedFrom w) new.
Proof.
  unfold emitProjectiles, shotSize, firedFrom.
  destruct (wtype w) eqn:Hty.
  - eexists [_]. ssimpl. split; [reflexivity|]. split; [reflexivity|].
    constructor; [|constructor]. ssimpl. auto.
  - generalize (Z.to_nat (pelletCount w)). intros n.
    pose proof (forUp_rule_idx
      (fun j (t : State F) => exists new, bullets t = bullets s ++ new /\
         length new = j /\
         Forall (fun b => b_from b = fromPlayer /\
                   b_dmg b = damage w /\ b_rocket b = false /\ b_r b = num 3) new)
      (fun _ s0 =>
         let '(r, s1) := rand (fneg (spreadOf w)) (spreadOf w) s0 in
         set_bullets (bullets s1 ++
           [mkBullet (p_x (player s) + fcos (a + r) * num 18)%F
              (p_y (player s) + fsin (a + r) * num 18)%F
              (fcos (a + r) * num 650)%F (fsin (a + r) * num 650)%F (num 3)
              (damage w) fromPlayer false]) s1) 0 n s) as Hloop.
    apply Hloop.
    + exists []. rewrite app_nil_r. auto.
    + intros j t (new & Hb & Hlen & Hall). prep. ssimpl.
      eexists (new ++ [_]). rewrite Hb, <- app_assoc. split; [reflexivity|].
      split; [rewrite length_app; simpl; lia|].
      apply Forall_app. split; [exact Hall|]. constructor; [|constructor]. ssimpl. auto.
  - eexists [_]. ssimpl. split; [reflexivity|]. split; [reflexivity|].
    constructor; [|constructor]. ssimpl. auto.
Qed.

(* pass the guards of shootAtMouse *)
Ltac pass_guards Hcan :=
  let Hgs := fresh "Hgs" in let Hgo := fresh "Hgo" in let Hw := fresh "Hw" in
  let Ho := fresh "Ho" in let Hrel := fresh "Hrel" in let Ha := fresh "Ha" in
  let Ht := fresh "Ht" in
  destruct Hcan as (Hgs & Hgo & Hw & Ho & Hrel & Ha & Ht);
  unfold shootAtMouse; rewrite Hgs, Hgo, Hw, Ho, Hrel; simpl negb; simpl orb; cbv iota;
  replace (ammo _ <=? 0) with false by (symmetry; apply Z.leb_gt; exact Ha);
  replace (_ - lastShotAt _ <? fireRate _) with false
    by (symmetry; apply Z.ltb_ge; exact Ht).

(** X1: a call of shootAtMouse that passes every check (game running,
    weapon owned, not reloading, a round left, fireRate ms since the last
    shot) records the time of the shot and appends its projectiles to the
    bullet list: one for a weapon of type bullet or rocket, pellets (6 if
    that is 0 or missing) for a shotgun, each the player's, with the
    weapon's damage (twice that, and the rocket flag, for a rocket) *)
Theorem shot_spawns_projectiles now s w :
  canFire now s w ->
  lastShotAt (shootAtMouse now s) = now /\
  exists new, bullets (shootAtMouse now s) = bullets s ++ new /\
    length new = shotSize w /\ Forall (firedFrom w) new.
Proof.
  intros Hcan. pass_guards Hcan. ssimpl.
  match goal with
  | |- context [emitProjectiles ?w' ?a ?t] =>
      destruct (emitProjectiles_spec w' a t) as (new & Hnew & Hlen & Hall);
      pose proof (volley_emitProjectiles w' a t) as Hv;
      revert Hnew Hv; generalize (emitProjectiles w' a t); intros s1 Hnew Hv
  end.
  name_calls. ssimpl in Hnew.
  destruct (ammo w - 1 <=? 0); project_all; ssimpl; (split; [congruence|]);
    exists new; (split; [congruence|]); split; assumption.
Qed.

(* the globals after a shot, but for the bullets and the cosmetic state *)
Lemma shootAtMouse_fired now s w :
  canFire now s w ->
  shotFx s (shootAtMouse now s) /\
  lastShotAt (shootAtMouse now s) = now /\
  weapons (shootAtMouse now s)
    = <[currentWeaponKey s := set_ammo (ammo w - 1) w]> (weapons s) /\
  reloading (shootAtMouse now s) = (ammo w =? 1) /\
  timers (shootAtMouse now s)
    = if ammo w =? 1 then timers s ++ [(currentWeaponKey s, reload w)] else timers s.
Proof.
  intros Hcan. pose proof (proj1 (shootAtMouse_spec now s)) as Hfx.
  split; [exact Hfx|]. clear Hfx.
  pass_guards Hcan. ssimpl.
  match goal with
  | |- context [emitProjectiles ?w' ?a ?t] =>
      generalize (volley_emitProjectiles w' a t); generalize (emitProjectiles w' a t)
  end.
  intros s1 Hs1.
  match goal with
  | |- context [spawnMuzzle ?x ?y ?a ?t] =>
      generalize (fx_spawnMuzzle x y a t); generalize (spawnMuzzle x y a t)
  end.
  intros s2 Hs2. project_all. ssimpl in *.
  destruct (ammo w =? 1) eqn:Hone.
  - apply Z.eqb_eq in Hone. replace (ammo w - 1 <=? 0) with true by (symmetry; apply Z.leb_le; lia).
    unfold autoReload. ssimpl.
    replace (reloading s2) with false by congruence. ssimpl.
    replace (currentWeaponKey s2) with (currentWeaponKey s) by congruence.
    replace (weapons s2) with (<[currentWeaponKey s := set_ammo (ammo w - 1) w]> (weapons s))
      by congruence.
    rewrite lookup_insert_eq. ssimpl.
    repeat split; congruence.
  - apply Z.eqb_neq in Hone. replace (ammo w - 1 <=? 0) with false by (symmetry; apply Z.leb_gt; lia).
    ssimpl. repeat split; congruence.
Qed.

(** X2: firing the last round of the magazine starts its reload in the
    same call (the reloading flag is set and one timeout of the weapon's
    reload time is pending for it); a shot that leaves a round starts
    none *)
Theorem last_round_starts_reload now s w :
  canFire now s w ->
  reloading (shootAtMouse now s) = (ammo w =? 1) /\
  timers (shootAtMouse now s)
    = if ammo w =? 1 then timers s ++ [(currentWeaponKey s, reload w)] else timers s.
Proof.
  intros Hcan. destruct (shootAtMouse_fired now s w Hcan) as (_ & _ & _ & Hr & Ht).
  split; assumption.
Qed.


(** ** Reloading *)

(** X4: a manual reload of a weapon that is not full sets the reloading
    flag and leaves one timeout pending for that weapon; when the timeout
    comes due it fills that weapon's magazine and clears the flag, also if
    the player has switched to another weapon in between (the timeout holds
    the weapon it was started for), and no timeout is left of it *)
Theorem reload_round_trip k' s w :
  reloading s = false -> weapons s !! currentWeaponKey s = Some w ->
  ammo w < maxAmmo w ->
  let s1 := startReload s in
  let s2 := timerFires (length (timers s)) (set_currentWeaponKey k' s1) in
  reloading s1 = true /\ weapons s1 = weapons s /\
  timers s1 = timers s ++ [(currentWeaponKey s, reload w)] /\
  weapons s2 = <[currentWeaponKey s := set_ammo (maxAmmo w) w]> (weapons s) /\
  reloading s2 = false /\ timers s2 = timers s /\ currentWeaponKey s2 = k'.
Proof.
  intros Hrel Hw Hlt. cbv zeta. unfold startReload. rewrite Hrel, Hw.
  replace (maxAmmo w <=? ammo w) with false by (symmetry; apply Z.leb_gt; exact Hlt).
  ssimpl. split; [reflexivity|]. split; [reflexivity|]. split; [reflexivity|].
  unfold timerFires. ssimpl.
  rewrite list_lookup_middle by reflexivity.
  unfold reloadDone. ssimpl. rewrite Hw. ssimpl.
  replace (delete (length (timers s)) (timers s ++ [(currentWeaponKey s, reload w)]))
    with (timers s).
  - repeat split; reflexivity.
  - rewrite delete_middle, app_nil_r. reflexivity.
Qed.

(** ** The keyboard *)





(** ** Waves, enemy by enemy *)

Lemma spawnEnemy_bred type s :
  type <> bomber ->
  exists e, enemies (spawnEnemy type s) = enemies s ++ [e] /\
    e_type e = type /\ bredAt (level s) e /\ (sidesOk -> offCanvas e).
Proof.
  intros Hty. unfold spawnEnemy, rand, Math_random. ssimpl.
  pose proof (fun Hs : sidesOk => Hs (randomCalls s)) as Hside. revert Hside.
  generalize (ffloor (random (randomCalls s) * (num 4 - num 0) + num 0)%F). intros side Hside.
  assert (Hb : forall x y s1, level s1 = level s -> enemies s1 = enemies s ->
    (sidesOk -> x = num (-30) \/ x = (W + num 30)%F \/ y = num (-30) \/ y = (H + num 30)%F) ->
    exists e,
      enemies (set_enemies (enemies s1 ++ [
        match type with
        | fast => mkEnemy x y (num 14) (num 120) 1 fast "#f97316" 0
        | tank => mkEnemy x y (num 26) (num 36) (4 + level s1 / 2) tank "#14532d" 0
        | spitter => mkEnemy x y (num 18) (num 45) 2 spitter "#7c3aed" 0
        | bomber => mkEnemy x y (num 16) (num 40) 1 bomber "#dc2626" 0
        | boss => mkEnemy x y (num 48) (num 25) (20 + level s1 * 4) boss "#7f1d1d" 0
        | normal => mkEnemy x y (num 18) (ofZ (50 + (level s1 - 1) * 3))
                      (1 + level s1 / 4) normal "#16a34a" 0
        end]) s1) = enemies s ++ [e] /\
      e_type e = type /\ bredAt (level s) e /\ (sidesOk -> offCanvas e)).
  { intros x y s1 Hl He Hxy. eexists. ssimpl. rewrite He. split; [reflexivity|].
    unfold bredAt, offCanvas. rewrite Hl.
    destruct type; ssimpl; try contradiction; repeat split; auto. }
  destruct (side =? 0) eqn:H0; [|destruct (side =? 1) eqn:H1; [|destruct (side =? 2) eqn:H2;
    [|destruct (side =? 3) eqn:H3]]]; ssimpl.
  1-4: apply Hb; [reflexivity|reflexivity|intros _; auto].
  apply Hb; [reflexivity|reflexivity|]. intros Hs. specialize (Hside Hs). lia.
Qed.

Lemma spawnWaveBody_kind j s :
  exists t s1, spawnWaveBody j s = spawnEnemy t s1 /\ drew s s1 /\
    t <> bomber /\ (t = boss <-> Z.rem (level s) 5 = 0 /\ j = 0%nat).
Proof.
  unfold spawnWaveBody, Math_random.
  destruct (Z.rem (level s) 5 =? 0) eqn:Hrem; [destruct j as [|j]|]; simpl.
  - apply Z.eqb_eq in Hrem. exists boss, s. split; [reflexivity|].
    split; [destruct s; reflexivity|]. split; [discriminate|]. tauto.
  - destruct (_ <? num 0.55)%F; [|destruct (_ <? num 0.75)%F; [|destruct (_ <? num 0.88)%F]];
      eexists _, _; (split; [reflexivity|]); (split; [destruct s; reflexivity|]);
      (split; [discriminate|]); (split; [discriminate|intros [_ ?]; discriminate]).
  - apply Z.eqb_neq in Hrem.
    destruct (_ <? num 0.55)%F; [|destruct (_ <? num 0.75)%F; [|destruct (_ <? num 0.88)%F]];
      eexists _, _; (split; [reflexivity|]); (split; [destruct s; reflexivity|]);
      (split; [discriminate|]); (split; [discriminate|intros [? _]; contradiction]).
Qed.

Lemma spawnWaveBody_inv2 s0 j s :
  waveInv2 s0 j s -> waveInv2 s0 (S j) (spawnWaveBody j s).
Proof.
  intros (Hfx & Hlen & Hall).
  destruct (spawnWaveBody_kind j s) as (t & s1 & -> & Hs1 & Ht & Hboss).
  destruct (spawnEnemy_bred t s1 Ht) as (e & Hes & Hty & Hbred & Hoff).
  pose proof (proj1 (spawnEnemy_spec t s1)) as Hfx2.
  revert Hfx2 Hes. generalize (spawnEnemy t s1). intros s2 Hfx2 Hes.
  assert (Hes1 : enemies s1 = enemies s) by (project Hs1; assumption).
  assert (Hl1 : level s1 = level s) by (project Hs1; assumption).
  assert (Hl : level s = level s0) by (project Hfx; assumption).
  unfold waveInv2. rewrite Hes, Hes1. split; [|split].
  - eapply waveFx_trans; [exact Hfx|]. eapply waveFx_trans; [|exact Hfx2].
    unfold waveFx, drew in *. rewrite Hs1. destruct s; reflexivity.
  - rewrite length_app, Hlen. simpl. lia.
  - intros i e' Hi. apply lookup_app_Some in Hi. destruct Hi as [Hi|[Hge Hi]].
    + exact (Hall i e' Hi).
    + rewrite Hlen in *. destruct (i - j)%nat as [|n] eqn:Hn; [|discriminate].
      injection Hi as <-. assert (i = j) by lia. subst i.
      rewrite <- Hl, <- Hl1. split; [exact Hbred|]. split; [exact Hoff|].
      rewrite Hty. rewrite Hl1. exact Hboss.
Qed.

(** X6: every enemy of a wave made by spawnWave is of type normal, fast,
    spitter, tank or boss (never bomber) and has the radius, speed and hit
    points of its type at the current level; the enemy at index 0 is a
    boss exactly when the level is a multiple of 5 and no other enemy ever
    is; and, the side drawn being one of 0..3, every enemy stands on one of
    the four lines 30 outside the canvas *)
Theorem wave_members s i e :
  enemies (spawnWave s) !! i = Some e ->
  bredAt (level s) e /\ (sidesOk -> offCanvas e) /\
  (e_type e = boss <-> Z.rem (level s) 5 = 0 /\ i = 0%nat).
Proof.
  unfold spawnWave.
  pose proof (forUp_rule_idx (waveInv2 (set_enemies [] s)) spawnWaveBody 0
                (Z.to_nat (waveCount (set_enemies [] s))) (set_enemies [] s)) as Hloop.
  destruct Hloop as (_ & _ & Hall).
  - split; [apply waveFx_refl|]. split; [reflexivity|]. intros i' e' Hi. discriminate.
  - intros j s1. apply spawnWaveBody_inv2.
  - exact (Hall i e).
Qed.

(** ** Starting over and levelling up *)

(** X7: restartGame clears the game-over flag, the bullets, the particles
    and the pickups, sets score and coins to 0, level to 1 and the quota to
    6, heals the player where he stands and spawns a wave of 7; it does not
    touch the weapons (no magazine is refilled), the weapon in hand, a
    reload in progress or the time of the last shot; and it requests one
    more animation frame for update *)
Theorem restart_resets_session s :
  let s' := restartGame s in
  gameOver s' = false /\ score s' = 0 /\ coins s' = 0 /\ level s' = 1 /\
  enemiesToSpawn s' = 6 /\
  player s' = set_p_hp (p_maxHp (player s)) (player s) /\
  bullets s' = [] /\ particles s' = [] /\ pickups s' = [] /\
  length (enemies s') = 7%nat /\
  weapons s' = weapons s /\ currentWeaponKey s' = currentWeaponKey s /\
  reloading s' = reloading s /\ timers s' = timers s /\
  lastShotAt s' = lastShotAt s /\ gameStarted s' = gameStarted s /\
  frames s' = S (frames s).
Proof.
  cbv zeta. unfold restartGame. cbv zeta.
  match goal with
  | |- context [spawnWave ?t] =>
      assert (Hc : waveCount t = 7) by reflexivity;
      destruct (spawnWave_spec t) as (Hfp & Hlen & _);
      rewrite Hc in Hlen;
      clear Hc; revert Hfp Hlen; generalize (spawnWave t)
  end.
  intros u Hfp Hlen. unfold resetSession in Hfp. project Hfp. ssimpl.
  repeat split; try congruence. rewrite Hlen. reflexivity.
Qed.

(** X8: when update finds the enemy list empty in a running game, the level
    goes up by 1, the quota by 2 and the coins by 5, a wave of quota + 2 +
    floor((level + 1) * 1.2) enemies is spawned, and the weapon in hand gets
    floor(maxAmmo * 0.2) rounds, up to a full magazine; when an enemy is
    left, or the game is not running, nothing changes *)
Theorem wave_cleared_levels_up s :
  (enemies s = [] -> gameStarted s = true -> gameOver s = false ->
   0 <= level s -> 0 <= enemiesToSpawn s ->
   let s' := levelProgression s in
   level s' = level s + 1 /\ enemiesToSpawn s' = enemiesToSpawn s + 2 /\
   coins s' = coins s + 5 /\ score s' = score s /\ player s' = player s /\
   Z.of_nat (length (enemies s'))
     = enemiesToSpawn s + 2 + ((level s + 1) * 12) / 10 /\
   weapons s' =
     match weapons s !! currentWeaponKey s with
     | Some cw =>
         <[currentWeaponKey s :=
             set_ammo (Z.min (maxAmmo cw) (ammo cw + (maxAmmo cw * 2) / 10)) cw]> (weapons s)
     | None => weapons s
     end) /\
  (enemies s <> [] \/ gameStarted s = false \/ gameOver s = true ->
   levelProgression s = s).
Proof.
  split.
  - intros He Hgs Hgo Hl Hq. cbv zeta. unfold levelProgression.
    rewrite He, Hgs, Hgo. simpl. cbv zeta.
    match goal with
    | |- context [spawnWave ?t] =>
        assert (Hc : waveCount t = enemiesToSpawn s + 2 + ((level s + 1) * 12) / 10)
          by reflexivity;
        destruct (spawnWave_spec t) as (Hfp & Hlen & _);
        rewrite Hc in Hlen;
        clear Hc; revert Hfp Hlen; generalize (spawnWave t)
    end.
    intros u Hfp Hlen. project Hfp. ssimpl.
    assert (Hn : 0 <= (level s + 1) * 12 / 10) by (apply Z.div_pos; lia).
    replace (currentWeaponKey u) with (currentWeaponKey s) by congruence.
    replace (weapons u) with (weapons s) by congruence.
    unfold refillAmount.
    destruct (weapons s !! currentWeaponKey s) as [cw|]; ssimpl;
      repeat split; try congruence; rewrite Hlen, Z2Nat.id by lia; reflexivity.
  - intros Hno. unfold levelProgression.
    destruct Hno as [He|[Hgs|Hgo]].
    + destruct (enemies s); [contradiction|]. reflexivity.
    + rewrite Hgs, andb_false_r. reflexivity.
    + rewrite Hgo, andb_false_r. reflexivity.
Qed.

(** ** Passes that map and filter a list, from its last element down *)

Lemma omap_cons_case {A B} (f : A -> option B) x l :
  omap f (x :: l) = match f x with Some y => y :: omap f l | None => omap f l end.
Proof. reflexivity. Qed.

Lemma forDown_omap {St A} (get : St -> list A) (acc : St -> Z) (K : St -> Prop)
    (f : A -> option A) (c : A -> Z) (body : nat -> St -> flow St) (s : St) :
  K s ->
  (forall i (t : St) x, K t -> get s !! i = Some x -> get t !! i = Some x ->
     exists t' : St, body i t = Continue t' /\ K t' /\ acc t' = acc t + c x /\
       get t' = match f x with
                | Some y => <[i := y]> (get t)
                | None => delete i (get t)
                end) ->
  exists s' : St, forDown body (length (get s)) s = Done s' /\ K s' /\
    get s' = omap f (get s) /\ acc s' = acc s + foldr Z.add 0 (map c (get s)).
Proof.
  intros HK Hbody.
  apply (forDown_rule
    (fun i (t : St) => (i <= length (get s))%nat /\ K t /\
       get t = take i (get s) ++ omap f (drop i (get s)) /\
       acc t = acc s + foldr Z.add 0 (map c (drop i (get s))))
    (fun o => exists s' : St, o = Done s' /\ K s' /\
       get s' = omap f (get s) /\ acc s' = acc s + foldr Z.add 0 (map c (get s)))).
  - split; [reflexivity|]. split; [exact HK|].
    rewrite take_ge, drop_ge by lia. simpl. rewrite app_nil_r. split; [reflexivity|lia].
  - intros i t (Hi & Ht & Hget & Hacc).
    destruct (split_at (get s) i Hi) as (x & Hx & Htake & Hdrop & Hlen).
    rewrite Htake, <- app_assoc in Hget. simpl in Hget.
    assert (Hti : get t !! i = Some x).
    { rewrite Hget. apply slot_lookup. symmetry; exact Hlen. }
    destruct (Hbody i t x Ht Hx Hti) as (t' & -> & Ht' & Hacc' & Hget').
    split; [lia|]. split; [exact Ht'|]. rewrite Hdrop, omap_cons_case. simpl map. simpl foldr.
    split; [|lia].
    rewrite Hget'. destruct (f x) as [y|]; rewrite Hget.
    + apply slot_insert. symmetry; exact Hlen.
    + apply slot_delete. symmetry; exact Hlen.
  - intros t (_ & Ht & Hget & Hacc). rewrite drop_0 in Hget, Hacc. simpl in Hget.
    exists t. auto.
Qed.

Lemma sum_map_opp {A} (c : A -> Z) (l : list A) :
  foldr Z.add 0 (map (fun x => - c x) l) = - foldr Z.add 0 (map c l).
Proof. induction l as [|x l IH]; simpl; lia. Qed.

(** ** Enemy projectiles *)

(** X9: the bullets-hitting-player pass of a frame returns; it removes
    exactly the enemy projectiles that overlap the player and keeps every
    other bullet, in order and unchanged; the player loses 8 hit points for
    each projectile removed and does not move; his own bullets never hurt
    him; enemies, coins and score are as before *)
Theorem enemy_fire_hits_player s :
  exists s', bulletsHitPlayer s = Done s' /\
    bullets s' = omap (afterStrike (player s)) (bullets s) /\
    p_hp (player s') = p_hp (player s)
                       - foldr Z.add 0 (map (strikeCost (player s)) (bullets s)) /\
    player s' = set_p_hp (p_hp (player s')) (player s) /\
    enemies s' = enemies s /\ coins s' = coins s /\ score s' = score s.
Proof.
  unfold bulletsHitPlayer.
  destruct (forDown_omap (@bullets F) (fun t => p_hp (player t))
    (fun t => player t = set_p_hp (p_hp (player t)) (player s) /\
              enemies t = enemies s /\ coins t = coins s /\ score t = score s)
    (afterStrike (player s)) (fun b => - strikeCost (player s) b)
    bulletsHitPlayerBody s) as (s' & Hrun & (Hp & He & Hc & Hsc) & Hb & Hhp).
  - repeat split. destruct (player s); reflexivity.
  - intros i t b (Hp & He & Hc & Hsc) _ Hb. unfold bulletsHitPlayerBody. rewrite Hb.
    unfold afterStrike, strikeCost, strikes.
    replace (p_x (player s)) with (p_x (player t)) by (rewrite Hp; reflexivity).
    replace (p_y (player s)) with (p_y (player t)) by (rewrite Hp; reflexivity).
    replace (p_r (player s)) with (p_r (player t)) by (rewrite Hp; reflexivity).
    destruct (_ && _).
    + prep. name_calls. ssimpl. eexists. split; [reflexivity|].
      project_all. ssimpl in *.
      repeat split; try congruence.
      * replace (player s0) with (set_p_hp (p_hp (player t) - 8) (player t)) by congruence.
        ssimpl. rewrite Hp. reflexivity.
      * replace (player s0) with (set_p_hp (p_hp (player t) - 8) (player t)) by congruence.
        ssimpl. lia.
    + eexists. split; [reflexivity|]. repeat split; try assumption; try lia.
      symmetry. apply list_insert_id, Hb.
  - exists s'. split; [exact Hrun|]. split; [exact Hb|]. split.
    + rewrite Hhp, sum_map_opp. lia.
    + auto.
Qed.

(** ** Particles *)

(** X10: the particle pass of a frame returns; every particle moves by its
    velocity times dt and ages by dt * 1000 ms, and exactly those whose age
    then exceeds their life are removed, the others staying in order;
    nothing but the particle list changes *)
Theorem particles_age_and_expire dt s :
  exists s', updateParticles dt s = Done s' /\
    particles s' = omap (afterAging dt) (particles s) /\
    s' = set_particles (particles s') s.
Proof.
  unfold updateParticles.
  destruct (forDown_omap (@particles F) (fun _ => 0)
    (fun t => t = set_particles (particles t) s)
    (afterAging dt) (fun _ => 0) (updateParticlesBody dt) s) as (s' & Hrun & HK & Hp & _).
  - destruct s; reflexivity.
  - intros i t p Ht _ Hp. unfold updateParticlesBody. rewrite Hp.
    unfold afterAging, aged. ssimpl.
    destruct (_ >? _)%F; eexists; (split; [reflexivity|]); ssimpl;
      (split; [project Ht; apply state_ext; ssimpl; congruence|]);
      (split; [reflexivity|]); [apply delete_insert_same|reflexivity].
  - exists s'. auto.
Qed.

(** ** Pickups *)

(** X11: the pickup pass of a frame returns; exactly the pickups within 20
    of the player are removed, the others age by dt * 1000 ms and stay in
    order; the coins grow by the values of the coin pickups removed, each
    counted once; the player is as before, and so are the weapons when the
    list holds coins only *)
Theorem pickups_collected dt s :
  exists s', collectPickups dt s = Done s' /\
    pickups s' = omap (afterCollect dt (player s)) (pickups s) /\
    coins s' = coins s + foldr Z.add 0 (map (collected (player s)) (pickups s)) /\
    player s' = player s /\ score s' = score s /\ enemies s' = enemies s /\
    (coinsOnly s -> weapons s' = weapons s).
Proof.
  unfold collectPickups.
  destruct (forDown_omap (@pickups F) (@coins F)
    (fun t => player t = player s /\ score t = score s /\ enemies t = enemies s /\
              (coinsOnly s -> weapons t = weapons s))
    (afterCollect dt (player s)) (collected (player s))
    (collectPickupsBody dt) s) as (s' & Hrun & (Hp & Hsc & He & Hw) & Hpk & Hc).
  - auto.
  - intros i t pk (Hp & Hsc & He & Hw) Hpk0 Hpk. unfold collectPickupsBody. rewrite Hpk.
    unfold afterCollect, collected, inReach, older. ssimpl. rewrite Hp.
    destruct (_ <? num 20)%F; [|eexists; split; [reflexivity|]; ssimpl; simpl andb; cbv iota;
                                 repeat split; auto; lia].
    assert (Hcoin : coinsOnly s -> bool_decide (pk_type pk = ammoBox) = false).
    { intros Hco. apply bool_decide_eq_false.
      rewrite (Forall_lookup_1 _ _ _ _ Hco Hpk0). discriminate. }
    destruct (bool_decide (pk_type pk = coin)) eqn:Hty1,
             (bool_decide (pk_type pk = ammoBox)) eqn:Hty2; ssimpl;
      try (destruct (weapons t !! currentWeaponKey t) as [w|]; ssimpl);
      eexists; (split; [reflexivity|]); ssimpl;
      (split; [repeat split; auto; intros Hco; specialize (Hcoin Hco); discriminate|]);
      (split; [simpl; lia|]); apply delete_insert_same.
  - exists s'. auto 10.
Qed.

(** ** Bullets in flight *)

(** X12: the bullet pass of a frame returns; every bullet moves by its
    velocity times dt, and exactly those then inside a wall or more than 40
    beyond the canvas are removed, the others staying in order; player,
    coins, score and weapons are as before, and so are the enemies and the
    pickups when no bullet is a rocket (a rocket that hits a wall
    explodes) *)
Theorem bullets_fly dt s :
  exists s', updateBullets dt s = Done s' /\
    bullets s' = omap (afterFlight dt) (bullets s) /\
    player s' = player s /\ coins s' = coins s /\ score s' = score s /\
    weapons s' = weapons s /\
    (Forall (fun b => b_rocket b = false) (bullets s) ->
     enemies s' = enemies s /\ pickups s' = pickups s).
Proof.
  unfold updateBullets.
  destruct (forDown_omap (@bullets F) (fun _ => 0)
    (fun t => player t = player s /\ coins t = coins s /\ score t = score s /\
              weapons t = weapons s /\
              (Forall (fun b => b_rocket b = false) (bullets s) ->
               enemies t = enemies s /\ pickups t = pickups s))
    (afterFlight dt) (fun _ => 0) (updateBulletsBody dt) s)
    as (s' & Hrun & HK & Hb & _).
  - auto 10.
  - intros i t b (Hp & Hc & Hsc & Hw & Hq) Hb0 Hb. unfold updateBulletsBody. rewrite Hb.
    unfold afterFlight, flown, inWall, outOfPlay. ssimpl.
    destruct (existsb _ _).
    + destruct (b_rocket b) eqn:Hrk.
      * name_explode. eexists. split; [reflexivity|]. project_all. ssimpl in *.
        split; [|split; [reflexivity|]].
        -- repeat split; try congruence;
             match goal with
             | Hall : Forall _ (bullets s) |- _ =>
                 pose proof (Forall_lookup_1 _ _ _ _ Hall Hb0); simpl in *; congruence
             end.
        -- replace (bullets s0) with (<[i := set_b_pos (b_x b + b_vx b * dt)%F
                                         (b_y b + b_vy b * dt)%F b]> (bullets t)) by congruence.
           apply delete_insert_same.
      * eexists. split; [reflexivity|]. ssimpl.
        split; [auto 10|]. split; [reflexivity|]. apply delete_insert_same.
    + destruct (_ || _); eexists; (split; [reflexivity|]); ssimpl;
        (split; [auto 10|]); (split; [reflexivity|]);
        [apply delete_insert_same|reflexivity].
  - exists s'. split; [exact Hrun|]. split; [exact Hb|]. exact HK.
Qed.

(** ** What a frame keeps of the weapons, the reload and the input *)

Lemma refilled_refl (w : Weapon F) : refilled w w.
Proof. split; [destruct w; reflexivity|lia]. Qed.

Lemma refilled_trans (w1 w2 w3 : Weapon F) :
  refilled w1 w2 -> refilled w2 w3 -> refilled w1 w3.
Proof.
  intros [H12 L12] [H23 L23]. split.
  - rewrite H23, H12. reflexivity.
  - intros Hm. assert (Hmax : maxAmmo w2 = maxAmmo w1) by (rewrite H12; reflexivity).
    specialize (L12 Hm). rewrite Hmax in L23. specialize (L23 Hm). lia.
Qed.

Lemma rearmed_refl (m : gmap string (Weapon F)) : rearmed m m.
Proof. intros k. destruct (m !! k); constructor. apply refilled_refl. Qed.

Lemma rearmed_trans (m1 m2 m3 : gmap string (Weapon F)) :
  rearmed m1 m2 -> rearmed m2 m3 -> rearmed m1 m3.
Proof.
  intros H12 H23 k. specialize (H12 k). specialize (H23 k).
  destruct H12; inversion H23; subst; constructor.
  eapply refilled_trans; eassumption.
Qed.

Lemma rearmed_insert (m : gmap string (Weapon F)) k w a :
  m !! k = Some w -> (0 <= maxAmmo w -> Z.min (ammo w) (maxAmmo w) <= a) ->
  rearmed m (<[k := set_ammo a w]> m).
Proof.
  intros Hk Ha k'. destruct (decide (k' = k)) as [->|Hne].
  - rewrite lookup_insert_eq, Hk. constructor. split; [reflexivity|exact Ha].
  - rewrite lookup_insert_ne by congruence. apply rearmed_refl.
Qed.

Lemma orderly_refl s : orderly s s.
Proof. constructor; auto; try lia. apply rearmed_refl. Qed.

Lemma orderly_trans s1 s2 s3 : orderly s1 s2 -> orderly s2 s3 -> orderly s1 s3.
Proof.
  intros [] []. constructor; try congruence; try lia; auto.
  eapply rearmed_trans; eassumption.
Qed.

Lemma orderly_intro s s' :
  frames s' = frames s -> currentWeaponKey s' = currentWeaponKey s ->
  reloading s' = reloading s -> timers s' = timers s ->
  lastShotAt s' = lastShotAt s -> keys s' = keys s -> mouse s' = mouse s ->
  mouseDown s' = mouseDown s -> alerts s' = alerts s -> score s <= score s' ->
  weapons s' = weapons s -> (coinsOnly s -> coinsOnly s') -> orderly s s'.
Proof.
  intros. constructor; auto. replace (weapons s') with (weapons s). apply rearmed_refl.
Qed.

Lemma coinsOnly_push (l : list (Pickup F)) x y v a :
  Forall (fun pk => pk_type pk = coin) l ->
  Forall (fun pk => pk_type pk = coin) (l ++ [mkPickup x y coin v a]).
Proof. intros Hl. apply Forall_app. split; [exact Hl|]. repeat constructor. Qed.

(* [orderly] between a state and a later one that has the same weapons *)
Ltac orderly_frame :=
  unfold flowState; project_all;
  apply orderly_intro; unfold coinsOnly; ssimpl; try congruence; try lia;
  try (repeat match goal with
       | E : score ?a = _ |- context [score ?a] => rewrite E
       end; ssimpl; lia);
  try (intros Hco;
       repeat match goal with
       | E : pickups ?a = _ |- context [pickups ?a] => rewrite E
       end; ssimpl;
       solve [auto using coinsOnly_push, Forall_delete, Forall_insert]).

Lemma orderly_fx s s' : fx s s' -> orderly s s'.
Proof. intros Hfx. orderly_frame. Qed.

Lemma explode_orderly x y sc s :
  exists s', explode x y sc s = Done s' /\ blast s s' /\ orderly s s'.
Proof.
  destruct (explode_spec x y sc s) as (s' & Hrun & Hb & Hes & new & Hpk & _ & Hco).
  exists s'. split; [exact Hrun|]. split; [exact Hb|].
  project Hb. apply orderly_intro; try congruence; try lia.
  unfold coinsOnly. rewrite Hpk. intros Hp. apply Forall_app. split; [exact Hp|].
  clear Hpk. revert Hco. generalize (rev (omap (killedByBlast x y sc (level s)) (enemies s))).
  intros l Hl. induction Hl as [|e pk l new' Hc _ IH]; [constructor|].
  constructor; [apply Hc|exact IH].
Qed.

(* name the result of the explosions in the goal, as [orderly] steps *)
Ltac name_explode_o :=
  repeat match goal with
  | |- context [explode ?x ?y ?sc ?s] =>
      let s' := fresh "s" in
      let Hrun := fresh "Hrun" in
      destruct (explode_orderly x y sc s) as (s' & Hrun & ? & ?);
      rewrite Hrun; clear Hrun
  end.

Lemma updateParticlesBody_orderly dt i s :
  orderly s (flowState (updateParticlesBody dt i s)).
Proof.
  unfold updateParticlesBody. destruct (particles s !! i); [|apply orderly_refl].
  ssimpl. destruct (_ >? _)%F; orderly_frame.
Qed.

Lemma bulletsHitPlayerBody_orderly i s :
  orderly s (flowState (bulletsHitPlayerBody i s)).
Proof.
  unfold bulletsHitPlayerBody. destruct (bullets s !! i) as [b|]; [|apply orderly_refl].
  destruct (_ && _); [|apply orderly_refl].
  prep. name_calls. orderly_frame.
Qed.

Lemma updateBulletsBody_orderly dt i s :
  orderly s (flowState (updateBulletsBody dt i s)).
Proof.
  unfold updateBulletsBody. destruct (bullets s !! i) as [b|]; [|apply orderly_refl].
  ssimpl. destruct (existsb _ _).
  - destruct (b_rocket b).
    + name_explode_o. unfold flowState.
      eapply orderly_trans; [|eapply orderly_trans; [eassumption|]]; orderly_frame.
    + orderly_frame.
  - destruct (_ || _); orderly_frame.
Qed.

Lemma updateEnemiesBody_orderly dt now i s :
  orderly s (flowState (updateEnemiesBody dt now i s)).
Proof.
  unfold updateEnemiesBody.
  destruct (enemies s !! i) as [e|] eqn:He; [|apply orderly_refl].
  destruct (spits now e); prep.
  all: destruct (touches _ _); [|orderly_frame].
  all: name_calls; ssimpl.
  all: destruct (bool_decide (e_type e = bomber)) eqn:Hb.
  all: name_explode_o; ssimpl.
  all: try (eapply orderly_trans;
            [|eapply orderly_trans; [eassumption|]]).
  all: try destruct (_ <? num 0.5)%F; ssimpl.
  all: orderly_frame.
Qed.

Lemma hitScanBody_orderly i e j s :
  orderly s (flowState (hitScanBody i e j s)).
Proof.
  unfold hitScanBody.
  destruct (bullets s !! j) as [b|]; [|apply orderly_refl].
  destruct (negb _); [apply orderly_refl|].
  destruct (overlaps e b); [|apply orderly_refl].
  prep. name_calls. ssimpl.
  destruct (_ <=? 0); ssimpl; [|orderly_frame].
  destruct (bool_decide (e_type e = boss)); [|destruct (bool_decide (e_type e = tank))]; ssimpl.
  all: destruct (bool_decide (e_type e = bomber)) eqn:Hb; ssimpl.
  all: name_explode_o; ssimpl.
  all: try (eapply orderly_trans;
            [|eapply orderly_trans; [eassumption|]]).
  all: orderly_frame.
Qed.

Lemma hitScan_orderly i e n s :
  orderly s (final (forDown (hitScanBody i e) n s)).
Proof.
  apply (forDown_rule (fun _ s' => s' = s) (fun o => orderly s (final o))).
  - reflexivity.
  - intros j s1 ->. pose proof (hitScanBody_orderly i e j s) as Hst.
    pose proof (hitScanBody_continue i e j s) as Hc.
    destruct (hitScanBody i e j s); simpl in *; try exact Hst. exact Hc.
  - intros s1 ->. apply orderly_refl.
Qed.

Lemma bulletsHitEnemiesBody_orderly i s :
  orderly s (flowState (bulletsHitEnemiesBody i s)).
Proof.
  unfold bulletsHitEnemiesBody.
  destruct (enemies s !! i) as [e|] eqn:He; [|apply orderly_refl].
  rewrite final_lift. apply hitScan_orderly.
Qed.

Lemma collectPickupsBody_orderly dt i s :
  orderly s (flowState (collectPickupsBody dt i s)).
Proof.
  unfold collectPickupsBody.
  destruct (pickups s !! i) as [pk|] eqn:Hpk; [|apply orderly_refl]. ssimpl.
  assert (Hty : coinsOnly s -> pk_type pk = coin)
    by (intros Hp; exact (Forall_lookup_1 _ _ _ _ Hp Hpk)).
  assert (Hage : coinsOnly s ->
            Forall (fun pk => pk_type pk = coin)
              (<[i := set_pk_age (orElse (pk_age pk) (num 0) + dt * num 1000)%F pk]>
                 (pickups s))).
  { intros Hp. apply Forall_insert; [exact Hp|]. exact (Hty Hp). }
  destruct (_ <? num 20)%F;
    [destruct (bool_decide (pk_type pk = coin)), (bool_decide (pk_type pk = ammoBox)); ssimpl;
     try (destruct (weapons s !! currentWeaponKey s) as [w|] eqn:Hw; ssimpl)|];
    unfold flowState; constructor; unfold coinsOnly; ssimpl;
      try reflexivity; try lia; try apply rearmed_refl;
      try (intros Hp; try apply Forall_delete; apply Hage, Hp).
  all: apply rearmed_insert; [exact Hw|]; ssimpl; lia.
Qed.

Lemma spawnPeriodicPickups_orderly dt s : orderly s (spawnPeriodicPickups dt s).
Proof.
  unfold spawnPeriodicPickups. ssimpl.
  destruct (_ >? num 6)%F; [destruct (_ <? num 0.6)%F|]; ssimpl; orderly_frame.
Qed.

Lemma movePlayer_orderly dt s : orderly s (movePlayer dt s).
Proof. unfold movePlayer. orderly_frame. Qed.

Lemma avoidWalls_orderly s : orderly s (avoidWalls s).
Proof. unfold avoidWalls. orderly_frame. Qed.

Lemma gameOverCheck_orderly s : orderly s (gameOverCheck s).
Proof.
  unfold gameOverCheck. destruct (_ && _); [|apply orderly_refl]. ssimpl. orderly_frame.
Qed.

Lemma levelProgression_orderly s : orderly s (levelProgression s).
Proof.
  unfold levelProgression. destruct (_ && _); [|apply orderly_refl]. prep.
  match goal with
  | |- context [spawnWave ?t] =>
      pose proof (waveFx_spawnWave t) as Hfp; revert Hfp; generalize (spawnWave t)
  end.
  intros u Hfp. project Hfp. ssimpl.
  destruct (weapons u !! currentWeaponKey u) as [cw|] eqn:Hw; ssimpl.
  - constructor; unfold coinsOnly; ssimpl; try congruence; try lia.
    replace (weapons u) with (weapons s) in * by congruence.
    apply rearmed_insert; [exact Hw|]. unfold refillAmount. intros Hm.
    assert (0 <= maxAmmo cw * 2 / 10) by (apply Z.div_pos; lia). lia.
  - orderly_frame.
Qed.

(** Every pass of a frame is orderly. *)
Lemma updateBullets_orderly dt s : orderly s (final (updateBullets dt s)).
Proof.
  unfold updateBullets. apply forDown_preorder;
    [apply orderly_refl|apply orderly_trans|apply updateBulletsBody_orderly].
Qed.

Lemma updateEnemies_orderly dt now s : orderly s (final (updateEnemies dt now s)).
Proof.
  unfold updateEnemies. apply forDown_preorder;
    [apply orderly_refl|apply orderly_trans|apply updateEnemiesBody_orderly].
Qed.

Lemma bulletsHitEnemies_orderly s : orderly s (final (bulletsHitEnemies s)).
Proof.
  unfold bulletsHitEnemies. apply forDown_preorder;
    [apply orderly_refl|apply orderly_trans|apply bulletsHitEnemiesBody_orderly].
Qed.

Lemma bulletsHitPlayer_orderly s : orderly s (final (bulletsHitPlayer s)).
Proof.
  unfold bulletsHitPlayer. apply forDown_preorder;
    [apply orderly_refl|apply orderly_trans|apply bulletsHitPlayerBody_orderly].
Qed.

Lemma updateParticles_orderly dt s : orderly s (final (updateParticles dt s)).
Proof.
  unfold updateParticles. apply forDown_preorder;
    [apply orderly_refl|apply orderly_trans|apply updateParticlesBody_orderly].
Qed.

Lemma collectPickups_orderly dt s : orderly s (final (collectPickups dt s)).
Proof.
  unfold collectPickups. apply forDown_preorder;
    [apply orderly_refl|apply orderly_trans|apply collectPickupsBody_orderly].
Qed.

(** ** What every game keeps *)

Lemma weapons0_facts k (w0 : Weapon F) :
  weapons0 !! k = Some w0 -> owned w0 = true /\ 0 < maxAmmo w0.
Proof.
  unfold weapons0. intros Hk.
  repeat (apply lookup_insert_Some in Hk; destruct Hk as [[_ <-]|[_ Hk]];
          [split; [reflexivity|ssimpl; lia]|]).
  rewrite lookup_empty in Hk. discriminate.
Qed.

Lemma weapons0_keys k :
  k ∈ hotkeyWeapons ->
  is_Some ((weapons0 : gmap string (Weapon F)) !! k).
Proof.
  intros Hk. unfold weapons0. unfold hotkeyWeapons in Hk.
  repeat (apply elem_of_cons in Hk; destruct Hk as [->|Hk];
          [repeat (rewrite lookup_insert_ne by discriminate);
           rewrite lookup_insert_eq; eauto|]).
  apply elem_of_nil in Hk. contradiction.
Qed.

Lemma stocked_lookup s k w :
  stocked s -> weapons s !! k = Some w ->
  exists w0, weapons0 !! k = Some w0 /\ w = set_ammo (ammo w) w0 /\
    owned w = true /\ 0 < maxAmmo w.
Proof.
  intros Hst Hk. specialize (Hst k). rewrite Hk in Hst.
  destruct (weapons0 !! k) as [w0|] eqn:H0; inversion Hst as [? ? Hw|]; subst.
  exists w0. destruct (weapons0_facts k w0 H0) as [Ho Hm].
  split; [reflexivity|]. split; [exact Hw|]. rewrite Hw. ssimpl. auto.
Qed.

Lemma stocked_current s :
  stocked s -> is_Some (weapons0 !! currentWeaponKey s) ->
  exists w, weapons s !! currentWeaponKey s = Some w.
Proof.
  intros Hst [w0 Hw0]. specialize (Hst (currentWeaponKey s)). rewrite Hw0 in Hst.
  inversion Hst; subst. eauto.
Qed.

Lemma stocked_insert s k w a :
  stocked s -> weapons s !! k = Some w ->
  forall k', option_Forall2 (fun w0 w => w = set_ammo (ammo w) w0)
               (weapons0 !! k') (<[k := set_ammo a w]> (weapons s) !! k').
Proof.
  intros Hst Hk k'. destruct (decide (k' = k)) as [->|Hne].
  - rewrite lookup_insert_eq. destruct (stocked_lookup s k w Hst Hk) as (w0 & -> & Hw & _).
    constructor. rewrite Hw. reflexivity.
  - rewrite lookup_insert_ne by congruence. apply Hst.
Qed.

Lemma reloadInv_idle s :
  reloadInv s -> reloading s = false -> timers s = [] /\ forall k, loaded s k.
Proof.
  unfold reloadInv. destruct (timers s) as [|[k0 d] [|? ?]].
  - intros [_ Hl] _. auto.
  - intros [Hr _] Hf. congruence.
  - contradiction.
Qed.

Lemma tidy_orderly s s' : tidy s -> orderly s s' -> tidy s'.
Proof.
  intros [Hst Hcur Hrel Hpk] []. constructor.
  - intros k. specialize (Hst k). specialize (or_weapons0 k).
    destruct Hst as [w0 w Hw|]; inversion or_weapons0 as [w1 w' [Hw' _] E1 E2|]; subst;
      constructor. rewrite Hw', Hw. reflexivity.
  - rewrite or_current0. exact Hcur.
  - assert (Hl : forall k, loaded s k -> loaded s' k).
    { intros k Hk w' Hw'. specialize (or_weapons0 k). rewrite Hw' in or_weapons0.
      inversion or_weapons0 as [w w1 [_ Hge] E1 E2|]; subst. symmetry in E1.
      destruct (stocked_lookup s k w Hst E1) as (_ & _ & _ & _ & Hm).
      specialize (Hk w E1). lia. }
    unfold reloadInv in *. rewrite or_timers0, or_reloading0.
    destruct (timers s) as [|[k0 d] [|? ?]]; [| |contradiction];
      destruct Hrel as [Hr Hall]; (split; [exact Hr|]); auto.
  - auto.
Qed.

(* the three ways a call of shootAtMouse can go *)
Lemma shootAtMouse_cases now s :
  shootAtMouse now s = s \/
  (exists w, weapons s !! currentWeaponKey s = Some w /\ reloading s = false /\
     ammo w <= 0) \/
  exists w, canFire now s w.
Proof.
  unfold shootAtMouse, canFire.
  destruct (gameStarted s) eqn:Hgs; [|auto]. destruct (gameOver s) eqn:Hgo; [auto|].
  simpl. destruct (weapons s !! currentWeaponKey s) as [w|] eqn:Hw; [|auto].
  destruct (owned w) eqn:Ho; [|auto]. simpl.
  destruct (reloading s) eqn:Hrel; [auto|].
  destruct (ammo w <=? 0) eqn:Ha.
  { apply Z.leb_le in Ha. right. left. eauto. }
  destruct (now - lastShotAt s <? fireRate w) eqn:Ht; [auto|].
  apply Z.leb_gt in Ha. apply Z.ltb_ge in Ht. right. right. exists w. auto 10.
Qed.

Lemma tidy_shootAtMouse now s : tidy s -> tidy (shootAtMouse now s).
Proof.
  intros Hs. destruct (shootAtMouse_cases now s) as [->|[(w & Hw & Hrel & Ha)|[w Hcan]]].
  - exact Hs.
  - destruct Hs as [_ _ Hinv _].
    destruct (reloadInv_idle s Hinv Hrel) as [_ Hl]. specialize (Hl _ _ Hw). lia.
  - destruct (shootAtMouse_fired now s w Hcan) as (Hfx & _ & Hws & Hr & Ht).
    destruct Hcan as (_ & _ & Hw & _ & Hrel & Ha & _).
    destruct Hs as [Hst Hcur Hinv Hpk].
    destruct (reloadInv_idle s Hinv Hrel) as [Htm Hl].
    revert Hfx Hws Hr Ht. generalize (shootAtMouse now s). intros s' Hfx Hws Hr Ht.
    project Hfx. constructor.
    + unfold stocked. rewrite Hws. apply stocked_insert; assumption.
    + congruence.
    + unfold reloadInv, loaded. rewrite Ht, Hr, Htm, Hws.
      destruct (ammo w =? 1) eqn:Hone; simpl.
      * split; [reflexivity|]. intros k Hne w'. rewrite lookup_insert_ne by congruence.
        apply Hl.
      * apply Z.eqb_neq in Hone. split; [reflexivity|]. intros k w'.
        destruct (decide (k = currentWeaponKey s)) as [->|Hne].
        -- rewrite lookup_insert_eq. intros [= <-]. ssimpl. lia.
        -- rewrite lookup_insert_ne by congruence. apply Hl.
    + unfold coinsOnly in *. congruence.
Qed.

Lemma tidy_startReload s : tidy s -> tidy (startReload s).
Proof.
  intros Hs. unfold startReload. destruct (reloading s) eqn:Hrel; [exact Hs|].
  destruct (weapons s !! currentWeaponKey s) as [w|] eqn:Hw; [|exact Hs].
  destruct (maxAmmo w <=? ammo w); [exact Hs|].
  destruct Hs as [Hst Hcur Hinv Hpk].
  destruct (reloadInv_idle s Hinv Hrel) as [Htm Hl].
  constructor; try assumption.
  unfold reloadInv, loaded. ssimpl. rewrite Htm. simpl. split; [reflexivity|].
  intros k _. apply Hl.
Qed.

Lemma tidy_timerFires i s : tidy s -> tidy (timerFires i s).
Proof.
  intros Hs. unfold timerFires. destruct (timers s !! i) as [[k d]|] eqn:Hi; [|exact Hs].
  destruct Hs as [Hst Hcur Hinv Hpk]. unfold reloadInv in Hinv.
  destruct (timers s) as [|[k0 d0] [|? ?]] eqn:Htm; [discriminate| |contradiction].
  destruct i as [|i]; [|discriminate]. injection Hi as <- <-.
  destruct Hinv as [Hrel Hl]. unfold reloadDone. ssimpl.
  destruct (weapons s !! k0) as [w|] eqn:Hw; ssimpl.
  - destruct (stocked_lookup s k0 w Hst Hw) as (_ & _ & _ & _ & Hm).
    constructor; try assumption.
    + unfold stocked. ssimpl. apply stocked_insert; assumption.
    + unfold reloadInv, loaded. ssimpl. split; [reflexivity|]. intros k w'.
      destruct (decide (k = k0)) as [->|Hne].
      * rewrite lookup_insert_eq. intros [= <-]. ssimpl. exact Hm.
      * rewrite lookup_insert_ne by congruence. apply Hl, Hne.
  - constructor; try assumption.
    unfold reloadInv, loaded. ssimpl. split; [reflexivity|]. intros k w' Hk.
    destruct (decide (k = k0)) as [->|Hne]; [congruence|]. exact (Hl k Hne w' Hk).
Qed.

Lemma calm_refl s : calm s s.
Proof. split; [apply steady_refl|]. split; [reflexivity|]. split; [lia|auto]. Qed.

Lemma calm_trans s1 s2 s3 : calm s1 s2 -> calm s2 s3 -> calm s1 s3.
Proof.
  intros (H1 & F1 & S1 & T1) (H2 & F2 & S2 & T2).
  split; [eapply steady_trans; eassumption|]. split; [congruence|]. split; [lia|auto].
Qed.

Lemma calm_orderly s s' : steady s s' -> orderly s s' -> calm s s'.
Proof.
  intros Hst Hor. split; [exact Hst|]. split; [apply Hor|]. split; [apply Hor|].
  intros Ht. eapply tidy_orderly; eassumption.
Qed.

Lemma calm_shootAtMouse now s : calm s (shootAtMouse now s).
Proof.
  split; [apply shootAtMouse_steady|].
  pose proof (tidy_shootAtMouse now s) as Ht.
  pose proof (proj1 (shootAtMouse_spec now s)) as Hfx. revert Ht Hfx.
  generalize (shootAtMouse now s). intros s' Ht Hfx. project Hfx.
  split; [congruence|]. split; [lia|exact Ht].
Qed.

Lemma update_calm ts now s :
  noBomber s -> gameStarted s = true ->
  exists sp, calm s sp /\
    update ts now s = Done (requestFrame (gameOverCheck (levelProgression sp))).
Proof.
  intros Hnb Hgs. unfold update. cbv zeta.
  assert (H1 : calm s (set_lastT ts s))
    by (apply calm_orderly; [steady_frame|orderly_frame]).
  revert H1. generalize (set_lastT ts s). intros s1 H1.
  rewrite (st_gameStarted _ _ (proj1 H1)), Hgs. simpl negb. cbv iota.
  pose proof (calm_orderly _ _ (movePlayer_steady (frameDt ts s) s1)
                (movePlayer_orderly (frameDt ts s) s1)) as H2.
  revert H2. generalize (movePlayer (frameDt ts s) s1). intros s2 H2.
  pose proof (calm_orderly _ _ (avoidWalls_steady s2) (avoidWalls_orderly s2)) as H3.
  revert H3. generalize (avoidWalls s2). intros s3 H3.
  assert (H4 : calm s3 (if mouseDown s3 then shootAtMouse now s3 else s3))
    by (destruct (mouseDown s3); [apply calm_shootAtMouse|apply calm_refl]).
  revert H4. generalize (if mouseDown s3 then shootAtMouse now s3 else s3). intros s4 H4.
  assert (Hs4 : calm s s4) by (repeat (eapply calm_trans; [eassumption|]); apply calm_refl).
  clear H1 H2 H3 H4 s1 s2 s3.
  destruct (updateBullets_total (frameDt ts s) s4) as [s5 Hr].
  pose proof (calm_orderly _ _ (updateBullets_steady (frameDt ts s) s4)
                (updateBullets_orderly (frameDt ts s) s4)) as H5. rewrite Hr in H5 |- *.
  simpl in H5. cbn [andThen]. clear Hr.
  assert (Hs5 : calm s s5) by (eapply calm_trans; eassumption). clear Hs4 H5 s4.
  destruct (updateEnemies_spec (frameDt ts s) now s5 (st_noBomber _ _ (proj1 Hs5) Hnb))
    as (s6 & Hr & _).
  pose proof (calm_orderly _ _ (updateEnemies_steady (frameDt ts s) now s5)
                (updateEnemies_orderly (frameDt ts s) now s5)) as H6. rewrite Hr in H6 |- *.
  simpl in H6. cbn [andThen]. clear Hr.
  assert (Hs6 : calm s s6) by (eapply calm_trans; eassumption). clear Hs5 H6 s5.
  destruct (bulletsHitEnemies_spec s6 (st_noBomber _ _ (proj1 Hs6) Hnb)) as (s7 & hits & Hr & _).
  pose proof (calm_orderly _ _ (bulletsHitEnemies_steady s6)
                (bulletsHitEnemies_orderly s6)) as H7. rewrite Hr in H7 |- *.
  simpl in H7. cbn [andThen]. clear Hr hits.
  assert (Hs7 : calm s s7) by (eapply calm_trans; eassumption). clear Hs6 H7 s6.
  destruct (bulletsHitPlayer_total s7) as [s8 Hr].
  pose proof (calm_orderly _ _ (bulletsHitPlayer_steady s7)
                (bulletsHitPlayer_orderly s7)) as H8. rewrite Hr in H8 |- *.
  simpl in H8. cbn [andThen]. clear Hr.
  assert (Hs8 : calm s s8) by (eapply calm_trans; eassumption). clear Hs7 H8 s7.
  destruct (updateParticles_total (frameDt ts s) s8) as [s9 Hr].
  pose proof (calm_orderly _ _ (updateParticles_steady (frameDt ts s) s8)
                (updateParticles_orderly (frameDt ts s) s8)) as H9. rewrite Hr in H9 |- *.
  simpl in H9. cbn [andThen]. clear Hr.
  assert (Hs9 : calm s s9) by (eapply calm_trans; eassumption). clear Hs8 H9 s8.
  destruct (collectPickups_total (frameDt ts s) s9) as [s10 Hr].
  pose proof (calm_orderly _ _ (collectPickups_steady (frameDt ts s) s9)
                (collectPickups_orderly (frameDt ts s) s9)) as H10. rewrite Hr in H10 |- *.
  simpl in H10. cbn [andThen]. clear Hr.
  assert (Hs10 : calm s s10) by (eapply calm_trans; eassumption). clear Hs9 H10 s9.
  exists (spawnPeriodicPickups (frameDt ts s) s10). split; [|reflexivity].
  eapply calm_trans; [exact Hs10|].
  apply calm_orderly; [apply spawnPeriodicPickups_steady|apply spawnPeriodicPickups_orderly].
Qed.

(** ** Handlers, once more *)

Lemma tidy_fields s s' :
  weapons s' = weapons s -> currentWeaponKey s' = currentWeaponKey s ->
  reloading s' = reloading s -> timers s' = timers s -> pickups s' = pickups s ->
  tidy s -> tidy s'.
Proof.
  intros Hw Hc Hr Ht Hp []. constructor;
    unfold stocked, reloadInv, loaded, coinsOnly in *; rewrite ?Hw, ?Hc, ?Hr, ?Ht, ?Hp;
    assumption.
Qed.

Lemma tidy_switch s k :
  tidy s -> k ∈ hotkeyWeapons -> tidy (set_currentWeaponKey k s).
Proof. intros [] Hk. constructor; try assumption. ssimpl. apply weapons0_keys, Hk. Qed.

Ltac in_six :=
  unfold hotkeyWeapons; rewrite !elem_of_cons; repeat (first [left; reflexivity | right]).

(* keydown up to the start / restart branch, for a property that the
   steps before it keep *)
Lemma keydown_with (P : State F -> Prop) key s :
  P (set_keys (<[toLowerCase key := true]> (keys s)) s) ->
  (forall (t : State F) k, P t -> k ∈ hotkeyWeapons -> P (set_currentWeaponKey k t)) ->
  (forall t : State F, P t -> P (startReload t)) ->
  exists sk, P sk /\
    keydown key s =
      if bool_decide (key = "Enter") then
        if negb (gameStarted sk) then startGame sk
        else if gameOver sk then Done (restartGame sk)
        else Done sk
      else Done sk.
Proof.
  intros H0 Hsw Hrl. unfold keydown. cbv zeta.
  revert H0. generalize (set_keys (<[toLowerCase key := true]> (keys s)) s). intros s0 H0.
  assert (Hsw' : forall (c : bool) k (t : State F), P t -> k ∈ hotkeyWeapons ->
            P (if c then set_currentWeaponKey k t else t))
    by (intros [] k t Ht Hk; auto).
  repeat match goal with
  | |- context [if bool_decide (key = ?n) then set_currentWeaponKey ?k ?t else ?t] =>
      generalize (Hsw' (bool_decide (key = n)) k t ltac:(assumption) ltac:(in_six));
      generalize (if bool_decide (key = n) then set_currentWeaponKey k t else t);
      intros ? ?
  end.
  match goal with
  | |- context [if bool_decide (key = "r") then startReload ?t else ?t] =>
      assert (Hr : P (if bool_decide (key = "r") then startReload t else t))
        by (destruct (bool_decide (key = "r")); auto);
      revert Hr; generalize (if bool_decide (key = "r") then startReload t else t);
      intros sk Hsk
  end.
  exists sk. auto.
Qed.

Lemma set_owned_id (w : Weapon F) : owned w = true -> set_owned true w = w.
Proof. destruct w; simpl. intros ->. reflexivity. Qed.

Lemma startGame_shape s :
  tidy s ->
  exists s', startGame s = Done s' /\ tidy s' /\ gameStarted s' = true /\
    gameOver s' = false /\ frames s' = S (frames s) /\
    length (enemies s') = 7%nat /\ score s' = 0.
Proof.
  intros Ht. unfold startGame. cbv zeta.
  destruct (weapons0_keys "pistol" ltac:(in_six)) as [w0 Hw0].
  pose proof (ti_stocked _ Ht "pistol") as Hp. rewrite Hw0 in Hp.
  inversion Hp as [? w Hw E1 E2|]; subst. symmetry in E2.
  destruct (stocked_lookup s "pistol" w (ti_stocked _ Ht) E2) as (_ & _ & _ & Ho & _).
  change (weapons (createPlayer (resetSession (set_gameOver false (set_gameStarted true s))))
            !! "pistol") with (weapons s !! "pistol").
  rewrite E2.
  match goal with
  | |- context [spawnWave ?t] =>
      assert (Hc : waveCount t = 7) by reflexivity;
      destruct (spawnWave_spec t) as (Hfp & Hlen & _);
      rewrite Hc in Hlen; clear Hc; revert Hfp Hlen; generalize (spawnWave t)
  end.
  intros u Hfp Hlen. eexists. split; [reflexivity|].
  unfold resetSession, createPlayer in Hfp. project Hfp. ssimpl.
  split; [|repeat split; try congruence; rewrite Hlen; reflexivity].
  apply (tidy_fields s); [..|exact Ht]; ssimpl; try congruence.
  match goal with E : weapons u = _ |- _ => rewrite E end.
  rewrite set_owned_id by exact Ho. apply insert_id, E2.
Qed.

Lemma restartGame_shape s :
  tidy s ->
  tidy (restartGame s) /\ gameOver (restartGame s) = false /\
  gameStarted (restartGame s) = gameStarted s /\
  frames (restartGame s) = S (frames s) /\
  length (enemies (restartGame s)) = 7%nat /\ score (restartGame s) = 0.
Proof.
  intros Ht. unfold restartGame. cbv zeta.
  match goal with
  | |- context [spawnWave ?t] =>
      assert (Hc : waveCount t = 7) by reflexivity;
      destruct (spawnWave_spec t) as (Hfp & Hlen & _);
      rewrite Hc in Hlen; clear Hc; revert Hfp Hlen; generalize (spawnWave t)
  end.
  intros u Hfp Hlen. unfold resetSession in Hfp. project Hfp. ssimpl.
  split; [|repeat split; try congruence; rewrite Hlen; reflexivity].
  destruct Ht as [Hst Hcur Hrel Hpk]. constructor;
    unfold stocked, reloadInv, loaded, coinsOnly in *; ssimpl.
  - replace (weapons u) with (weapons s) by congruence. exact Hst.
  - replace (currentWeaponKey u) with (currentWeaponKey s) by congruence. exact Hcur.
  - replace (weapons u) with (weapons s) by congruence.
    replace (timers u) with (timers s) by congruence.
    replace (reloading u) with (reloading s) by congruence. exact Hrel.
  - replace (pickups u) with (@nil (Pickup F)) by congruence. constructor.
Qed.

Lemma shop_closed i s : stocked s -> handle (ShopClick i) s = Done s.
Proof.
  intros Hst. unfold handle.
  destruct (shopItems !! i) as [it|] eqn:Hit; [|reflexivity].
  assert (Hk : it_key it ∈ hotkeyWeapons).
  { unfold shopItems in Hit.
    repeat (destruct i as [|i]; [injection Hit as <-; in_six|]). discriminate. }
  destruct (weapons0_keys _ Hk) as [w0 Hw0].
  pose proof (Hst (it_key it)) as Hp. rewrite Hw0 in Hp.
  inversion Hp as [? w Hw E1 E2|]; subst. symmetry in E2.
  destruct (stocked_lookup s _ w Hst E2) as (_ & _ & _ & Ho & _).
  rewrite Ho. reflexivity.
Qed.

Lemma levelProgression_refills s :
  1 <= level s -> 0 <= enemiesToSpawn s ->
  gameStarted s = true -> gameOver s = false ->
  enemies (levelProgression s) <> [].
Proof.
  intros Hl Hq Hgs Hgo. unfold levelProgression. rewrite Hgs, Hgo.
  destruct (enemies s) as [|e l] eqn:He; simpl; [|rewrite He; discriminate].
  match goal with
  | |- context [spawnWave ?t] =>
      assert (Hc : waveCount t = enemiesToSpawn s + 2 + ((level s + 1) * 12) / 10)
        by reflexivity;
      destruct (spawnWave_spec t) as (Hfp & Hlen & _);
      rewrite Hc in Hlen; clear Hc; revert Hfp Hlen; generalize (spawnWave t)
  end.
  intros u Hfp Hlen. project Hfp. ssimpl.
  assert (Hn : 0 <= (level s + 1) * 12 / 10) by (apply Z.div_pos; lia).
  assert (Hu : enemies u <> []).
  { intros Hnil. rewrite Hnil in Hlen. simpl in Hlen. lia. }
  destruct (weapons u !! currentWeaponKey u); ssimpl; exact Hu.
Qed.

Lemma shipshape_input s s' :
  shipshape s -> sound s' -> tidy s' -> inputFx s s' -> shipshape s'.
Proof.
  intros [Hso Hti Hfr Hen Hsc] Hso' Hti' Hfx. project Hfx.
  constructor; try assumption; unfold framesInv in *; try congruence.
  - replace (gameStarted s') with (gameStarted s) by congruence.
    replace (frames s') with (frames s) by congruence. exact Hfr.
  - replace (gameOver s') with (gameOver s) by congruence.
    replace (enemies s') with (enemies s) by congruence. exact Hen.
Qed.

Lemma tidy_requestFrame s : tidy s -> tidy (requestFrame s).
Proof. apply tidy_fields; reflexivity. Qed.

Lemma shipshape_frame ts now s n :
  shipshape s -> frames s = S n ->
  exists s', update ts now (set_frames n s) = Done s' /\ shipshape s' /\
    score s <= score s' /\ frames s' = frames s.
Proof.
  intros Hs Hn. pose proof (sound_step (Frame ts now) s (sh_sound _ Hs)) as Hsound.
  cbn [handle] in Hsound. rewrite Hn in Hsound.
  destruct Hs as [Hso Hti Hfr Hen Hsc].
  assert (Hgs : gameStarted s = true).
  { unfold framesInv in Hfr. destruct (gameStarted s); [reflexivity|]. congruence. }
  assert (Hti0 : tidy (set_frames n s)) by (revert Hti; apply tidy_fields; reflexivity).
  destruct (update_calm ts now (set_frames n s) (so_noBomber _ Hso) Hgs)
    as (sp & (Hst & Hfp & Hscp & Htip) & Hrun).
  rewrite Hrun in Hsound |- *. cbn [final] in Hsound.
  specialize (Htip Hti0). ssimpl in Hfp. ssimpl in Hscp.
  assert (Hnb : noBomber sp) by (apply (st_noBomber _ _ Hst), Hso).
  pose proof (levelProgression_spec sp Hnb) as Hlp.
  pose proof (levelProgression_orderly sp) as Hlo.
  pose proof (fun H1 H2 H3 H4 => levelProgression_refills sp H1 H2 H3 H4) as Hrf.
  revert Hlp Hlo Hrf Hsound. cbv zeta. generalize (levelProgression sp).
  intros sl (Hl1 & Hl2 & _) Hlo Hrf Hsound.
  pose proof (gameOverCheck_spec sl) as Hgc.
  pose proof (gameOverCheck_orderly sl) as Hgo.
  revert Hgc Hgo Hsound. cbv zeta. generalize (gameOverCheck sl).
  intros sg (Hg1 & _ & Hg3 & _ & _ & _ & Hg7 & _) Hgo Hsound.
  eexists. split; [reflexivity|].
  assert (Htig : tidy sg)
    by (eapply tidy_orderly; [eapply tidy_orderly; [exact Htip|exact Hlo]|exact Hgo]).
  split; [|split].
  - constructor.
    + exact Hsound.
    + apply tidy_requestFrame, Htig.
    + unfold framesInv. ssimpl. rewrite Hg1, Hl1, (st_gameStarted _ _ Hst). ssimpl.
      rewrite Hgs. lia.
    + ssimpl. rewrite Hg3, Hg7. intros Hover. apply orb_false_iff in Hover.
      destruct Hover as [Hover _]. apply Hrf.
      * rewrite (st_level _ _ Hst). ssimpl. apply Hso.
      * rewrite (st_quota _ _ Hst). ssimpl. pose proof (so_quota _ Hso). lia.
      * rewrite (st_gameStarted _ _ Hst). exact Hgs.
      * congruence.
    + ssimpl. pose proof (or_score _ _ Hlo). pose proof (or_score _ _ Hgo). lia.
  - ssimpl. pose proof (or_score _ _ Hlo). pose proof (or_score _ _ Hgo). lia.
  - ssimpl. rewrite (or_frames _ _ Hgo), (or_frames _ _ Hlo), Hfp, Hn. reflexivity.
Qed.

Lemma shipshape_started s s' :
  sound s' -> tidy s' -> gameStarted s' = true -> gameOver s' = false ->
  frames s' = S (frames s) -> length (enemies s') = 7%nat -> score s' = 0 ->
  shipshape s'.
Proof.
  intros Hso Hti Hgs Hgo Hfr Hlen Hsc. constructor; try assumption.
  - unfold framesInv. rewrite Hgs, Hfr. lia.
  - intros _ Hnil. rewrite Hnil in Hlen. discriminate.
  - lia.
Qed.

Lemma shipshape_sets s s' :
  shipshape s -> inputFx s s' -> tidy s' -> weapons s' = weapons s -> shipshape s'.
Proof.
  intros Hs Hfx Hti Hw.
  eapply shipshape_input; [exact Hs| |exact Hti|exact Hfx].
  eapply sound_inputFx; [apply Hs|exact Hfx|].
  unfold ammoInv. rewrite Hw. apply Hs.
Qed.

Lemma shipshape_keydown key s : shipshape s -> shipshape (final (keydown key s)).
Proof.
  intros Hs.
  destruct (keydown_with (fun t => inputFx s t /\ tidy t /\ weapons t = weapons s) key s)
    as (sk & (Hfx & Htk & Hwk) & Hrun).
  - split; [footprint_refl|]. split; [|reflexivity].
    generalize (sh_tidy _ Hs). apply tidy_fields; reflexivity.
  - intros t k (Hfx & Ht & Hw) Hk. split; [|split; [apply tidy_switch; assumption|exact Hw]].
    eapply inputFx_trans; [exact Hfx|]. footprint_refl.
  - intros t (Hfx & Ht & Hw). destruct (startReload_input t) as [Hfx' Hw'].
    split; [|split; [apply tidy_startReload, Ht|congruence]].
    eapply inputFx_trans; [exact Hfx|exact Hfx'].
  - rewrite Hrun. clear Hrun.
    pose proof (shipshape_sets s sk Hs Hfx Htk Hwk) as Hk. clear Hfx Hwk Hs.
    destruct (bool_decide (key = "Enter")); [|exact Hk].
    destruct (gameStarted sk) eqn:Hgs; simpl negb; cbv iota.
    + destruct (gameOver sk); [|exact Hk].
      destruct (restartGame_shape sk Htk) as (Ht' & Hgo' & Hgs' & Hfr' & Hlen' & Hsc').
      destruct (restartGame_spec sk (so_ammo _ (sh_sound _ Hk)) (so_maxHp _ (sh_sound _ Hk)))
        as (Hso' & _).
      revert Hso' Ht' Hgo' Hgs' Hfr' Hlen' Hsc'. cbn [final]. generalize (restartGame sk).
      intros s' Hso' Ht' Hgo' Hgs' Hfr' Hlen' Hsc'.
      apply (shipshape_started sk); try assumption. congruence.
    + destruct (startGame_shape sk Htk) as (s' & Hr & Ht' & Hgs' & Hgo' & Hfr' & Hlen' & Hsc').
      destruct (startGame_spec sk (so_ammo _ (sh_sound _ Hk)) (so_noBomber _ (sh_sound _ Hk)))
        as (Hso' & _).
      revert Hso'. rewrite Hr. cbn [final]. intros Hso'.
      apply (shipshape_started sk); assumption.
Qed.

Lemma shipshape_shot now s : shipshape s -> shipshape (shootAtMouse now s).
Proof.
  intros Hs. pose proof (sound_step (FireTouch now) s (sh_sound _ Hs)) as Hsound.
  change (final (handle (FireTouch now) s)) with (shootAtMouse now s) in Hsound.
  pose proof (tidy_shootAtMouse now s (sh_tidy _ Hs)) as Hti.
  pose proof (shootAtMouse_input now s) as Hfx.
  revert Hsound Hti Hfx. generalize (shootAtMouse now s). intros s' Hsound Hti Hfx.
  eapply shipshape_input; eassumption.
Qed.

Lemma shipshape_set s s' :
  shipshape s -> inputFx s s' -> weapons s' = weapons s ->
  currentWeaponKey s' = currentWeaponKey s -> reloading s' = reloading s ->
  timers s' = timers s -> shipshape s'.
Proof.
  intros Hs Hfx Hw Hc Hr Ht.
  assert (Hti : tidy s').
  { apply (tidy_fields s); try assumption; [|apply Hs]. project Hfx. congruence. }
  eapply shipshape_input; [exact Hs| |exact Hti|exact Hfx].
  eapply sound_inputFx; [apply Hs|exact Hfx|].
  unfold ammoInv. rewrite Hw. apply Hs.
Qed.

Lemma shipshape_step ev s : shipshape s -> shipshape (final (handle ev s)).
Proof.
  intros Hs.
  destruct ev as [key|key|x y|now| |now| |i|i| |ts now].
  - apply shipshape_keydown, Hs.
  - apply (shipshape_set s); [exact Hs|footprint_refl|reflexivity..].
  - apply (shipshape_set s); [exact Hs|footprint_refl|reflexivity..].
  - change (final (handle (MouseDown now) s)) with (shootAtMouse now (set_mouseDown true s)).
    apply shipshape_shot. apply (shipshape_set s); [exact Hs|footprint_refl|reflexivity..].
  - apply (shipshape_set s); [exact Hs|footprint_refl|reflexivity..].
  - apply shipshape_shot, Hs.
  - change (final (handle ReloadTouch s)) with (startReload s).
    pose proof (sound_step ReloadTouch s (sh_sound _ Hs)) as Hsound.
    change (final (handle ReloadTouch s)) with (startReload s) in Hsound.
    eapply shipshape_input; [exact Hs|exact Hsound| |apply startReload_input].
    apply tidy_startReload, Hs.
  - change (final (handle (ReloadTimeout i) s)) with (timerFires i s).
    pose proof (sound_step (ReloadTimeout i) s (sh_sound _ Hs)) as Hsound.
    change (final (handle (ReloadTimeout i) s)) with (timerFires i s) in Hsound.
    eapply shipshape_input; [exact Hs|exact Hsound| |apply timerFires_input].
    apply tidy_timerFires, Hs.
  - rewrite (shop_closed i s (ti_stocked _ (sh_tidy _ Hs))). exact Hs.
  - cbn [handle].
    destruct (startGame_shape s (sh_tidy _ Hs))
      as (s' & Hr & Ht' & Hgs' & Hgo' & Hfr' & Hlen' & Hsc').
    destruct (startGame_spec s (so_ammo _ (sh_sound _ Hs)) (so_noBomber _ (sh_sound _ Hs)))
      as (Hso' & _).
    revert Hso'. rewrite Hr. cbn [final]. intros Hso'.
    apply (shipshape_started s); assumption.
  - cbn [handle]. destruct (frames s) as [|n] eqn:Hn; [exact Hs|].
    destruct (shipshape_frame ts now s n Hs Hn) as (s' & Hr & Hs' & _).
    rewrite Hr. exact Hs'.
Qed.

Lemma weapons0_loaded k (w0 : Weapon F) : weapons0 !! k = Some w0 -> 0 < ammo w0.
Proof.
  unfold weapons0. intros Hk.
  repeat (apply lookup_insert_Some in Hk; destruct Hk as [[_ <-]|[_ Hk]];
          [ssimpl; lia|]).
  rewrite lookup_empty in Hk. discriminate.
Qed.

Lemma shipshape_initial : shipshape (@initial F Fl Pg).
Proof.
  pose proof sound_initial as Hso. revert Hso. unfold initial. cbv zeta.
  match goal with
  | |- sound (spawnWave ?t) -> shipshape (spawnWave ?t) =>
      assert (Hc : waveCount t = 7) by reflexivity;
      destruct (spawnWave_spec t) as (Hfp & Hlen & _);
      rewrite Hc in Hlen; clear Hc; revert Hfp Hlen; generalize (spawnWave t)
  end.
  intros u Hfp Hlen Hso. unfold createPlayer in Hfp. project Hfp.
  constructor; [exact Hso| | | |].
  - constructor; unfold stocked, reloadInv, loaded, coinsOnly.
    + replace (weapons u) with (@weapons0 F Fl) by congruence. intros k.
      destruct (weapons0 !! k) as [w|]; constructor. destruct w; reflexivity.
    + replace (currentWeaponKey u) with "pistol" by congruence.
      apply weapons0_keys. in_six.
    + replace (timers u) with (@nil (string * Z)) by congruence.
      replace (weapons u) with (@weapons0 F Fl) by congruence.
      split; [congruence|]. intros k w. apply weapons0_loaded.
    + replace (pickups u) with (@nil (Pickup F)) by congruence. constructor.
  - unfold framesInv. replace (gameStarted u) with false by congruence. congruence.
  - intros _ Hnil. rewrite Hnil in Hlen. discriminate.
  - replace (score u) with 0 by congruence. lia.
Qed.

Lemma reachable_shipshape s : reachable s -> shipshape s.
Proof. induction 1; [apply shipshape_initial|apply shipshape_step; assumption]. Qed.

(** ** In every game *)

(** X13: at every point of every game the weapon table holds exactly the
    six weapons the script starts with, each with its name, maxAmmo,
    damage, fireRate, reload time, type and price as at the start and still
    owned (only the ammo ever changes), and the weapon in hand is one of
    them *)
Theorem weapon_table_is_fixed s :
  reachable s ->
  (forall k, option_Forall2 (fun w0 w => w = set_ammo (ammo w) w0)
               (weapons0 !! k) (weapons s !! k)) /\
  exists w, weapons s !! currentWeaponKey s = Some w /\ owned w = true.
Proof.
  intros Hr. destruct (reachable_shipshape s Hr) as [_ [Hst Hcur _ _] _ _ _].
  split; [exact Hst|]. destruct (stocked_current s Hst Hcur) as [w Hw].
  exists w. split; [exact Hw|].
  destruct (stocked_lookup s _ w Hst Hw) as (_ & _ & _ & Ho & _). exact Ho.
Qed.

(** X14: no handler throws in any game: whatever event comes next (key,
    mouse, touch, reload timeout, shop button, start button, animation
    frame), its handler returns *)
Theorem handlers_never_throw s ev :
  reachable s -> exists s', handle ev s = Done s'.
Proof.
  intros Hr. pose proof (reachable_shipshape s Hr) as Hs.
  destruct ev as [key|key|x y|now| |now| |i|i| |ts now]; cbn [handle]; eauto.
  - destruct (keydown_with (fun t => tidy t) key s) as (sk & Htk & ->).
    + generalize (sh_tidy _ Hs). apply tidy_fields; reflexivity.
    + intros t k Ht Hk. apply tidy_switch; assumption.
    + intros t Ht. apply tidy_startReload, Ht.
    + destruct (bool_decide (key = "Enter")); [|eauto].
      destruct (negb (gameStarted sk)).
      * destruct (startGame_shape sk Htk) as (s' & -> & _). eauto.
      * destruct (gameOver sk); eauto.
  - pose proof (shop_closed i s (ti_stocked _ (sh_tidy _ Hs))) as Hc.
    cbn [handle] in Hc. rewrite Hc. eauto.
  - destruct (startGame_shape s (sh_tidy _ Hs)) as (s' & -> & _). eauto.
  - destruct (frames s) as [|n] eqn:Hn; [eauto|].
    destruct (shipshape_frame ts now s n Hs Hn) as (s' & -> & _). eauto.
Qed.

(** X15: the shop never sells: every weapon is owned from the start, so in
    every game the button of every shop item is disabled and a click on it
    changes nothing (no coins are spent, no alert is raised) *)
Theorem shop_never_sells s i :
  reachable s -> handle (ShopClick i) s = Done s.
Proof.
  intros Hr. apply shop_closed. apply (reachable_shipshape s Hr).
Qed.

(** X16: at every point of every game at most one reload timeout is
    pending, the reloading flag is set exactly while one is, and while none
    is every weapon holds at least one round (so shootAtMouse never finds
    the magazine of the weapon in hand empty) *)
Theorem one_reload_at_a_time s :
  reachable s ->
  (length (timers s) <= 1)%nat /\
  (reloading s = true <-> timers s <> []) /\
  (reloading s = false -> forall k w, weapons s !! k = Some w -> 0 < ammo w).
Proof.
  intros Hr. destruct (reachable_shipshape s Hr) as [_ [_ _ Hinv _] _ _ _].
  unfold reloadInv, loaded in Hinv.
  destruct (timers s) as [|[k0 d] [|? ?]]; [| |contradiction]; destruct Hinv as [Hrel Hl].
  - split; [simpl; lia|]. split; [|intros _; exact Hl].
    split; [congruence|intros Hne; contradiction].
  - split; [simpl; lia|]. split; [|congruence].
    split; [discriminate|auto].
Qed.

(** X17: every pickup that ever lies on the ground is a coin: no ammo
    pickup is ever spawned, so the ammo branch of the pickup pass is never
    taken *)
Theorem pickups_are_coins s :
  reachable s -> Forall (fun pk => pk_type pk = coin) (pickups s).
Proof. intros Hr. apply (reachable_shipshape s Hr). Qed.

(** X18: update runs only once a game has been started, and from then on
    its loop never dies: before the first start no update callback is
    pending, afterwards at least one always is, and running a frame leaves
    as many pending as before *)
Theorem update_loop_stays_alive s ts now :
  reachable s ->
  (if gameStarted s then (1 <= frames s)%nat else frames s = 0%nat) /\
  frames (final (handle (Frame ts now) s)) = frames s.
Proof.
  intros Hr. pose proof (reachable_shipshape s Hr) as Hs.
  split; [apply Hs|]. cbn [handle].
  destruct (frames s) as [|n] eqn:Hn; [exact Hn|].
  destruct (shipshape_frame ts now s n Hs Hn) as (s' & -> & _ & _ & Hf).
  cbn [final]. congruence.
Qed.

(** X19: while the game is not over the enemy list is never empty between
    two handler calls: a wave cleared during a frame is replaced by the
    next one before that frame ends *)
Theorem never_without_enemies s :
  reachable s -> gameOver s = false -> enemies s <> [].
Proof. intros Hr. apply (reachable_shipshape s Hr). Qed.


(** X21: nothing in the game heals the player: the only handlers after
    which he has more hit points than before are those that start a game
    (the start button, or Enter before the first start or after a game
    over), which give him his full health back *)
Theorem health_only_resets ev s :
  reachable s ->
  p_hp (player s) < p_hp (player (final (handle ev s))) ->
  (ev = StartClick \/ ev = KeyDown "Enter") /\
  p_hp (player (final (handle ev s))) = p_maxHp (player (final (handle ev s))).
Proof.
  intros Hr. pose proof (reachable_shipshape s Hr) as Hs.
  assert (Hin : forall s', inputFx s s' -> p_hp (player s) < p_hp (player s') -> False).
  { intros s' Hfx. project Hfx. replace (player s') with (player s) by congruence. lia. }
  destruct ev as [key|key|x y|now| |now| |i|i| |ts now]; cbn [handle].
  - destruct (keydown_with (fun t => inputFx s t /\ tidy t) key s) as (sk & [Hfx Htk] & ->).
    + split; [footprint_refl|]. generalize (sh_tidy _ Hs). apply tidy_fields; reflexivity.
    + intros t k [Hfx Ht] Hk. split; [|apply tidy_switch; assumption].
      eapply inputFx_trans; [exact Hfx|]. footprint_refl.
    + intros t [Hfx Ht]. split; [|apply tidy_startReload, Ht].
      eapply inputFx_trans; [exact Hfx|]. apply startReload_input.
    + destruct (bool_decide (key = "Enter")) eqn:Hkey;
        [|intros Hlt; destruct (Hin _ Hfx Hlt)].
      apply bool_decide_eq_true in Hkey. subst key.
      destruct (negb (gameStarted sk)).
      * intros _. split; [auto|]. unfold startGame. cbv zeta.
        destruct (weapons _ !! "pistol") as [w|]; cbn [final]; [|reflexivity].
        match goal with
        | |- context [spawnWave ?t] =>
            pose proof (waveFx_spawnWave t) as Hfp; revert Hfp; generalize (spawnWave t)
        end.
        intros u Hfp. unfold createPlayer in Hfp. project Hfp. ssimpl.
        replace (player u) with (mkPlayer (W / num 2)%F (H / num 2)%F (num 16) (num 200)
                                   100 100) by congruence. reflexivity.
      * destruct (gameOver sk); [|intros Hlt; destruct (Hin _ Hfx Hlt)].
        intros _. split; [auto|]. cbn [final]. unfold restartGame. cbv zeta.
        match goal with
        | |- context [spawnWave ?t] =>
            pose proof (waveFx_spawnWave t) as Hfp; revert Hfp; generalize (spawnWave t)
        end.
        intros u Hfp. unfold resetSession in Hfp. project Hfp. ssimpl.
        replace (player u) with (set_p_hp (p_maxHp (player sk)) (player sk)) by congruence.
        reflexivity.
  - intros Hlt. exfalso. apply (Hin _ ltac:(footprint_refl) Hlt).
  - intros Hlt. exfalso. apply (Hin _ ltac:(footprint_refl) Hlt).
  - cbn [final]. intros Hlt. exfalso. refine (Hin _ _ Hlt).
    eapply inputFx_trans; [|apply shootAtMouse_input]. footprint_refl.
  - intros Hlt. exfalso. apply (Hin _ ltac:(footprint_refl) Hlt).
  - cbn [final]. intros Hlt. exfalso. exact (Hin _ (shootAtMouse_input now s) Hlt).
  - cbn [final]. intros Hlt. exfalso. exact (Hin _ (proj1 (startReload_input s)) Hlt).
  - cbn [final]. intros Hlt. exfalso. exact (Hin _ (timerFires_input i s) Hlt).
  - pose proof (shop_closed i s (ti_stocked _ (sh_tidy _ Hs))) as Hc.
    cbn [handle] in Hc. rewrite Hc. cbn [final]. lia.
  - intros _. split; [auto|]. unfold startGame. cbv zeta.
    destruct (weapons _ !! "pistol") as [w|]; cbn [final]; [|reflexivity].
    match goal with
    | |- context [spawnWave ?t] =>
        pose proof (waveFx_spawnWave t) as Hfp; revert Hfp; generalize (spawnWave t)
    end.
    intros u Hfp. unfold createPlayer in Hfp. project Hfp. ssimpl.
    replace (player u) with (mkPlayer (W / num 2)%F (H / num 2)%F (num 16) (num 200)
                               100 100) by congruence. reflexivity.
  - destruct (frames s) as [|n] eqn:Hn; [cbn [final]; lia|].
    destruct (update_frame ts now (set_frames n s) (so_noBomber _ (sh_sound _ Hs)))
      as (s' & -> & Hfs).
    cbn [final]. pose proof (fs_hp _ _ Hfs) as Hle. ssimpl in Hle. lia.
Qed.

(** ** What a kill by a bullet pays *)










(** ** Spitters *)

Lemma forDown_omap_out {St A B} (get : St -> list A) (out : St -> list B)
    (K : St -> Prop) (f : A -> option A) (g : A -> list B)
    (body : nat -> St -> flow St) (s : St) :
  K s ->
  (forall i (t : St) x, K t -> get s !! i = Some x -> get t !! i = Some x ->
     exists t' : St, body i t = Continue t' /\ K t' /\ out t' = out t ++ g x /\
       get t' = match f x with
                | Some y => <[i := y]> (get t)
                | None => delete i (get t)
                end) ->
  exists s' : St, forDown body (length (get s)) s = Done s' /\ K s' /\
    get s' = omap f (get s) /\ out s' = out s ++ flat_map g (rev (get s)).
Proof.
  intros HK Hbody.
  apply (forDown_rule
    (fun i (t : St) => (i <= length (get s))%nat /\ K t /\
       get t = take i (get s) ++ omap f (drop i (get s)) /\
       out t = out s ++ flat_map g (rev (drop i (get s))))
    (fun o => exists s' : St, o = Done s' /\ K s' /\
       get s' = omap f (get s) /\ out s' = out s ++ flat_map g (rev (get s)))).
  - split; [reflexivity|]. split; [exact HK|].
    rewrite take_ge, drop_ge by lia. simpl. rewrite !app_nil_r. split; reflexivity.
  - intros i t (Hi & Ht & Hget & Hout).
    destruct (split_at (get s) i Hi) as (x & Hx & Htake & Hdrop & Hlen).
    rewrite Htake, <- app_assoc in Hget. simpl in Hget.
    assert (Hti : get t !! i = Some x).
    { rewrite Hget. apply slot_lookup. symmetry; exact Hlen. }
    destruct (Hbody i t x Ht Hx Hti) as (t' & -> & Ht' & Hout' & Hget').
    split; [lia|]. split; [exact Ht'|]. rewrite Hdrop, omap_cons_case.
    split.
    + rewrite Hget'. destruct (f x) as [y|]; rewrite Hget.
      * apply slot_insert. symmetry; exact Hlen.
      * apply slot_delete. symmetry; exact Hlen.
    + rewrite Hout', Hout. simpl rev. rewrite flat_map_app. simpl.
      rewrite app_nil_r, app_assoc. reflexivity.
  - intros t (_ & Ht & Hget & Hout). rewrite drop_0 in Hget, Hout. simpl in Hget.
    exists t. auto.
Qed.

(** X23: the enemy pass of a frame (on a list without bombers) makes every
    spitter whose last projectile is more than 1400 ms old send one at the
    player, from where the spitter stood before moving, at speed 220; the
    projectiles are appended to the bullet list, those of later enemies
    first; the pass pays nothing: score, coins and weapons are as before *)
Theorem spitters_fire dt now s :
  noBomber s ->
  exists s', updateEnemies dt now s = Done s' /\
    bullets s' = bullets s ++ flat_map (spitOf now (player s)) (rev (enemies s)) /\
    score s' = score s /\ coins s' = coins s /\ weapons s' = weapons s.
Proof.
  intros Hnb. unfold updateEnemies.
  destruct (forDown_omap_out (@enemies F) (@bullets F)
    (fun t => samePlace (player s) (player t) /\ score t = score s /\
              coins t = coins s /\ weapons t = weapons s)
    (afterContact dt now (player s)) (spitOf now (player s))
    (updateEnemiesBody dt now) s) as (s' & Hrun & (_ & Hsc & Hc & Hw) & _ & Hb).
  - repeat split.
  - intros i t e (Hpl & Hsc & Hc & Hw) He0 He.
    assert (Hty : e_type e <> bomber) by exact (Forall_lookup_1 _ _ _ _ Hnb He0).
    unfold updateEnemiesBody. rewrite He.
    destruct (afterContact_at dt now _ _ e Hpl) as [-> _].
    unfold spitOf.
    replace (p_x (player s)) with (p_x (player t)) by apply Hpl.
    replace (p_y (player s)) with (p_y (player t)) by apply Hpl.
    assert (Hb : forall e1, e_type e1 = e_type e ->
              bool_decide (e_type (chase dt (player t) e1) = bomber) = false).
    { intros e1 H1. apply bool_decide_eq_false. simpl. congruence. }
    destruct (spits now e); prep.
    all: rewrite Hb by reflexivity.
    all: destruct (touches (player t) _) eqn:Ht.
    all: name_calls; ssimpl.
    all: try destruct (_ <? num 0.5)%F; ssimpl.
    all: eexists; (split; [reflexivity|]).
    all: project_all; ssimpl in *.
    all: (split; [|split]).
    all: try (split; [|repeat split; congruence]).
    all: try (players; destruct Hpl as (? & ? & ? & ?); repeat split; ssimpl; assumption).
    all: try (enemy_lists; rewrite ?delete_insert_same; reflexivity).
    all: try (repeat match goal with
              | E : bullets ?a = _ |- context [bullets ?a] => rewrite E
              end; ssimpl; rewrite ?app_nil_r; reflexivity).
  - exists s'. auto.
Qed.

(** X24: startGame, the pistol being in the weapon table, returns with the
    game running and not over, score and coins 0, level 1, the quota 6, a
    new player with 100 hit points at the centre of the canvas and a wave
    of 7; unlike restartGame it leaves the bullets, the particles and the
    pickups of an earlier game where they are; the weapons keep their ammo
    (the pistol is marked owned), the weapon in hand and a reload in
    progress are kept, and one more animation frame is requested for
    update *)
Theorem start_resets_session s w :
  weapons s !! "pistol" = Some w ->
  exists s', startGame s = Done s' /\
    gameStarted s' = true /\ gameOver s' = false /\
    score s' = 0 /\ coins s' = 0 /\ level s' = 1 /\ enemiesToSpawn s' = 6 /\
    player s' = mkPlayer (W / num 2)%F (H / num 2)%F (num 16) (num 200) 100 100 /\
    length (enemies s') = 7%nat /\
    weapons s' = <["pistol" := set_owned true w]> (weapons s) /\
    bullets s' = bullets s /\ particles s' = particles s /\ pickups s' = pickups s /\
    currentWeaponKey s' = currentWeaponKey s /\ reloading s' = reloading s /\
    timers s' = timers s /\ lastShotAt s' = lastShotAt s /\
    frames s' = S (frames s).
Proof.
  intros Hw. unfold startGame. cbv zeta.
  change (weapons (createPlayer (resetSession (set_gameOver false (set_gameStarted true s))))
            !! "pistol") with (weapons s !! "pistol").
  rewrite Hw.
  match goal with
  | |- context [spawnWave ?t] =>
      assert (Hc : waveCount t = 7) by reflexivity;
      destruct (spawnWave_spec t) as (Hfp & Hlen & _);
      rewrite Hc in Hlen; clear Hc; revert Hfp Hlen; generalize (spawnWave t)
  end.
  intros u Hfp Hlen. eexists. split; [reflexivity|].
  unfold resetSession, createPlayer in Hfp. project Hfp. ssimpl.
  repeat split; try congruence. rewrite Hlen. reflexivity.
Qed.

End Properties.

(** * The theorems at work

    Each statement below is one of the theorems above applied to a concrete
    game under the reference interpretation, or a concrete game on which a
    sentence of the specification fails. *)

Import Exact.



Lemma exact_randomOk : randomOk.
Proof.
  intros n k Hk. change 0 with (Qfloor 0). apply Qfloor_resp_le.
  cbn [fmul num QFloat random page]. rewrite !Qred_correct.
  apply Qmult_le_0_compat.
  - unfold Qle; simpl. lia.
  - unfold Qle; simpl. lia.
Qed.

(** ** Firing *)

Lemma fire_decrements_ammo_witness :
  reloading started = false /\
  exists w, weapons started !! currentWeaponKey started = Some w /\
    weapons (shootAtMouse 1000 started)
      = <[currentWeaponKey started := set_ammo (ammo w - 1) w]> (weapons started) /\
    0 <= ammo w - 1.
Proof.
  apply (proj1 (fire_decrements_ammo 1000 started)).
  vm_compute. discriminate.
Defined.

(** ** Contact *)



(** ** Waves *)

Lemma spawnWave_count_and_boss_witness :
  Z.of_nat (length (enemies (spawnWave level5))) = 12 /\
  exists e rest, enemies (spawnWave level5) = e :: rest /\
    e_type e = boss /\ e_hp e = 40.
Proof.
  destruct (spawnWave_count_and_boss level5) as [Hn Hb].
  - vm_compute. discriminate.
  - vm_compute. discriminate.
  - split; [rewrite Hn; vm_compute; reflexivity|].
    destruct Hb as (e & rest & He & Ht & Hh); [vm_compute; reflexivity|].
    exists e, rest. split; [exact He|]. split; [exact Ht|].
    rewrite Hh. vm_compute. reflexivity.
Defined.

(** ** Game over *)

Lemma lost_reachable : @reachable Q QFloat halves lost.
Proof. apply reachable_run, reach_initial. Qed.

Lemma game_over_once_witness :
  gameOver lost = true /\ p_hp (player lost) = -2 /\
  p_hp (player lost) <= p_maxHp (player lost) /\
  (gameOver lost = true <-> p_hp (player lost) <= 0) /\
  (forall ts now, exists s', @handle Q QFloat halves (Frame ts now) lost = Done s' /\
     (gameOver lost = true -> gameOver s' = true /\ p_hp (player s') <= 0)) /\
  (gameOver lost = true -> gameOverCheck lost = lost) /\
  gameOverCheck (gameOverCheck lost) = gameOverCheck lost.
Proof.
  split; [vm_compute; reflexivity|]. split; [vm_compute; reflexivity|].
  apply (@game_over_once Q QFloat halves lost).
  apply reachable_run, reach_initial.
Defined.

(** ** Ammunition *)

Lemma ammo_stays_within_bounds_witness :
  ammoInv (shootAtMouse 1000 started) /\ ammoInv (timerFires 0 started) /\
  ammoInv (final (collectPickups 0%Q started)) /\ ammoInv (levelProgression started).
Proof.
  apply ammo_stays_within_bounds.
  apply map_Forall_to_list.
  set (l := map_to_list (weapons started)). vm_compute in l. subst l.
  repeat constructor; vm_compute; discriminate.
Defined.

(** ** The shop and the coins *)




(** ** Walls *)

Lemma wall_pushout_per_axis_witness :
  p_x (avoidWall atCorner wall1) = 183%Q /\ p_y (avoidWall atCorner wall1) = 123%Q.
Proof.
  pose proof (wall_pushout_per_axis atCorner wall1) as Hw. cbv zeta in Hw.
  destruct Hw as (Hx & _ & _ & Hy & _); [vm_compute; reflexivity|].
  split.
  - rewrite Hx; vm_compute; reflexivity.
  - rewrite Hy; vm_compute; reflexivity.
Defined.

(* C8 as the specification has it fails: at a corner of the first wall the
   player is moved along both axes, although the wall is entered less deep
   along x (by 6) than along y (by 6 as well, so neither is the smaller) *)
Lemma corner_push_moves_both_axes :
  In wall1 walls /\
  circleRectCollision (p_x atCorner) (p_y atCorner) (p_r atCorner)
    (wl_x wall1) (wl_y wall1) (wl_w wall1) (wl_h wall1) = true /\
  p_x (avoidWall atCorner wall1) <> p_x atCorner /\
  p_y (avoidWall atCorner wall1) <> p_y atCorner /\
  player (avoidWalls (set_player atCorner started))
    = mkPlayer 183%Q 123%Q 16%Q 200%Q 100 100.
Proof.
  split; [left; vm_compute; reflexivity|].
  split; [vm_compute; reflexivity|].
  split; [vm_compute; discriminate|].
  split; [vm_compute; discriminate|].
  vm_compute. reflexivity.
Qed.

(** ** Bullets *)


(** * More of the script, at work *)

Import Scenes.

Lemma started_reach : reachable started.
Proof. exact (reach_step StartClick initial reach_initial). Qed.

Lemma harvest_reach : @reachable Q QFloat lineup harvest.
Proof. apply reachable_run, reach_initial. Qed.

Lemma emptied_reach : @reachable Q QFloat page emptied.
Proof. apply reachable_run, reach_initial. Qed.

Lemma started_canFire : canFire 1000 started pistol12.
Proof. repeat split; vm_compute; first [reflexivity | discriminate]. Qed.

(** ** Firing *)

Lemma shot_spawns_projectiles_witness :
  lastShotAt (shootAtMouse 1000 started) = 1000 /\
  exists new, bullets (shootAtMouse 1000 started) = bullets started ++ new /\
    length new = shotSize pistol12 /\ Forall (firedFrom pistol12) new.
Proof. exact (shot_spawns_projectiles 1000 started pistol12 started_canFire). Defined.

Lemma last_round_starts_reload_witness :
  reloading (shootAtMouse 1000 lastRound) = true /\
  timers (shootAtMouse 1000 lastRound) = [("pistol", 800)].
Proof.
  assert (Hcan : canFire 1000 lastRound pistol1)
    by (repeat split; vm_compute; first [reflexivity | discriminate]).
  destruct (last_round_starts_reload 1000 lastRound pistol1 Hcan) as [Hr Ht].
  split; [rewrite Hr|rewrite Ht]; vm_compute; reflexivity.
Defined.


(** ** Reloading *)

Lemma reload_round_trip_witness :
  reloading (startReload fired) = true /\
  weapons (timerFires 0 (set_currentWeaponKey "smg" (startReload fired)))
    = <["pistol" := pistol12]> (weapons fired) /\
  reloading (timerFires 0 (set_currentWeaponKey "smg" (startReload fired))) = false.
Proof.
  destruct (reload_round_trip "smg" fired pistol11) as (H1 & _ & _ & H4 & H5 & _).
  - vm_compute. reflexivity.
  - vm_compute. reflexivity.
  - vm_compute. reflexivity.
  - split; [exact H1|]. split; [|exact H5].
    etransitivity; [exact H4|]. vm_compute. reflexivity.
Defined.

(** ** Waves *)

Lemma wave_members_witness :
  bredAt 5 bigBoss /\ (sidesOk -> offCanvas bigBoss) /\
  (e_type bigBoss = boss <-> Z.rem 5 5 = 0 /\ 0%nat = 0%nat).
Proof.
  apply (wave_members level5 0 bigBoss). vm_compute. reflexivity.
Defined.

Lemma wave_cleared_levels_up_witness :
  level (levelProgression cleared) = 2 /\
  enemiesToSpawn (levelProgression cleared) = 8 /\
  coins (levelProgression cleared) = 5 /\
  Z.of_nat (length (enemies (levelProgression cleared))) = 10.
Proof.
  destruct (proj1 (wave_cleared_levels_up cleared)) as (Hl & Hq & Hc & _ & _ & Hn & _).
  - reflexivity.
  - vm_compute. reflexivity.
  - vm_compute. reflexivity.
  - vm_compute. discriminate.
  - vm_compute. discriminate.
  - split; [rewrite Hl|split; [rewrite Hq|split; [rewrite Hc|rewrite Hn]]];
      vm_compute; reflexivity.
Defined.

(** ** Passes *)

Lemma pickups_collected_witness :
  exists s', collectPickups 0%Q harvest = Done s' /\ weapons s' = weapons harvest.
Proof.
  destruct (pickups_collected 0%Q harvest)
    as (s' & Hrun & _ & _ & _ & _ & _ & Hw).
  exists s'. split; [exact Hrun|]. apply Hw.
  unfold coinsOnly. set (l := pickups harvest). vm_compute in l. subst l.
  repeat constructor.
Defined.

Lemma bullets_fly_witness :
  exists s', updateBullets 0%Q fired = Done s' /\
    enemies s' = enemies fired /\ pickups s' = pickups fired.
Proof.
  destruct (bullets_fly 0%Q fired) as (s' & Hrun & _ & _ & _ & _ & _ & He).
  exists s'. split; [exact Hrun|]. apply He.
  set (l := bullets fired). vm_compute in l. subst l. repeat constructor.
Defined.


Lemma spitters_fire_witness :
  exists s', updateEnemies 0%Q 2000 started = Done s' /\
    bullets s' = bullets started ++ flat_map (spitOf 2000 (player started))
                                      (rev (enemies started)) /\
    score s' = score started /\ coins s' = coins started /\
    weapons s' = weapons started.
Proof.
  apply spitters_fire. apply (so_noBomber _ (reachable_sound _ started_reach)).
Defined.

(** ** Starting *)

Lemma start_resets_session_witness :
  exists s', startGame initial = Done s' /\ gameStarted s' = true /\
    length (enemies s') = 7%nat /\ frames s' = 1%nat.
Proof.
  destruct (start_resets_session initial pistol12) as (s' & Hrun & Hgs & H).
  - vm_compute. reflexivity.
  - exists s'. split; [exact Hrun|]. split; [exact Hgs|].
    destruct H as (_ & _ & _ & _ & _ & _ & Hlen & _ & _ & _ & _ & _ & _ & _ & _ & Hf).
    split; [exact Hlen|]. rewrite Hf. reflexivity.
Defined.

(** ** In every game *)

Lemma weapon_table_is_fixed_witness :
  exists w, weapons harvest !! currentWeaponKey harvest = Some w /\ owned w = true.
Proof. exact (proj2 (@weapon_table_is_fixed Q QFloat lineup harvest harvest_reach)). Defined.

Lemma handlers_never_throw_witness :
  exists s', @handle Q QFloat lineup (Frame 2000%Q 2000) harvest = Done s'.
Proof. exact (@handlers_never_throw Q QFloat lineup harvest _ harvest_reach). Defined.

Lemma shop_never_sells_witness :
  @handle Q QFloat lineup (ShopClick 0) harvest = Done harvest.
Proof. exact (@shop_never_sells Q QFloat lineup harvest 0 harvest_reach). Defined.

Lemma one_reload_at_a_time_witness :
  (length (timers emptied) <= 1)%nat /\
  (reloading emptied = true <-> timers emptied <> []) /\
  (reloading emptied = false ->
   forall k w, weapons emptied !! k = Some w -> 0 < ammo w).
Proof. exact (one_reload_at_a_time emptied emptied_reach). Defined.

Lemma pickups_are_coins_witness :
  Forall (fun pk => pk_type pk = coin) (pickups harvest).
Proof. exact (@pickups_are_coins Q QFloat lineup harvest harvest_reach). Defined.

Lemma update_loop_stays_alive_witness :
  (if gameStarted harvest then (1 <= frames harvest)%nat else frames harvest = 0%nat) /\
  frames (final (@handle Q QFloat lineup (Frame 2000%Q 2000) harvest)) = frames harvest.
Proof.
  exact (@update_loop_stays_alive Q QFloat lineup harvest 2000%Q 2000 harvest_reach).
Defined.

Lemma never_without_enemies_witness : enemies harvest <> [].
Proof.
  apply (@never_without_enemies Q QFloat lineup harvest harvest_reach).
  vm_compute. reflexivity.
Defined.


Lemma health_only_resets_witness :
  p_hp (player lost) = -2 /\
  p_hp (player (final (@handle Q QFloat halves (KeyDown "Enter") lost)))
    = p_maxHp (player (final (@handle Q QFloat halves (KeyDown "Enter") lost))).
Proof.
  split; [vm_compute; reflexivity|].
  apply (@health_only_resets Q QFloat halves (KeyDown "Enter") lost lost_reachable).
  vm_compute. reflexivity.
Defined.
